(** * saz2xlsx: the menu-label inference engine of [scripts/menu_auto_label.py]

    A shallow embedding of the candidate miner, the candidate pool builder,
    the path similarity scorer and the best-match resolver, and the
    properties the specification states about them.

    Conventions of the embedding.
    - Python [str] and [bytes] values are Rocq [string]s: sequences of 8-bit
      characters, read as ASCII text.  Character classes ([\d], [\w], [\s],
      [str.strip], [str.lower]) are the ASCII restrictions of Python's.
    - A Python call that may raise returns [result A]: [Raise e] is the
      exception, [Ok v] the returned value.  Only subclasses of [Exception]
      are modelled.
    - Python floats that carry scores are exact rationals ([Q]); every
      constant of the source (0.0, 1.0, 5, 15, 20, 25, 40, 100.0) is exact.
    - The pool and the header dictionaries are [gmap]s, the segment sets of
      the scorer are [gset]s; the [seen] sets of the deduplication loops,
      used for membership only, are lists.
    - [urllib.parse], [re] and [difflib] are modelled in the modules [Url],
      [Re] and [Difflib], from the library sources of CPython 3.11.
    - The tokenizer of [html.parser], [html.unescape], the codecs and the
      iteration order of sets of strings are taken from an environment
      ([PyEnv]).  The properties hold for every environment; a reference
      environment ([py_env]) runs the scenarios. *)

From Stdlib Require Import String Ascii List Bool Arith ZArith QArith Lia.
From Stdlib Require Import Qminmax Permutation DecimalString Lqa.
From stdpp Require Import base option list gmap strings.

Import ListNotations.
Local Open Scope string_scope.
Local Open Scope list_scope.
Local Open Scope nat_scope.

(* ------------------------------------------------------------------ *)
(** ** Exceptions *)

(** the subclasses of [Exception] that matter here *)
Inductive exn : Type :=
| ValueError
| KeyError
| BadZipFile
| LookupError
| ZeroDivisionError.

Inductive result (A : Type) : Type :=
| Ok (v : A)
| Raise (e : exn).
Arguments Ok {A} v.
Arguments Raise {A} e.

Definition rbind {A B} (m : result A) (f : A -> result B) : result B :=
  match m with
  | Ok v => f v
  | Raise e => Raise e
  end.

Notation "'do' x <- m ; k" := (rbind m (fun x => k))
  (at level 10, x name, m at level 100, k at level 200).

(** [try: body except Exception: handler] *)
Definition try_except {A} (body : result A) (handler : exn -> result A) : result A :=
  match body with
  | Ok v => Ok v
  | Raise e => handler e
  end.

(* ------------------------------------------------------------------ *)
(** ** Python string operations *)

Module PyStr.

Definition code (c : ascii) : nat := nat_of_ascii c.

Definition is_digit (c : ascii) : bool := (48 <=? code c) && (code c <=? 57).
Definition is_upper (c : ascii) : bool := (65 <=? code c) && (code c <=? 90).
Definition is_lower (c : ascii) : bool := (97 <=? code c) && (code c <=? 122).
Definition is_alpha (c : ascii) : bool := is_upper c || is_lower c.
Definition is_alnum (c : ascii) : bool := is_alpha c || is_digit c.
(** [\w] *)
Definition is_word (c : ascii) : bool := is_alnum c || (code c =? 95).
(** [str.isspace] on ASCII: TAB LF VT FF CR, FS GS RS US, SPACE *)
Definition is_space (c : ascii) : bool :=
  ((9 <=? code c) && (code c <=? 13)) || ((28 <=? code c) && (code c <=? 32)).
Definition is_hex (c : ascii) : bool :=
  is_digit c || ((65 <=? code c) && (code c <=? 70))
             || ((97 <=? code c) && (code c <=? 102)).

Definition lower_char (c : ascii) : ascii :=
  if is_upper c then ascii_of_nat (code c + 32) else c.

Fixpoint lower (s : string) : string :=
  match s with
  | EmptyString => EmptyString
  | String c t => String (lower_char c) (lower t)
  end.

Definition nonempty (s : string) : bool :=
  match s with EmptyString => false | _ => true end.

Fixpoint forall_chars (p : ascii -> bool) (s : string) : bool :=
  match s with
  | EmptyString => true
  | String c t => p c && forall_chars p t
  end.

Fixpoint rev_acc (s acc : string) : string :=
  match s with
  | EmptyString => acc
  | String c t => rev_acc t (String c acc)
  end.
Definition rev (s : string) : string := rev_acc s EmptyString.

Fixpoint lstrip_by (p : ascii -> bool) (s : string) : string :=
  match s with
  | EmptyString => EmptyString
  | String c t => if p c then lstrip_by p t else s
  end.
Definition rstrip_by (p : ascii -> bool) (s : string) : string :=
  rev (lstrip_by p (rev s)).
Definition strip_by (p : ascii -> bool) (s : string) : string :=
  rstrip_by p (lstrip_by p s).

(** [s.strip()] *)
Definition strip (s : string) : string := strip_by is_space s.

(** [s.startswith(p)] *)
Fixpoint startswith (s p : string) : bool :=
  match p, s with
  | EmptyString, _ => true
  | String a p', String b s' => Ascii.eqb a b && startswith s' p'
  | String _ _, EmptyString => false
  end.

(** [s.endswith(p)] *)
Definition endswith (s p : string) : bool := startswith (rev s) (rev p).

Fixpoint drop (n : nat) (s : string) : string :=
  match n, s with
  | O, _ => s
  | S n', String _ t => drop n' t
  | S _, EmptyString => EmptyString
  end.

Fixpoint take (n : nat) (s : string) : string :=
  match n, s with
  | O, _ => EmptyString
  | S n', String c t => String c (take n' t)
  | S _, EmptyString => EmptyString
  end.

(** [s[i:j]] for non-negative [i], [j] *)
Definition slice (i j : nat) (s : string) : string := take (j - i) (drop i s).

(** [s.find(p)]: index of the first occurrence *)
Fixpoint find (s p : string) : option nat :=
  if startswith s p then Some 0
  else match s with
       | EmptyString => None
       | String _ t => option_map S (find t p)
       end.

(** [p in s] *)
Definition contains (s p : string) : bool :=
  match find s p with Some _ => true | None => false end.

(** [s.partition(sep)] as (head, found, tail) *)
Definition partition (s sep : string) : string * bool * string :=
  match find s sep with
  | Some i => (take i s, true, drop (i + String.length sep) s)
  | None => (s, false, EmptyString)
  end.

(** [s.split(c)] for a one-character separator *)
Fixpoint split_char (c : ascii) (s : string) : list string :=
  match s with
  | EmptyString => [EmptyString]
  | String d t =>
      if Ascii.eqb c d then EmptyString :: split_char c t
      else match split_char c t with
           | [] => [String d EmptyString]
           | h :: r => String d h :: r
           end
  end.

(** [sep.join(l)] *)
Fixpoint join (sep : string) (l : list string) : string :=
  match l with
  | [] => EmptyString
  | [x] => x
  | x :: t => x ++ sep ++ join sep t
  end.

(** [s.replace(c, empty)] for each character [c] of a set *)
Fixpoint remove_chars (p : ascii -> bool) (s : string) : string :=
  match s with
  | EmptyString => EmptyString
  | String c t => if p c then remove_chars p t else String c (remove_chars p t)
  end.

Fixpoint index_char (c : ascii) (s : string) : option nat :=
  match s with
  | EmptyString => None
  | String d t => if Ascii.eqb c d then Some 0 else option_map S (index_char c t)
  end.

Fixpoint rindex_char (c : ascii) (s : string) : option nat :=
  match s with
  | EmptyString => None
  | String d t =>
      match rindex_char c t with
      | Some i => Some (S i)
      | None => if Ascii.eqb c d then Some 0 else None
      end
  end.

Definition has_char (c : ascii) (s : string) : bool :=
  match index_char c s with Some _ => true | None => false end.

(** membership in a tuple or list of strings *)
Definition mem (x : string) (l : list string) : bool :=
  existsb (String.eqb x) l.

End PyStr.

(* ------------------------------------------------------------------ *)
(** ** Regular expressions ([re])

    A backtracking matcher with the priorities of Python's engine: the
    alternatives of [|] are tried left to right, a greedy repetition tries
    the longest run first and a lazy one the shortest, and the first
    successful path is the match.  The patterns of the source repeat
    single characters only, so repetition is over a character class. *)

Module Re.

Inductive re : Type :=
| Eps
| Chr (p : ascii -> bool)                       (* one character of a class *)
| Seq (a b : re)
| Alt (a b : re)                                (* a|b *)
| Rep (greedy : bool) (min : nat) (p : ascii -> bool)  (* p{min,} or p{min,}? *)
| Group (n : nat) (r : re)                      (* capturing group n *)
| Backref (ci : bool) (n : nat)                 (* \n *)
| Bos                                           (* ^ *)
| Eos                                           (* $ *)
| WordB.                                        (* \b *)

Record st : Type := mkSt {
  pos : nat;
  prev : option ascii;
  rest : string;
  caps : list (nat * (nat * nat))
}.

Fixpoint cap_lookup (n : nat) (l : list (nat * (nat * nat))) : option (nat * nat) :=
  match l with
  | [] => None
  | (m, v) :: t => if n =? m then Some v else cap_lookup n t
  end.

Fixpoint rep_loop {X} (g : bool) (p : ascii -> bool) (min : nat) (rs : string)
    (po : nat) (pr : option ascii)
    (k : string -> nat -> option ascii -> option X) {struct rs} : option X :=
  match rs with
  | String c t =>
      if p c then
        if g then
          match rep_loop g p (Nat.pred min) t (S po) (Some c) k with
          | Some x => Some x
          | None => if min =? 0 then k rs po pr else None
          end
        else
          match (if min =? 0 then k rs po pr else None) with
          | Some x => Some x
          | None => rep_loop g p (Nat.pred min) t (S po) (Some c) k
          end
      else if min =? 0 then k rs po pr else None
  | EmptyString => if min =? 0 then k rs po pr else None
  end.

(** the literal text [t] at the current position *)
Fixpoint lit_at (eq : ascii -> ascii -> bool) (t rs : string) (po : nat)
    (pr : option ascii) : option (string * nat * option ascii) :=
  match t with
  | EmptyString => Some (rs, po, pr)
  | String a t' =>
      match rs with
      | String c r' => if eq a c then lit_at eq t' r' (S po) (Some c) else None
      | EmptyString => None
      end
  end.

Definition eq_ci (a b : ascii) : bool :=
  Ascii.eqb (PyStr.lower_char a) (PyStr.lower_char b).

Definition is_word_opt (o : option ascii) : bool :=
  match o with Some c => PyStr.is_word c | None => false end.

Definition next_char (s : string) : option ascii :=
  match s with String c _ => Some c | EmptyString => None end.

Fixpoint run {X} (inp : string) (r : re) (s : st) (k : st -> option X)
    {struct r} : option X :=
  match r with
  | Eps => k s
  | Chr p =>
      match rest s with
      | String c t => if p c then k (mkSt (S (pos s)) (Some c) t (caps s)) else None
      | EmptyString => None
      end
  | Seq a b => run inp a s (fun s' => run inp b s' k)
  | Alt a b =>
      match run inp a s k with
      | Some x => Some x
      | None => run inp b s k
      end
  | Rep g min p =>
      rep_loop g p min (rest s) (pos s) (prev s)
        (fun rs po pr => k (mkSt po pr rs (caps s)))
  | Group n a =>
      run inp a s (fun s' =>
        k (mkSt (pos s') (prev s') (rest s') ((n, (pos s, pos s')) :: caps s')))
  | Backref ci n =>
      match cap_lookup n (caps s) with
      | None => None
      | Some (a, b) =>
          match lit_at (if ci then eq_ci else Ascii.eqb)
                  (PyStr.slice a b inp) (rest s) (pos s) (prev s) with
          | Some (rs, po, pr) => k (mkSt po pr rs (caps s))
          | None => None
          end
      end
  | Bos => if pos s =? 0 then k s else None
  | Eos =>
      match rest s with
      | EmptyString => k s
      | String c EmptyString => if Ascii.eqb c "010"%char then k s else None
      | _ => None
      end
  | WordB =>
      if xorb (is_word_opt (prev s)) (is_word_opt (next_char (rest s)))
      then k s else None
  end.

(** A match object: where it starts, and the state where it ends. *)
Record mtch : Type := mkMatch {
  m_input : string;
  m_start : nat;
  m_final : st
}.

Definition m_end (m : mtch) : nat := pos (m_final m).

(** [m.group(n)]; [None] when the group did not take part *)
Definition group (m : mtch) (n : nat) : option string :=
  match n with
  | O => Some (PyStr.slice (m_start m) (m_end m) (m_input m))
  | _ => match cap_lookup n (caps (m_final m)) with
         | Some (a, b) => Some (PyStr.slice a b (m_input m))
         | None => None
         end
  end.

(** [m.group(n) or ''] *)
Definition group_or_empty (m : mtch) (n : nat) : string :=
  match group m n with Some s => s | None => EmptyString end.

Definition match_at (inp : string) (r : re) (rs : string) (po : nat)
    (pr : option ascii) : option mtch :=
  match run inp r (mkSt po pr rs []) (fun s => Some s) with
  | Some s => Some (mkMatch inp po s)
  | None => None
  end.

(** [re.match(r, inp)] *)
Definition match_ (r : re) (inp : string) : option mtch :=
  match_at inp r inp 0 None.

Fixpoint search_from (inp : string) (r : re) (rs : string) (po : nat)
    (pr : option ascii) {struct rs} : option mtch :=
  match match_at inp r rs po pr with
  | Some m => Some m
  | None =>
      match rs with
      | String c t => search_from inp r t (S po) (Some c)
      | EmptyString => None
      end
  end.

(** [re.search(r, inp)] *)
Definition search (r : re) (inp : string) : option mtch :=
  search_from inp r inp 0 None.

(** [re.finditer(r, inp)]: the successive non-overlapping matches.  After an
    empty match the scan resumes one character further. *)
Fixpoint finditer_from (fuel : nat) (inp : string) (r : re) (rs : string)
    (po : nat) (pr : option ascii) : list mtch :=
  match fuel with
  | O => []
  | S f =>
      match search_from inp r rs po pr with
      | None => []
      | Some m =>
          let s := m_final m in
          if pos s =? m_start m then
            match rest s with
            | String c t => m :: finditer_from f inp r t (S (pos s)) (Some c)
            | EmptyString => [m]
            end
          else m :: finditer_from f inp r (rest s) (pos s) (prev s)
      end
  end.

Definition finditer (r : re) (inp : string) : list mtch :=
  finditer_from (S (String.length inp)) inp r inp 0 None.

(** [re.findall(r, inp)] for a pattern with exactly one group *)
Definition findall1 (r : re) (inp : string) : list string :=
  map (fun m => group_or_empty m 1) (finditer r inp).

(** [re.sub(r, repl, inp)] for a constant replacement *)
Fixpoint sub_pieces (inp repl : string) (from : nat) (ms : list mtch) : string :=
  match ms with
  | [] => PyStr.drop from inp
  | m :: t =>
      PyStr.slice from (m_start m) inp ++ repl ++ sub_pieces inp repl (m_end m) t
  end.

Definition sub (r : re) (repl inp : string) : string :=
  sub_pieces inp repl 0 (finditer r inp).

(** *** Pattern builders *)

Definition chr (c : ascii) : re := Chr (Ascii.eqb c).
Definition chri (c : ascii) : re := Chr (eq_ci c).

Fixpoint lit (s : string) : re :=
  match s with
  | EmptyString => Eps
  | String c EmptyString => chr c
  | String c t => Seq (chr c) (lit t)
  end.

(** a literal under [re.I] *)
Fixpoint liti (s : string) : re :=
  match s with
  | EmptyString => Eps
  | String c EmptyString => chri c
  | String c t => Seq (chri c) (liti t)
  end.

Fixpoint seqs (l : list re) : re :=
  match l with
  | [] => Eps
  | [r] => r
  | r :: t => Seq r (seqs t)
  end.

Fixpoint alts (l : list re) : re :=
  match l with
  | [] => Eps
  | [r] => r
  | r :: t => Alt r (alts t)
  end.

(** [r{n}] *)
Fixpoint times (n : nat) (r : re) : re :=
  match n with
  | O => Eps
  | S O => r
  | S m => Seq r (times m r)
  end.

Definition opt (r : re) : re := Alt r Eps.          (* r? *)
Definition star (p : ascii -> bool) : re := Rep true 0 p.    (* p* *)
Definition plus (p : ascii -> bool) : re := Rep true 1 p.    (* p+ *)
Definition star_lazy (p : ascii -> bool) : re := Rep false 0 p.  (* p*? *)

Definition any (c : ascii) : bool := true.           (* . under re.S *)
Definition none_of (s : string) (c : ascii) : bool := negb (PyStr.has_char c s).
Definition one_of (s : string) (c : ascii) : bool := PyStr.has_char c s.

End Re.

(* ------------------------------------------------------------------ *)
(** ** URL parsing and joining ([urllib.parse], [ipaddress]) *)

Module Url.

Import PyStr.

Record ParseResult : Type := mkParse {
  scheme : string;
  netloc : string;
  path : string;
  params : string;
  query : string;
  fragment : string
}.

Definition uses_relative : list string :=
  [EmptyString; "ftp"; "http"; "gopher"; "nntp"; "imap"; "wais"; "file"; "https";
   "shttp"; "mms"; "prospero"; "rtsp"; "rtspu"; "sftp"; "svn"; "svn+ssh";
   "ws"; "wss"].

Definition uses_netloc : list string :=
  [EmptyString; "ftp"; "http"; "gopher"; "nntp"; "telnet"; "imap"; "wais"; "file";
   "mms"; "https"; "shttp"; "snews"; "prospero"; "rtsp"; "rtspu"; "rsync";
   "svn"; "svn+ssh"; "sftp"; "nfs"; "git"; "git+ssh"; "ws"; "wss"].

Definition uses_params : list string :=
  [EmptyString; "ftp"; "hdl"; "prospero"; "http"; "imap"; "https"; "shttp"; "rtsp";
   "rtspu"; "sip"; "sips"; "mms"; "sftp"; "tel"].

Definition scheme_char (c : ascii) : bool :=
  is_alnum c || (code c =? 43) || (code c =? 45) || (code c =? 46).

(** leading and trailing C0 control characters and space *)
Definition c0_or_space (c : ascii) : bool := code c <=? 32.

(** TAB, CR and LF are removed from the whole URL *)
Definition unsafe_byte (c : ascii) : bool :=
  (code c =? 9) || (code c =? 13) || (code c =? 10).

(** *** [ipaddress.ip_address], as far as [_check_bracketed_host] needs it *)

Fixpoint decimal_value (s : string) (acc : nat) : nat :=
  match s with
  | EmptyString => acc
  | String c t => decimal_value t (10 * acc + (code c - 48))
  end.

Definition parse_octet_ok (o : string) : bool :=
  nonempty o && forall_chars is_digit o && (String.length o <=? 3)
  && (String.eqb o "0" || negb (startswith o "0"))
  && (decimal_value o 0 <=? 255).

Definition ipv4_ok (s : string) : bool :=
  let octets := split_char "." s in
  nonempty s && (List.length octets =? 4) && forallb parse_octet_ok octets.

Definition parse_hextet_ok (h : string) : bool :=
  nonempty h && forall_chars is_hex h && (String.length h <=? 4).

(** the indices [1 <= i < len - 1] of the empty parts *)
Fixpoint empty_middle (parts : list string) (i : nat) : list nat :=
  match parts with
  | [] => []
  | [_] => []
  | x :: t => (if nonempty x then [] else [i]) ++ empty_middle t (S i)
  end.

Definition ipv6_parts_ok (parts : list string) : bool :=
  let n := List.length parts in
  if 9 <? n then false else
  match empty_middle (List.tl parts) 1 with
  | _ :: _ :: _ => false
  | [skip_index] =>
      let parts_hi := skip_index in
      let parts_lo := n - skip_index - 1 in
      let hd_empty := negb (nonempty (List.hd EmptyString parts)) in
      let tl_empty := negb (nonempty (List.last parts EmptyString)) in
      let parts_hi' := if hd_empty then parts_hi - 1 else parts_hi in
      let parts_lo' := if tl_empty then parts_lo - 1 else parts_lo in
      if hd_empty && negb (parts_hi' =? 0) then false
      else if tl_empty && negb (parts_lo' =? 0) then false
      else if 8 - (parts_hi' + parts_lo') <? 1 then false
      else forallb parse_hextet_ok (List.firstn parts_hi' parts)
           && forallb parse_hextet_ok (List.skipn (n - parts_lo') parts)
  | [] =>
      (n =? 8) && forallb parse_hextet_ok parts
  end.

Definition ipv6_ok (s : string) : bool :=
  if has_char "/" s then false else
  let '(addr, sep, scope_id) := partition s "%" in
  if sep && (negb (nonempty scope_id) || has_char "%" scope_id) then false else
  if negb (nonempty addr) then false else
  let parts := split_char ":" addr in
  if List.length parts <? 3 then false else
  if has_char "." (List.last parts EmptyString) then
    ipv4_ok (List.last parts EmptyString)
    && ipv6_parts_ok (List.removelast parts ++ ["0"; "0"])
  else ipv6_parts_ok parts.

(** [\Av[a-fA-F0-9]+\..+\Z] *)
Definition ipvfuture_re : Re.re :=
  Re.seqs [Re.chr "v"; Re.plus is_hex; Re.chr "."; Re.plus Re.any; Re.Eos].

Definition _check_bracketed_host (hostname : string) : result unit :=
  if startswith hostname "v" then
    match Re.match_ ipvfuture_re hostname with
    | Some _ => Ok tt
    | None => Raise ValueError
    end
  else if ipv6_ok hostname then Ok tt else Raise ValueError.

(** [s.rpartition('@')[2]] *)
Definition after_last_at (s : string) : string :=
  match rindex_char "@" s with
  | Some i => drop (S i) s
  | None => s
  end.

Definition _check_bracketed_netloc (netloc : string) : result unit :=
  let hostname_and_port := after_last_at netloc in
  let '(before_bracket, have_open_br, bracketed) := partition hostname_and_port "[" in
  if have_open_br then
    if nonempty before_bracket then Raise ValueError
    else
      let '(hostname, _, port) := partition bracketed "]" in
      if nonempty port && negb (startswith port ":") then Raise ValueError
      else _check_bracketed_host hostname
  else
    let '(hostname, _, _) := partition hostname_and_port ":" in
    _check_bracketed_host hostname.

(** *** [urlsplit], [urlparse] *)

(** earliest of the delimiters [/ ? #] *)
Fixpoint delim_index (s : string) : nat :=
  match s with
  | EmptyString => 0
  | String c t =>
      if (code c =? 47) || (code c =? 63) || (code c =? 35) then 0
      else S (delim_index t)
  end.

(** [_splitnetloc(url, 2)] *)
Definition _splitnetloc (url : string) : string * string :=
  let r := drop 2 url in
  let d := delim_index r in
  (take d r, drop d r).

(** [s.split(c, 1)] when [c in s] *)
Definition split_once (c : ascii) (s : string) : option (string * string) :=
  match index_char c s with
  | Some i => Some (take i s, drop (S i) s)
  | None => None
  end.

Definition split_scheme (url default : string) : string * string :=
  match index_char ":" url, url with
  | Some (S i), String c0 _ =>
      if is_alpha c0 && forall_chars scheme_char (take (S i) url)
      then (lower (take (S i) url), drop (S (S i)) url)
      else (default, url)
  | _, _ => (default, url)
  end.

(** [urlsplit(url, scheme)] as (scheme, netloc, path, query, fragment) *)
Definition urlsplit (url0 scheme0 : string)
    : result (string * string * string * string * string) :=
  let url := remove_chars unsafe_byte (lstrip_by c0_or_space url0) in
  let scheme := remove_chars unsafe_byte (strip_by c0_or_space scheme0) in
  let '(scheme, url) := split_scheme url scheme in
  do nu <-
    (if startswith url "//" then
       let '(netloc, url') := _splitnetloc url in
       let ob := has_char "[" netloc in
       let cb := has_char "]" netloc in
       if (ob && negb cb) || (cb && negb ob) then Raise ValueError
       else if ob && cb then
         do _ <- _check_bracketed_netloc netloc; Ok (netloc, url')
       else Ok (netloc, url')
     else Ok (EmptyString, url));
  let '(netloc, url) := nu in
  let '(url, fragment) :=
    match split_once "#" url with Some p => p | None => (url, EmptyString) end in
  let '(url, query) :=
    match split_once "?" url with Some p => p | None => (url, EmptyString) end in
  Ok (scheme, netloc, url, query, fragment).

Definition _splitparams (url : string) : string * string :=
  match rindex_char "/" url with
  | Some r =>
      match index_char ";" (drop r url) with
      | Some j => (take (r + j) url, drop (S (r + j)) url)
      | None => (url, EmptyString)
      end
  | None =>
      match index_char ";" url with
      | Some i => (take i url, drop (S i) url)
      | None =>
          (* [i = -1]: [url[:-1]], [url[0:]]; unreachable, [';' in url] holds *)
          (take (String.length url - 1) url, url)
      end
  end.

(** [urlparse(url, scheme)] *)
Definition urlparse_with (url scheme0 : string) : result ParseResult :=
  do r <- urlsplit url scheme0;
  let '(scheme, netloc, url, query, fragment) := r in
  let '(url, params) :=
    if mem scheme uses_params && has_char ";" url then _splitparams url
    else (url, EmptyString) in
  Ok (mkParse scheme netloc url params query fragment).

(** [urlparse(url)] *)
Definition urlparse (url : string) : result ParseResult := urlparse_with url EmptyString.

(** the [hostname] attribute of a parse result: what follows the last [@]
    of the network location, up to the port, or between brackets; in lower
    case but for the zone of a scoped address; [None], written as the empty
    string, when there is none *)
Definition hostname (p : ParseResult) : string :=
  let hostinfo := after_last_at (netloc p) in
  let '(_, have_open_br, bracketed) := partition hostinfo "[" in
  let hostname :=
    if have_open_br then let '(h, _, _) := partition bracketed "]" in h
    else let '(h, _, _) := partition hostinfo ":" in h in
  if negb (nonempty hostname) then EmptyString
  else
    let '(h, percent, zone) := partition hostname "%" in
    (lower h ++ (if percent then "%" else EmptyString) ++ zone)%string.

(** *** [urlunsplit], [urlunparse], [urljoin] *)

Definition urlunsplit (scheme netloc url query fragment : string) : string :=
  let url :=
    if nonempty netloc
       || (nonempty scheme && mem scheme uses_netloc && negb (startswith url "//"))
    then ("//" ++ netloc ++ (if nonempty url && negb (startswith url "/")
                             then "/" ++ url else url))%string
    else url in
  let url := if nonempty scheme then (scheme ++ ":" ++ url)%string else url in
  let url := if nonempty query then (url ++ "?" ++ query)%string else url in
  if nonempty fragment then (url ++ "#" ++ fragment)%string else url.

Definition urlunparse (scheme netloc url params query fragment : string) : string :=
  let url := if nonempty params then (url ++ ";" ++ params)%string else url in
  urlunsplit scheme netloc url query fragment.

(** [segments[1:-1] = filter(None, segments[1:-1])] *)
Definition filter_middle (segments : list string) : list string :=
  match segments with
  | [] => []
  | [x] => [x]
  | x :: t => x :: List.filter nonempty (List.removelast t) ++ [List.last t EmptyString]
  end.

Fixpoint resolve_dots (segments resolved_rev : list string) : list string :=
  match segments with
  | [] => List.rev resolved_rev
  | seg :: t =>
      if String.eqb seg ".." then resolve_dots t (List.tl resolved_rev)
      else if String.eqb seg "." then resolve_dots t resolved_rev
      else resolve_dots t (seg :: resolved_rev)
  end.

Definition urljoin (base url : string) : result string :=
  if negb (nonempty base) then Ok url
  else if negb (nonempty url) then Ok base
  else
    do b <- urlparse_with base EmptyString;
    do u <- urlparse_with url (scheme b);
    if negb (String.eqb (scheme u) (scheme b)) || negb (mem (scheme u) uses_relative)
    then Ok url
    else if mem (scheme u) uses_netloc && nonempty (netloc u) then
      Ok (urlunparse (scheme u) (netloc u) (path u) (params u) (query u) (fragment u))
    else
      let netloc' := if mem (scheme u) uses_netloc then netloc b else netloc u in
      if negb (nonempty (path u)) && negb (nonempty (params u)) then
        let query' := if nonempty (query u) then query u else query b in
        Ok (urlunparse (scheme u) netloc' (path b) (params b) query' (fragment u))
      else
        let base_parts0 := split_char "/" (path b) in
        let base_parts :=
          if String.eqb (List.last base_parts0 EmptyString) EmptyString then base_parts0
          else List.removelast base_parts0 in
        let segments :=
          if startswith (path u) "/" then split_char "/" (path u)
          else filter_middle (base_parts ++ split_char "/" (path u)) in
        let resolved_path := resolve_dots segments [] in
        let resolved_path :=
          if mem (List.last segments EmptyString) ["."; ".."] then resolved_path ++ [EmptyString]
          else resolved_path in
        let joined := join "/" resolved_path in
        Ok (urlunparse (scheme u) netloc'
              (if nonempty joined then joined else "/")
              (params u) (query u) (fragment u)).

End Url.

(* ------------------------------------------------------------------ *)
(** ** [difflib.SequenceMatcher(None, a, b).ratio()] *)

Module Difflib.

Section Matcher.
Variables a b : list ascii.

Definition count_in_b (c : ascii) : nat :=
  List.length (List.filter (Ascii.eqb c) b).

(** elements dropped from [b2j] by the autojunk heuristic *)
Definition popular (c : ascii) : bool :=
  (200 <=? List.length b) && (List.length b / 100 + 1 <? count_in_b c).

Definition best_t : Type := (nat * nat * nat)%type.

(** one pass of the inner loop [for j in b2j.get(a[i])]: the new row of
    [j2len] and the running best *)
Fixpoint row (blo bhi i : nat) (ai : ascii) (bs : list ascii) (j : nat)
    (j2len : list nat) (prev_jm1 : nat) (best : best_t) : list nat * best_t :=
  match bs with
  | [] => ([], best)
  | bj :: bt =>
      let pj := List.hd 0 j2len in
      let k := if Ascii.eqb ai bj && negb (popular bj) && (blo <=? j) && (j <? bhi)
               then S prev_jm1 else 0 in
      let best' := if snd best <? k then (i + 1 - k, j + 1 - k, k) else best in
      let '(r, best'') := row blo bhi i ai bt (S j) (List.tl j2len) pj best' in
      (k :: r, best'')
  end.

Fixpoint rows (alo ahi blo bhi : nat) (as_ : list ascii) (i : nat)
    (j2len : list nat) (best : best_t) : best_t :=
  match as_ with
  | [] => best
  | ai :: at_ =>
      if (alo <=? i) && (i <? ahi) then
        let '(newj2len, best') := row blo bhi i ai b 0 j2len 0 best in
        rows alo ahi blo bhi at_ (S i) newj2len best'
      else rows alo ahi blo bhi at_ (S i) j2len best
  end.

Definition nth_a (i : nat) : ascii := List.nth i a "000"%char.
Definition nth_b (j : nat) : ascii := List.nth j b "000"%char.

Fixpoint extend_left (fuel alo blo : nat) (best : best_t) : best_t :=
  match fuel with
  | O => best
  | S f =>
      let '(besti, bestj, bestsize) := best in
      if (alo <? besti) && (blo <? bestj)
         && Ascii.eqb (nth_a (besti - 1)) (nth_b (bestj - 1))
      then extend_left f alo blo (besti - 1, bestj - 1, bestsize + 1)
      else best
  end.

Fixpoint extend_right (fuel ahi bhi : nat) (best : best_t) : best_t :=
  match fuel with
  | O => best
  | S f =>
      let '(besti, bestj, bestsize) := best in
      if (besti + bestsize <? ahi) && (bestj + bestsize <? bhi)
         && Ascii.eqb (nth_a (besti + bestsize)) (nth_b (bestj + bestsize))
      then extend_right f ahi bhi (besti, bestj, bestsize + 1)
      else best
  end.

(** [find_longest_match(alo, ahi, blo, bhi)]; with [isjunk=None] the set
    [bjunk] is empty, so only the first pair of extension loops runs *)
Definition find_longest_match (alo ahi blo bhi : nat) : best_t :=
  let best := rows alo ahi blo bhi a 0 [] (alo, blo, 0) in
  let best := extend_left (List.length a) alo blo best in
  extend_right (List.length a) ahi bhi best.

(** the sum of the sizes of [get_matching_blocks()] *)
Fixpoint matches (fuel alo ahi blo bhi : nat) : nat :=
  match fuel with
  | O => 0
  | S f =>
      let '(i, j, k) := find_longest_match alo ahi blo bhi in
      if k =? 0 then 0
      else k
           + (if (alo <? i) && (blo <? j) then matches f alo i blo j else 0)
           + (if (i + k <? ahi) && (j + k <? bhi)
              then matches f (i + k) ahi (j + k) bhi else 0)
  end.

Definition total_matches : nat :=
  matches (S (List.length a)) 0 (List.length a) 0 (List.length b).

End Matcher.

(** [_calculate_ratio(matches, length)] *)
Definition _calculate_ratio (m len : nat) : Q :=
  if len =? 0 then 1%Q
  else Qmake (Z.of_nat (2 * m)) (Pos.of_nat len).

Definition ratio (a b : string) : Q :=
  let la := list_ascii_of_string a in
  let lb := list_ascii_of_string b in
  _calculate_ratio (total_matches la lb) (List.length la + List.length lb).

End Difflib.

(* ------------------------------------------------------------------ *)
(** ** Host keys and path normalisation *)

Import PyStr.

(** a Candidate: [(label, absolute_url)] *)
Abbreviation Candidate := (string * string)%type.

(** [_hostkey] *)
Definition _hostkey (host_or_url : string) : result string :=
  do p <- Url.urlparse host_or_url;
  let netloc := if nonempty (Url.netloc p) then Url.netloc p else host_or_url in
  let netloc := lower netloc in
  let netloc :=
    match Url.split_once "@" netloc with
    | Some (_, after) => after
    | None => netloc
    end in
  let '(h, sep, p) := partition netloc ":" in
  if mem p ["80"; "443"] then Ok h
  else Ok (if nonempty netloc then netloc else h).

(** [_NUM = ^\d+$] *)
Definition _NUM : Re.re := Re.seqs [Re.Bos; Re.plus is_digit; Re.Eos].

(** [_UUID], under [re.I] *)
Definition _UUID : Re.re :=
  Re.seqs [Re.Bos; Re.times 8 (Re.Chr is_hex); Re.chr "-";
           Re.times 4 (Re.Chr is_hex); Re.chr "-";
           Re.times 4 (Re.Chr is_hex); Re.chr "-";
           Re.times 4 (Re.Chr is_hex); Re.chr "-";
           Re.times 12 (Re.Chr is_hex); Re.Eos].

(** [_HEX = ^[0-9a-f]{8,}$], under [re.I] *)
Definition _HEX : Re.re := Re.seqs [Re.Bos; Re.Rep true 8 is_hex; Re.Eos].

(** [_DATE = ^\d{4}[-/]?\d{2}([-/]?\d{2})?$] *)
Definition _DATE : Re.re :=
  Re.seqs [Re.Bos; Re.times 4 (Re.Chr is_digit); Re.opt (Re.Chr (Re.one_of "-/"));
           Re.times 2 (Re.Chr is_digit);
           Re.opt (Re.Group 1 (Re.Seq (Re.opt (Re.Chr (Re.one_of "-/")))
                                      (Re.times 2 (Re.Chr is_digit))));
           Re.Eos].

(** [\.(?:jsp|do|php|aspx|html?|cgi|action)$], under [re.I] *)
Definition _EXT : Re.re :=
  Re.seqs [Re.chr ".";
           Re.alts [Re.liti "jsp"; Re.liti "do"; Re.liti "php"; Re.liti "aspx";
                    Re.Seq (Re.liti "htm") (Re.opt (Re.chri "l"));
                    Re.liti "cgi"; Re.liti "action"];
           Re.Eos].

Definition matches (r : Re.re) (s : string) : bool :=
  match Re.match_ r s with Some _ => true | None => false end.

(** [_norm_seg] *)
Definition _norm_seg (seg : string) : string :=
  let s := strip seg in
  if negb (nonempty s) then EmptyString
  else if matches _NUM s || matches _UUID s || matches _HEX s || matches _DATE s
  then "{id}"
  else Re.sub _EXT EmptyString s.

(** [_path_segs] *)
Definition _path_segs (u : string) : result (list string) :=
  do p <- Url.urlparse u;
  let path := if nonempty (Url.path p) then Url.path p else "/" in
  Ok (map _norm_seg
        (List.filter (fun x => nonempty (_norm_seg x)) (split_char "/" path))).

(* ------------------------------------------------------------------ *)
(** ** Path similarity *)

Definition is_nil {A} (l : list A) : bool :=
  match l with [] => true | _ => false end.

(** the four weighted terms of the score, on the two segment sequences *)
Definition jaccard (a_segs b_segs : list string) : Q :=
  let sa : gset string := list_to_set a_segs in
  let sb : gset string := list_to_set b_segs in
  let inter := size (sa ∩ sb) in
  let union := Nat.max 1 (size (sa ∪ sb)) in
  Qmake (Z.of_nat inter) (Pos.of_nat union).

Definition last_match (a_segs b_segs : list string) : Q :=
  if negb (is_nil a_segs) && negb (is_nil b_segs)
     && String.eqb (List.last a_segs EmptyString) (List.last b_segs EmptyString)
  then 1%Q else 0%Q.

Definition suffix (a_path b_path : string) : Q :=
  if endswith a_path b_path || endswith b_path a_path then 1%Q else 0%Q.

Definition blend (a_segs b_segs : list string) : Q :=
  let a_path := join "/" a_segs in
  let b_path := join "/" b_segs in
  let sm := Difflib.ratio a_path b_path in
  (jaccard a_segs b_segs * 40 + last_match a_segs b_segs * 20
   + suffix a_path b_path * 15 + sm * 25)%Q.

(** [path_similarity] *)
Definition path_similarity (a_url b_url : string) : result Q :=
  if negb (nonempty a_url) || negb (nonempty b_url) then Ok 0%Q
  else if String.eqb a_url b_url then Ok 100%Q
  else
    do a_segs <- _path_segs a_url;
    do b_segs <- _path_segs b_url;
    if is_nil a_segs && is_nil b_segs then Ok 0%Q
    else Ok (Qmin 100 (blend a_segs b_segs)).

(* ------------------------------------------------------------------ *)
(** ** Best match *)

(** the Candidate Pool: host key -> Candidates in discovery order *)
Abbreviation Pool := (gmap string (list Candidate)).

(** a Match Result: [(label|None, score, matched_candidate_url|None)] *)
Abbreviation MatchResult := (option string * Q * option string)%type.

(** [re.findall(r'\[([^\]]+)\]', label)] *)
Definition _BRACKETED : Re.re :=
  Re.seqs [Re.chr "["; Re.Group 1 (Re.plus (Re.none_of "]")); Re.chr "]"].

(** the last bracketed token of a path label, lower-cased *)
Definition lbl_last (label : string) : string :=
  if nonempty label then
    let m := Re.findall1 _BRACKETED label in
    lower (if is_nil m then label else List.last m EmptyString)
  else EmptyString.

(** the score of one candidate: [path_similarity] plus the label bonus *)
Definition candidate_score (url tgt_last : string) (c : Candidate) : result Q :=
  let '(label, cand_url) := c in
  do s <- path_similarity url cand_url;
  let l := lbl_last label in
  if nonempty tgt_last && nonempty l && contains l tgt_last
  then Ok (s + 5)%Q
  else Ok s.

(** [s > best_score] *)
Definition Qgtb (x y : Q) : bool := negb (Qle_bool x y).

(** the loop [for label, cand_url in candidates] *)
Fixpoint best_loop (url tgt_last : string) (candidates : list Candidate)
    (best : MatchResult) : result MatchResult :=
  match candidates with
  | [] => Ok best
  | (label, cand_url) :: rest =>
      do s <- candidate_score url tgt_last (label, cand_url);
      let '(_, best_score, _) := best in
      if Qgtb s best_score
      then best_loop url tgt_last rest (Some label, s, Some cand_url)
      else best_loop url tgt_last rest best
  end.

(** the candidate set: the entries of the URL's host, then those of the
    referer's host when it differs and is in the pool *)
Definition candidates_for (hostk : string) (pool : Pool)
    (referer_url : option string) : result (list Candidate) :=
  let candidates := default [] (pool !! hostk) in
  match referer_url with
  | Some r =>
      if nonempty r then
        do rhostk <- _hostkey r;
        match pool !! rhostk with
        | Some extra =>
            if nonempty rhostk && negb (String.eqb rhostk hostk)
            then Ok (candidates ++ extra)
            else Ok candidates
        | None => Ok candidates
        end
      else Ok candidates
  | None => Ok candidates
  end.

(** [best_menu_for_url] *)
Definition best_menu_for_url (url : string) (pool : Pool)
    (referer_url : option string) (threshold : Q) : result MatchResult :=
  if negb (nonempty url) then Ok (None, 0%Q, None)
  else
    do hostk <- _hostkey url;
    do candidates <- candidates_for hostk pool referer_url;
    if is_nil candidates then Ok (None, 0%Q, None)
    else
      do tgt_segs <- _path_segs url;
      let tgt_last := lower (List.last tgt_segs EmptyString) in
      do best <- best_loop url tgt_last candidates (None, 0%Q, None);
      let '(best_label, best_score, best_cand) := best in
      if Qle_bool threshold best_score
      then Ok (best_label, best_score, best_cand)
      else Ok (None, best_score, best_cand).

(* ------------------------------------------------------------------ *)
(** ** The interpreter environment

    The pieces of the Python runtime the miner calls and that are taken as
    given: the tokenizer of [html.parser.HTMLParser], [html.unescape], the
    codecs behind [bytes.decode] and the iteration order of a [set] of
    strings, which depends on the interpreter's string hash seed. *)

(** the handler calls [HTMLParser.feed] makes, in order; tag and attribute
    names arrive lower-cased, a valueless attribute has value [None] *)
Inductive html_event : Type :=
| StartTag (tag : string) (attrs : list (string * option string))
| EndTag (tag : string)
| Data (data : string).

Class PyEnv : Type := {
  (** the events of [parser.feed(html)], up to the point where it stops *)
  html_feed : string -> list html_event;
  (** [html.unescape] *)
  html_unescape : string -> string;
  (** [b.decode(enc, 'ignore')] *)
  bytes_decode : string -> string -> result string;
  (** the order in which [for x in set(l)] visits the elements *)
  set_order : list string -> list string
}.

(** [for x in l: out.extend(f(x))] where [f] may raise *)
Fixpoint rflat_mapM {A B} (f : A -> result (list B)) (l : list A) : result (list B) :=
  match l with
  | [] => Ok []
  | x :: t => do ys <- f x; do zs <- rflat_mapM f t; Ok (ys ++ zs)
  end.

(** Python's [a or b] on strings *)
Definition por (a b : string) : string := if nonempty a then a else b.

(** In the patterns quoted in the comments below, [Q] stands for the class
    of the two quote characters, [D] for the double and [S] for the single
    quote. *)
Definition dquote : ascii := "034"%char.
Definition squote : ascii := "039"%char.
Definition is_quote (c : ascii) : bool := Ascii.eqb c dquote || Ascii.eqb c squote.
Definition not_quote (c : ascii) : bool := negb (is_quote c).
(** [[^Q\s]] *)
Definition not_quote_space (c : ascii) : bool := negb (is_quote c) && negb (is_space c).
(** [[^\s>]] *)
Definition not_space_gt (c : ascii) : bool := negb (is_space c) && negb (Ascii.eqb c ">"%char).

Definition _TAG_STRIP : Re.re := Re.seqs [Re.chr "<"; Re.plus (Re.none_of ">"); Re.chr ">"].
Definition _WS : Re.re := Re.plus is_space.

(** [<base[^>]+href=Q([^Q]+)Q], under [re.I] *)
Definition _BASE_HREF : Re.re :=
  Re.seqs [Re.liti "<base"; Re.plus (Re.none_of ">"); Re.liti "href=";
           Re.Chr is_quote; Re.Group 1 (Re.plus not_quote); Re.Chr is_quote].

(** [name\s*=\s*(D.*?D|S.*?S|[^\s>]+)], under [re.I | re.S] *)
Definition _attr_re (name : string) : Re.re :=
  Re.seqs [Re.liti name; Re.star is_space; Re.chr "="; Re.star is_space;
           Re.Group 1 (Re.alts
             [Re.seqs [Re.chr dquote; Re.star_lazy Re.any; Re.chr dquote];
              Re.seqs [Re.chr squote; Re.star_lazy Re.any; Re.chr squote];
              Re.plus not_space_gt])].

Definition last_char (s : string) : option ascii :=
  match rev s with String c _ => Some c | EmptyString => None end.

(** [_attr_get] *)
Definition _attr_get (attr_html name : string) : string :=
  match Re.search (_attr_re name) attr_html with
  | None => EmptyString
  | Some m =>
      let v := Re.group_or_empty m 1 in
      let v :=
        match v with
        | String c _ =>
            if is_quote c
               && match last_char v with Some d => Ascii.eqb d c | None => false end
            then slice 1 (String.length v - 1) v
            else v
        | EmptyString => v
        end in
      strip v
  end.

(** the base of resolution: the first [<base href>] of the document when
    there is one, else the URL of the page *)
Definition document_base (html current_url : string) : string :=
  match Re.search _BASE_HREF html with
  | Some m => strip (Re.group_or_empty m 1)
  | None => current_url
  end.

(** [_resolve_candidate_url] *)
Definition _resolve_candidate_url (candidate current_url html : string) : result string :=
  if negb (nonempty candidate) then Ok EmptyString
  else if startswith candidate "javascript:" || startswith candidate "#" then Ok EmptyString
  else Url.urljoin (document_base html current_url) candidate.

(** [<a\b([^>]+)>(.*?)</a>], under [re.I | re.S] *)
Definition _ANCHOR : Re.re :=
  Re.seqs [Re.liti "<a"; Re.WordB; Re.Group 1 (Re.plus (Re.none_of ">")); Re.chr ">";
           Re.Group 2 (Re.star_lazy Re.any); Re.liti "</a>"].

(** [_URLVAL], under [re.I] *)
Definition _URLVAL : Re.re :=
  Re.alts
    [Re.seqs [Re.opt (Re.seqs [Re.liti "http"; Re.opt (Re.chri "s"); Re.chr ":"]);
              Re.lit "//"; Re.plus not_quote_space];
     Re.seqs [Re.chr "/"; Re.plus not_quote_space];
     Re.seqs [Re.lit "./"; Re.plus not_quote_space];
     Re.seqs [Re.lit "../"; Re.plus not_quote_space];
     Re.seqs [Re.chr "?"; Re.plus not_quote_space]].

(** the common head [onclick\s*=\s*Q[^Q]*?\b] of [ONCLICK_PATS] and the
    common tail [\s*(=|\()\s*Q(_URLVAL)Q[^Q]*?Q] *)
Definition onclick_pat (callee : Re.re) (opener : Re.re) : Re.re :=
  Re.seqs [Re.liti "onclick"; Re.star is_space; Re.chr "="; Re.star is_space;
           Re.Chr is_quote; Re.star_lazy not_quote; Re.WordB; callee;
           Re.star is_space; opener; Re.star is_space;
           Re.Chr is_quote; Re.Group 1 _URLVAL; Re.Chr is_quote;
           Re.star_lazy not_quote; Re.Chr is_quote].

Definition ONCLICK_PATS : list Re.re :=
  [onclick_pat
     (Re.Seq (Re.liti "location.")
             (Re.alts [Re.liti "href"; Re.liti "assign"; Re.liti "replace"]))
     (Re.chr "=");
   onclick_pat (Re.liti "window.open") (Re.chr "(");
   onclick_pat (Re.alts [Re.liti "router.push"; Re.liti "navigate"; Re.liti "go"])
     (Re.chr "(")].

(** [<([a-z0-9]+)[^>]*>(.*?)</\1>], under [re.I | re.S] *)
Definition _TAG_PAIR : Re.re :=
  Re.seqs [Re.chr "<"; Re.Group 1 (Re.plus is_alnum); Re.star (Re.none_of ">");
           Re.chr ">"; Re.Group 2 (Re.star_lazy Re.any); Re.lit "</";
           Re.Backref true 1; Re.chr ">"].

(** [data-(?:url|route|href)\s*=\s*Q(_URLVAL)Q], under [re.I] *)
Definition _DATA_URL : Re.re :=
  Re.seqs [Re.liti "data-"; Re.alts [Re.liti "url"; Re.liti "route"; Re.liti "href"];
           Re.star is_space; Re.chr "="; Re.star is_space;
           Re.Chr is_quote; Re.Group 1 _URLVAL; Re.Chr is_quote].

(** [<form[^>]+action=Q(_URLVAL)Q[^>]*>(.*?)</form>], under [re.I | re.S] *)
Definition _FORM : Re.re :=
  Re.seqs [Re.liti "<form"; Re.plus (Re.none_of ">"); Re.liti "action=";
           Re.Chr is_quote; Re.Group 1 _URLVAL; Re.Chr is_quote;
           Re.star (Re.none_of ">"); Re.chr ">";
           Re.Group 2 (Re.star_lazy Re.any); Re.liti "</form>"].

(** [formaction=Q(_URLVAL)Q], under [re.I] *)
Definition _FORMACTION : Re.re :=
  Re.seqs [Re.liti "formaction="; Re.Chr is_quote; Re.Group 1 _URLVAL; Re.Chr is_quote].

(** [<button[^>]*>(.*?)</button>], under [re.I | re.S] *)
Definition _BUTTON : Re.re :=
  Re.seqs [Re.liti "<button"; Re.star (Re.none_of ">"); Re.chr ">";
           Re.Group 1 (Re.star_lazy Re.any); Re.liti "</button>"].

(** [<select[^>]+onchange=Q[^Q]*location\.href\s*=\s*this\.value[^Q]*Q],
    under [re.I] *)
Definition _SELECT_ONCHANGE : Re.re :=
  Re.seqs [Re.liti "<select"; Re.plus (Re.none_of ">"); Re.liti "onchange=";
           Re.Chr is_quote; Re.star not_quote; Re.liti "location.href";
           Re.star is_space; Re.chr "="; Re.star is_space; Re.liti "this.value";
           Re.star not_quote; Re.Chr is_quote].

(** [<select[^>]*>(.*?)</select>], under [re.I | re.S] *)
Definition _SELECT_BLOCK : Re.re :=
  Re.seqs [Re.liti "<select"; Re.star (Re.none_of ">"); Re.chr ">";
           Re.Group 1 (Re.star_lazy Re.any); Re.liti "</select>"].

(** [<option[^>]+value=Q(_URLVAL)Q[^>]*>(.*?)</option>], under [re.I | re.S] *)
Definition _OPTION : Re.re :=
  Re.seqs [Re.liti "<option"; Re.plus (Re.none_of ">"); Re.liti "value=";
           Re.Chr is_quote; Re.Group 1 _URLVAL; Re.Chr is_quote;
           Re.star (Re.none_of ">"); Re.chr ">";
           Re.Group 2 (Re.star_lazy Re.any); Re.liti "</option>"].

(** [[A-Za-z_$]] and [[\w$]] *)
Definition ident_start (c : ascii) : bool :=
  is_alpha c || Ascii.eqb c "_"%char || Ascii.eqb c "$"%char.
Definition ident_char (c : ascii) : bool := is_word c || Ascii.eqb c "$"%char.

(** [_ONCLICK_FUNC_CALL], under [re.I] *)
Definition _ONCLICK_FUNC_CALL : Re.re :=
  Re.seqs [Re.liti "onclick"; Re.star is_space; Re.chr "="; Re.star is_space;
           Re.Chr is_quote; Re.star is_space;
           Re.Group 1 (Re.Seq (Re.Chr ident_start) (Re.star ident_char));
           Re.star is_space; Re.chr "("; Re.star_lazy not_quote; Re.chr ")";
           Re.star is_space; Re.Chr is_quote].

(** [_SCRIPT_BLOCKS], under [re.I | re.S] *)
Definition _SCRIPT_BLOCKS : Re.re :=
  Re.seqs [Re.liti "<script"; Re.WordB; Re.star (Re.none_of ">"); Re.chr ">";
           Re.Group 1 (Re.star_lazy Re.any); Re.liti "</script>"].

(** the three function-definition patterns of [_find_function_body]; the
    name goes through [re.escape], so it is a literal (under [re.I]) *)
Definition fn_params_body : list Re.re :=
  [Re.chr "("; Re.star (Re.none_of ")"); Re.chr ")"].

Definition pat1 (name : string) : Re.re :=
  Re.seqs ([Re.liti "function"; Re.plus is_space; Re.liti name; Re.star is_space]
           ++ fn_params_body
           ++ [Re.star is_space; Re.chr "{"; Re.Group 1 (Re.star_lazy Re.any); Re.chr "}"]).

Definition pat2 (name : string) : Re.re :=
  Re.seqs ([Re.liti name; Re.star is_space; Re.chr "="; Re.star is_space;
            Re.liti "function"; Re.star is_space]
           ++ fn_params_body
           ++ [Re.star is_space; Re.chr "{"; Re.Group 1 (Re.star_lazy Re.any); Re.chr "}"]).

Definition pat3 (name : string) : Re.re :=
  Re.seqs ([Re.alts [Re.liti "const"; Re.liti "let"; Re.liti "var"]; Re.plus is_space;
            Re.liti name; Re.star is_space; Re.chr "="; Re.star is_space]
           ++ fn_params_body
           ++ [Re.star is_space; Re.lit "=>"; Re.star is_space; Re.chr "{";
               Re.Group 1 (Re.star_lazy Re.any); Re.chr "}"]).

(** the four navigation patterns of [_extract_url_from_js_body] *)
Definition quoted_url : list Re.re :=
  [Re.Chr is_quote; Re.Group 1 (Re.plus not_quote); Re.Chr is_quote].

Definition JS_NAV_PATS : list Re.re :=
  [Re.seqs ([Re.liti "location.";
             Re.alts [Re.liti "href"; Re.liti "assign"; Re.liti "replace"];
             Re.star is_space; Re.chr "="; Re.star is_space] ++ quoted_url);
   Re.seqs ([Re.liti "document.location"; Re.star is_space; Re.chr "=";
             Re.star is_space] ++ quoted_url);
   Re.seqs ([Re.liti "window.open"; Re.star is_space; Re.chr "("; Re.star is_space]
            ++ quoted_url);
   Re.seqs ([Re.liti ".action"; Re.star is_space; Re.chr "="; Re.star is_space]
            ++ quoted_url
            ++ [Re.star is_space; Re.chr ";"; Re.star_lazy (Re.none_of ";");
                Re.liti ".submit"; Re.star is_space; Re.chr "("])].

(** a function name spliced unescaped into [\b{name}\s*\(]: [$] is the
    end-of-string anchor there *)
Fixpoint name_pattern (name : string) : Re.re :=
  match name with
  | EmptyString => Re.Eps
  | String c t =>
      Re.Seq (if Ascii.eqb c "$"%char then Re.Eos else Re.chr c) (name_pattern t)
  end.

Definition name_call_re (name : string) : Re.re :=
  Re.seqs [Re.WordB; name_pattern name; Re.star is_space; Re.chr "("].

Definition searches (r : Re.re) (s : string) : bool :=
  match Re.search r s with Some _ => true | None => false end.

(* ------------------------------------------------------------------ *)
(** ** The HTML candidate miner *)

(** a node of the menu tree: label, href, children *)
#[warnings="-register-all"]
Inductive _MenuNode : Type :=
| MenuNode (label href : option string) (children : list _MenuNode).

Definition node_label (n : _MenuNode) : option string :=
  match n with MenuNode l _ _ => l end.
Definition node_href (n : _MenuNode) : option string :=
  match n with MenuNode _ h _ => h end.
Definition node_children (n : _MenuNode) : list _MenuNode :=
  match n with MenuNode _ _ c => c end.

(** The state of [_MenuTreeParser].  [stack] holds the open nodes, innermost
    first; the source appends a node to its parent's [children] when it is
    opened and mutates it through [stack[-1]] afterwards, so here an open
    node is attached as the last child of its parent when it leaves the
    stack, or at the end of the parse ([close_all]). *)
Record _MenuTreeParser : Type := mkParser {
  stack : list _MenuNode;
  root : _MenuNode;
  nav_depth : nat;
  menu_ul_depth : nat;
  in_a : bool;
  a_text_buf : list string;
  a_href : string
}.

Definition _MENU_HINTS : list string :=
  ["menu"; "nav"; "gnb"; "lnb"; "snb"; "submenu"; "depth"; "dropdown"; "tab";
   "category"; "side"; "global"; "primary"; "secondary"].
Definition _BREAD_HINTS : list string :=
  ["breadcrumb"; "breadcrumbs"; "bread"; "path"; "location"; "loc"].

(** [_attrs_to_dict(attrs).get(name, '')]: the last pair with that name wins,
    a [None] value reads as the empty string *)
Fixpoint attrs_get (attrs : list (string * option string)) (name : string) : string :=
  match attrs with
  | [] => EmptyString
  | (k, v) :: t =>
      if existsb (fun kv => String.eqb (fst kv) name) t then attrs_get t name
      else if String.eqb k name then default EmptyString v
      else EmptyString
  end.

Definition _is_menu_ul (attrs : list (string * option string)) : bool :=
  let klass := lower (attrs_get attrs "class") in
  let idv := lower (attrs_get attrs "id") in
  let hay := (" " ++ klass ++ " " ++ idv ++ " ")%string in
  existsb (contains hay) _MENU_HINTS || existsb (contains hay) _BREAD_HINTS.

Definition in_scope (p : _MenuTreeParser) : bool :=
  (0 <? nav_depth p) || (0 <? menu_ul_depth p).

Definition add_child (parent child : _MenuNode) : _MenuNode :=
  match parent with
  | MenuNode l h cs => MenuNode l h (cs ++ [child])
  end.

(** truthiness of an optional string: [None] and the empty string are false *)
Definition truthy (o : option string) : bool :=
  match o with Some s => nonempty s | None => false end.

Definition set_label_href (cur : _MenuNode) (label a_href : string) : _MenuNode :=
  match cur with
  | MenuNode l h cs =>
      MenuNode (if truthy l then l else Some label)
               (if negb (truthy h) && nonempty a_href then Some a_href else h)
               cs
  end.

(** apply [f] to [stack[-1]], which is the root when no [li] is open *)
Definition update_top (f : _MenuNode -> _MenuNode) (p : _MenuTreeParser)
    : _MenuTreeParser :=
  match stack p with
  | cur :: rest =>
      mkParser (f cur :: rest) (root p) (nav_depth p) (menu_ul_depth p)
               (in_a p) (a_text_buf p) (a_href p)
  | [] =>
      mkParser [] (f (root p)) (nav_depth p) (menu_ul_depth p)
               (in_a p) (a_text_buf p) (a_href p)
  end.

(** [self.stack.pop()], guarded by [len(self.stack) > 1] *)
Definition pop_node (p : _MenuTreeParser) : _MenuTreeParser :=
  match stack p with
  | cur :: rest =>
      update_top (fun parent => add_child parent cur)
        (mkParser rest (root p) (nav_depth p) (menu_ul_depth p)
                  (in_a p) (a_text_buf p) (a_href p))
  | [] => p
  end.

Section Miner.
Context `{PyEnv}.

(** [_clean_text] *)
Definition _clean_text (html : string) : string :=
  html_unescape (strip (Re.sub _WS " " (Re.sub _TAG_STRIP EmptyString html))).

(** the label of an anchor: inner text, else [title], else [aria-label] *)
Definition anchor_label (attrs inner : string) : string :=
  por (_clean_text inner) (por (_attr_get attrs "title") (_attr_get attrs "aria-label")).

(** [_extract_anchor_candidates] *)
Definition _extract_anchor_candidates (html current_url : string)
    : result (list Candidate) :=
  rflat_mapM
    (fun m =>
       let attrs := Re.group_or_empty m 1 in
       let inner := Re.group_or_empty m 2 in
       let href := _attr_get attrs "href" in
       let label := anchor_label attrs inner in
       if nonempty href && nonempty label then
         do url <- _resolve_candidate_url href current_url html;
         Ok (if nonempty url then [(strip label, url)] else [])
       else Ok [])
    (Re.finditer _ANCHOR html).

(** [_find_function_body] *)
Definition search_pats (pats : list Re.re) (s : string) : option string :=
  List.fold_right
    (fun pat later =>
       match Re.search pat s with
       | Some mm => Some (Re.group_or_empty mm 1)
       | None => later
       end)
    None pats.

Definition _find_function_body (html name : string) : string :=
  if negb (nonempty html) || negb (nonempty name) then EmptyString
  else
    List.fold_right
      (fun m later =>
         let blk := Re.group_or_empty m 1 in
         match search_pats [pat1 name; pat2 name; pat3 name] blk with
         | Some body => body
         | None => later
         end)
      EmptyString (Re.finditer _SCRIPT_BLOCKS html).

(** [_extract_url_from_js_body] *)
Definition _extract_url_from_js_body (body : string) : string :=
  if negb (nonempty body) then EmptyString
  else default EmptyString (search_pats JS_NAV_PATS body).

(** [fn_url]: the functions whose body holds a URL, in the iteration order
    of the set of names *)
Definition fn_url_of (html current_url : string) (func_names : list string)
    : result (list (string * string)) :=
  rflat_mapM
    (fun name =>
       let body := _find_function_body html name in
       let url := _extract_url_from_js_body body in
       if nonempty url then
         do a <- _resolve_candidate_url url current_url html; Ok [(name, a)]
       else Ok [])
    func_names.

(** the candidates one anchor contributes, per entry of [fn_url] *)
Definition onclick_anchor_candidates (fn_url : list (string * string))
    (m : Re.mtch) : list Candidate :=
  let attrs := Re.group_or_empty m 1 in
  let inner := Re.group_or_empty m 2 in
  let onclick := _attr_get attrs "onclick" in
  if negb (nonempty onclick) then []
  else
    List.flat_map
      (fun '(name, absurl) =>
         if negb (nonempty absurl) then []
         else if searches (name_call_re name) onclick then
           let label := anchor_label attrs inner in
           if nonempty label then [(strip label, absurl)] else []
         else [])
      fn_url.

(** [_extract_onclick_function_candidates] *)
Definition _extract_onclick_function_candidates (html current_url : string)
    : result (list Candidate) :=
  if negb (nonempty html) then Ok []
  else
    let found := Re.findall1 _ONCLICK_FUNC_CALL html in
    if is_nil found then Ok []
    else
      let func_names := set_order found in
      do fn_url <- fn_url_of html current_url func_names;
      if is_nil fn_url then Ok []
      else Ok (List.flat_map (onclick_anchor_candidates fn_url)
                 (Re.finditer _ANCHOR html)).

(** label taken from the first element found in a window around a match *)
Definition window_label (html : string) (m : Re.mtch) (width : nat)
    (tag_re : Re.re) (grp : nat) : string :=
  let snippet := slice (Re.m_start m - width) (Re.m_end m + width) html in
  match Re.search tag_re snippet with
  | Some tag => take 80 (_clean_text (Re.group_or_empty tag grp))
  | None => EmptyString
  end.

Definition emit (label : string) (url : string) : list Candidate :=
  if nonempty url && nonempty label then [(label, url)] else [].

(** the five pattern scans of [_extract_non_a_candidates]: inline [onclick]
    navigation, [data-url] attributes, forms, [formaction] buttons and
    [select] menus *)
Definition non_a_pattern_candidates (html current_url : string)
    : result (list Candidate) :=
  do onclicks <-
    rflat_mapM
      (fun pat =>
         rflat_mapM
           (fun m =>
              let label := window_label html m 200 _TAG_PAIR 2 in
              do url <- _resolve_candidate_url (Re.group_or_empty m 1) current_url html;
              Ok (emit label url))
           (Re.finditer pat html))
      ONCLICK_PATS;
  do data_urls <-
    rflat_mapM
      (fun m =>
         let label := window_label html m 150 _TAG_PAIR 2 in
         do url <- _resolve_candidate_url (Re.group_or_empty m 1) current_url html;
         Ok (emit label url))
      (Re.finditer _DATA_URL html);
  do forms <-
    rflat_mapM
      (fun m =>
         let label := take 80 (_clean_text (Re.group_or_empty m 2)) in
         do url <- _resolve_candidate_url (Re.group_or_empty m 1) current_url html;
         Ok (emit label url))
      (Re.finditer _FORM html);
  do formactions <-
    rflat_mapM
      (fun m =>
         let label := window_label html m 150 _BUTTON 1 in
         do url <- _resolve_candidate_url (Re.group_or_empty m 1) current_url html;
         Ok (emit label url))
      (Re.finditer _FORMACTION html);
  do selects <-
    rflat_mapM
      (fun m =>
         match Re.search _SELECT_BLOCK (drop (Re.m_start m) html) with
         | Some block =>
             rflat_mapM
               (fun opt =>
                  let label := take 80 (_clean_text (Re.group_or_empty opt 2)) in
                  do url <- _resolve_candidate_url (Re.group_or_empty opt 1)
                              current_url html;
                  Ok (emit label url))
               (Re.finditer _OPTION (Re.group_or_empty block 1))
         | None => Ok []
         end)
      (Re.finditer _SELECT_ONCHANGE html);
  Ok (onclicks ++ data_urls ++ forms ++ formactions ++ selects).

(** [_extract_non_a_candidates]: the pattern scans, then
    [out.extend(_extract_onclick_function_candidates(html, current_url))] *)
Definition _extract_non_a_candidates (html current_url : string)
    : result (list Candidate) :=
  do out <- non_a_pattern_candidates html current_url;
  do fn <- _extract_onclick_function_candidates html current_url;
  Ok (out ++ fn).

(** *** The menu tree *)

Definition parser_init : _MenuTreeParser :=
  mkParser [] (MenuNode None None []) 0 0 false [] EmptyString.

Definition handle_starttag (p : _MenuTreeParser) (tag : string)
    (attrs : list (string * option string)) : _MenuTreeParser :=
  if String.eqb tag "nav" then
    mkParser (stack p) (root p) (S (nav_depth p)) (menu_ul_depth p)
             (in_a p) (a_text_buf p) (a_href p)
  else if mem tag ["ul"; "ol"] then
    if _is_menu_ul attrs then
      mkParser (stack p) (root p) (nav_depth p) (S (menu_ul_depth p))
               (in_a p) (a_text_buf p) (a_href p)
    else p
  else if String.eqb tag "li" then
    if in_scope p then
      mkParser (MenuNode None None [] :: stack p) (root p) (nav_depth p)
               (menu_ul_depth p) (in_a p) (a_text_buf p) (a_href p)
    else p
  else if String.eqb tag "a" then
    if in_scope p then
      mkParser (stack p) (root p) (nav_depth p) (menu_ul_depth p)
               true [] (attrs_get attrs "href")
    else p
  else p.

Definition handle_data (p : _MenuTreeParser) (data : string) : _MenuTreeParser :=
  if in_a p && in_scope p then
    mkParser (stack p) (root p) (nav_depth p) (menu_ul_depth p)
             (in_a p) (a_text_buf p ++ [data]) (a_href p)
  else p.

Definition handle_endtag (p : _MenuTreeParser) (tag : string) : _MenuTreeParser :=
  if String.eqb tag "a" then
    let p1 :=
      if in_a p && in_scope p then
        let label := _clean_text (String.concat EmptyString (a_text_buf p)) in
        if nonempty label
        then update_top (fun cur => set_label_href cur label (a_href p)) p
        else p
      else p in
    mkParser (stack p1) (root p1) (nav_depth p1) (menu_ul_depth p1)
             false [] EmptyString
  else if String.eqb tag "li" then
    if negb (is_nil (stack p)) && in_scope p then pop_node p else p
  else if mem tag ["ul"; "ol"] then
    if 0 <? menu_ul_depth p then
      mkParser (stack p) (root p) (nav_depth p) (menu_ul_depth p - 1)
               (in_a p) (a_text_buf p) (a_href p)
    else p
  else if String.eqb tag "nav" then
    if 0 <? nav_depth p then
      mkParser (stack p) (root p) (nav_depth p - 1) (menu_ul_depth p)
               (in_a p) (a_text_buf p) (a_href p)
    else p
  else p.

Definition handle (p : _MenuTreeParser) (e : html_event) : _MenuTreeParser :=
  match e with
  | StartTag tag attrs => handle_starttag p tag attrs
  | EndTag tag => handle_endtag p tag
  | Data d => handle_data p d
  end.

(** the tree under [parser.root] once the nodes still open are attached *)
Fixpoint close_all (fuel : nat) (p : _MenuTreeParser) : _MenuNode :=
  match fuel with
  | O => root p
  | S f => match stack p with
           | [] => root p
           | _ :: _ => close_all f (pop_node p)
           end
  end.

Definition parse_menu_tree (html : string) : _MenuNode :=
  let p := List.fold_left handle (html_feed html) parser_init in
  close_all (List.length (stack p)) p.

Definition bracketed (x : string) : string := ("[" ++ x ++ "]")%string.

(** what [walk] records for a node: its own label, its path label and its
    absolute URL *)
Abbreviation tree_entry := (string * string * string)%type.

(** [walk] of [_flatten_menu_tree], depth first *)
Fixpoint walk (current_url html : string) (node : _MenuNode)
    (path_labels : list string) {struct node} : result (list tree_entry) :=
  match node with
  | MenuNode label href children =>
      let my_label := strip (default EmptyString label) in
      let my_href := strip (default EmptyString href) in
      let new_path := path_labels ++ (if nonempty my_label then [my_label] else []) in
      do own <-
        (if nonempty my_label && nonempty my_href then
           do absurl <- _resolve_candidate_url my_href current_url html;
           if nonempty absurl
           then Ok [(my_label, join " > " (map bracketed new_path), absurl)]
           else Ok []
         else Ok []);
      do below <- rflat_mapM (fun ch => walk current_url html ch new_path) children;
      Ok (own ++ below)
  end.

(** [leaf_map[key]]: the entry written last wins *)
Fixpoint leaf_map_get (entries : list tree_entry) (key : Candidate) : option string :=
  match entries with
  | [] => None
  | (my_label, path_label, absurl) :: t =>
      match leaf_map_get t key with
      | Some v => Some v
      | None =>
          if String.eqb my_label (fst key) && String.eqb absurl (snd key)
          then Some path_label else None
      end
  end.

(** [_flatten_menu_tree]: the entries of the children of the root *)
Definition _flatten_menu_tree (root : _MenuNode) (current_url html : string)
    : result (list tree_entry) :=
  rflat_mapM (fun ch => walk current_url html ch []) (node_children root).

(** [extract_menu_tree_candidates] *)
Definition extract_menu_tree_candidates (html current_url : string)
    : result (list tree_entry) :=
  _flatten_menu_tree (parse_menu_tree html) current_url html.

Definition tree_cands (entries : list tree_entry) : list Candidate :=
  map (fun '(_, path_label, absurl) => (path_label, absurl)) entries.

Definition _apply_pathlabel (entries : list tree_entry) (items : list Candidate)
    : list Candidate :=
  map (fun '(label, u) =>
         match leaf_map_get entries (label, u) with
         | Some path_label => (path_label, u)
         | None => (label, u)
         end) items.

Definition cand_eqb (x y : Candidate) : bool :=
  String.eqb (fst x) (fst y) && String.eqb (snd x) (snd y).

(** the loop [if k not in seen: seen.add(k); out.append(k)] *)
Fixpoint dedup_loop (c seen : list Candidate) : list Candidate :=
  match c with
  | [] => []
  | k :: t =>
      if existsb (cand_eqb k) seen then dedup_loop t seen
      else k :: dedup_loop t (k :: seen)
  end.

Definition dedup_candidates (c : list Candidate) : list Candidate := dedup_loop c [].

(** [extract_menu_candidates_from_html] *)
Definition extract_menu_candidates_from_html (html current_url : string)
    : result (list Candidate) :=
  do entries <- extract_menu_tree_candidates html current_url;
  do anchors <- _extract_anchor_candidates html current_url;
  do non_a <- _extract_non_a_candidates html current_url;
  let c := tree_cands entries
           ++ _apply_pathlabel entries anchors
           ++ _apply_pathlabel entries non_a in
  Ok (dedup_candidates c).

End Miner.

(* ------------------------------------------------------------------ *)
(** ** The candidate pool builder *)

(** what the builder uses of a [zipfile.ZipFile]: [namelist()] and [read(name)] *)
Record ZipFile : Type := mkZip {
  namelist : list string;
  read : string -> result string
}.

Abbreviation Headers := (gmap string string).

(** [headers.get(a) or headers.get(b) or ''] *)
Definition header2 (headers : Headers) (a b : string) : string :=
  por (default EmptyString (headers !! a)) (default EmptyString (headers !! b)).

(** line boundaries of [str.splitlines] on ASCII: LF VT FF CR FS GS RS *)
Definition is_linebreak (c : ascii) : bool :=
  ((10 <=? code c) && (code c <=? 13)) || ((28 <=? code c) && (code c <=? 30)).

(** [s.splitlines()]; CR LF counts as one boundary, and a final boundary
    does not open a last empty line *)
Fixpoint splitlines_aux (s cur_rev : string) (after_cr : bool) : list string :=
  match s with
  | EmptyString => if nonempty cur_rev then [rev cur_rev] else []
  | String c t =>
      if after_cr && Ascii.eqb c "010"%char then splitlines_aux t cur_rev false
      else if is_linebreak c
      then rev cur_rev :: splitlines_aux t EmptyString (Ascii.eqb c "013"%char)
      else splitlines_aux t (String c cur_rev) false
  end.

Definition splitlines (s : string) : list string := splitlines_aux s EmptyString false.

(** [s.split()]: the maximal runs of non-whitespace *)
Fixpoint split_ws_aux (s cur_rev : string) : list string :=
  match s with
  | EmptyString => if nonempty cur_rev then [rev cur_rev] else []
  | String c t =>
      if is_space c
      then (if nonempty cur_rev then [rev cur_rev] else []) ++ split_ws_aux t EmptyString
      else split_ws_aux t (String c cur_rev)
  end.

Definition split_ws (s : string) : list string := split_ws_aux s EmptyString.

Definition CRLFCRLF : string :=
  String "013" (String "010" (String "013" (String "010" EmptyString))).
Definition LFLF : string := String "010" (String "010" EmptyString).

(** [data.partition(b'\r\n\r\n')], then [data.partition(b'\n\n')] when the
    first separator is absent *)
Definition split_head_body (data : string) : string * string :=
  let '(head, sep, body) := partition data CRLFCRLF in
  if sep then (head, body)
  else let '(head, _, body) := partition data LFLF in (head, body).

(** [charset\s*=\s*([A-Za-z0-9._-]+)], under [re.I] *)
Definition _CHARSET : Re.re :=
  Re.seqs [Re.liti "charset"; Re.star is_space; Re.chr "="; Re.star is_space;
           Re.Group 1 (Re.plus (fun c => is_alnum c || Re.one_of "._-" c))].

(** [raw/(\d+)_s\.txt$] *)
Definition _RAW_S : Re.re :=
  Re.seqs [Re.lit "raw/"; Re.Group 1 (Re.plus is_digit); Re.lit "_s.txt"; Re.Eos].

Fixpoint decimal_N (s : string) (acc : N) : N :=
  match s with
  | EmptyString => acc
  | String c t => decimal_N t (10 * acc + N.of_nat (code c - 48))%N
  end.

(** [int(mnum)] for a string of digits; longer than 4300 digits it raises *)
Definition int_of_digits (mnum : string) : result N :=
  if 4300 <? String.length mnum then Raise ValueError
  else Ok (decimal_N mnum 0%N).

Fixpoint zeros (n : nat) : string :=
  match n with O => EmptyString | S m => String "0" (zeros m) end.

(** [f'{n:04d}'] *)
Definition format_04d (n : N) : string :=
  let d := NilEmpty.string_of_uint (N.to_uint n) in
  let d := if nonempty d then d else "0" in
  (zeros (4 - String.length d) ++ d)%string.

Definition _content_type_is_html (headers : Headers) : bool :=
  let ctype := lower (header2 headers "Content-Type" "content-type") in
  contains ctype "text/html" || contains ctype "application/xhtml+xml".

Section PoolBuilder.
Context `{PyEnv}.

(** [_decode_bytes] *)
Definition _decode_bytes (b : string) : result string :=
  try_except (bytes_decode "utf-8" b)
    (fun _ => try_except (bytes_decode "cp949" b)
                (fun _ => bytes_decode "latin-1" b)).

(** [_decode_body] *)
Definition _decode_body (body : string) (headers : Headers) : result string :=
  let ctype := header2 headers "Content-Type" "content-type" in
  match Re.search _CHARSET ctype with
  | Some m =>
      let enc := lower (Re.group_or_empty m 1) in
      try_except (bytes_decode enc body) (fun _ => _decode_bytes body)
  | None => _decode_bytes body
  end.

(** the loop over header lines: [k, v = ln.split(':', 1)] *)
Definition add_header (headers : Headers) (ln : string) : Headers :=
  match Url.split_once ":" ln with
  | Some (k, v) => <[strip k := strip v]> headers
  | None => headers
  end.

(** the header lines of a request stop at the first blank line *)
Fixpoint request_headers (lines : list string) (headers : Headers) : Headers :=
  match lines with
  | [] => headers
  | ln :: t =>
      if negb (nonempty (strip ln)) then headers
      else request_headers t (add_header headers ln)
  end.

(** [_parse_request_bytes] *)
Definition _parse_request_bytes (data : string)
    : result (string * string * Headers * string) :=
  let '(head, body) := split_head_body data in
  do text <- _decode_bytes head;
  let lines := splitlines text in
  let '(method, target) :=
    match lines with
    | first :: _ =>
        match split_ws first with
        | m :: t :: _ => (m, t)
        | _ => (EmptyString, EmptyString)
        end
    | [] => (EmptyString, EmptyString)
    end in
  Ok (method, target, request_headers (List.tl lines) ∅, body).

(** [_parse_response_bytes] *)
Definition _parse_response_bytes (data : string) : result (Headers * string) :=
  let '(head, body) := split_head_body data in
  do text <- _decode_bytes head;
  Ok (List.fold_left add_header (splitlines text) ∅, body).

(** [pool.setdefault(key, []); pool[key].extend(cands)] *)
Definition pool_extend (pool : Pool) (key : string) (cands : list Candidate) : Pool :=
  <[key := default [] (pool !! key) ++ cands]> pool.

(** The body of the [try] block for one [raw/N_s.txt] entry, up to the two
    statements that write the pool: the key and the Candidates to add, or
    [None] where the source says [continue]. *)
Definition exchange_candidates (zf : ZipFile) (sname : string)
    : result (option (string * list Candidate)) :=
  do raw <- read zf sname;
  do resp <- _parse_response_bytes raw;
  let '(resp_headers, resp_body) := resp in
  if negb (_content_type_is_html resp_headers) then Ok None
  else
    match Re.search _RAW_S sname with
    | None => Ok None
    | Some m =>
        let mnum := Re.group_or_empty m 1 in
        do reqn <-
          (let reqn := ("raw/" ++ mnum ++ "_c.txt")%string in
           if mem reqn (namelist zf) then Ok (Some reqn)
           else
             do n <- int_of_digits mnum;
             let reqn2 := ("raw/" ++ format_04d n ++ "_c.txt")%string in
             if mem reqn2 (namelist zf) then Ok (Some reqn2) else Ok None);
        match reqn with
        | None => Ok None
        | Some reqn =>
            do rawc <- read zf reqn;
            do req <- _parse_request_bytes rawc;
            let '(_, target, headers, _) := req in
            let host := header2 headers "Host" "host" in
            if negb (nonempty host) then Ok None
            else
              let ref := por (header2 headers "Referer" "referer")
                             (header2 headers "Origin" "origin") in
              do scheme <-
                (if startswith ref "http"
                 then do p <- Url.urlparse ref; Ok (Url.scheme p)
                 else Ok "https");
              let current_url :=
                if startswith target "http" then target
                else (scheme ++ "://" ++ host ++ target)%string in
              do html <- _decode_body resp_body resp_headers;
              do cands <- extract_menu_candidates_from_html html current_url;
              if is_nil cands then Ok None
              else
                do key <- _hostkey current_url;
                Ok (Some (key, cands))
        end
    end.

(** The whole [try] block: the pool is written only by its last two
    statements, [pool.setdefault(key, [])] and [pool[key].extend(cands)],
    which do not raise, so an exception leaves the pool as it was. *)
Definition exchange_body (zf : ZipFile) (sname : string) (pool : Pool) : result Pool :=
  do r <- exchange_candidates zf sname;
  match r with
  | Some (key, cands) => Ok (pool_extend pool key cands)
  | None => Ok pool
  end.

(** the [finally] clause: the progress callback, which may itself raise *)
Definition progress_tick (progress : option (nat -> nat -> result unit))
    (progress_every : Z) (i total : nat) : result unit :=
  match progress with
  | None => Ok tt
  | Some cb =>
      if i =? 1 then cb i total
      else if (progress_every =? 0)%Z then Raise ZeroDivisionError
      else if (Z.of_nat i mod progress_every =? 0)%Z || (i =? total)
      then cb i total
      else Ok tt
  end.

(** the loop [for i, sname in enumerate(names, 1)] with its
    [try / except Exception: pass / finally] *)
Fixpoint pool_loop (zf : ZipFile) (progress : option (nat -> nat -> result unit))
    (progress_every : Z) (total : nat) (i : nat) (names : list string)
    (pool : Pool) : result Pool :=
  match names with
  | [] => Ok pool
  | sname :: rest =>
      let pool' :=
        match exchange_body zf sname pool with
        | Ok p => p
        | Raise _ => pool
        end in
      do _ <- progress_tick progress progress_every i total;
      pool_loop zf progress progress_every total (S i) rest pool'
  end.

Definition is_response_name (n : string) : bool :=
  startswith n "raw/" && endswith n "_s.txt".

(** [build_candidate_pool_from_saz] *)
Definition build_candidate_pool_from_saz (zf : ZipFile)
    (progress : option (nat -> nat -> result unit)) (progress_every : Z)
    : result Pool :=
  let names := List.filter is_response_name (namelist zf) in
  let total := List.length names in
  do pool <- pool_loop zf progress progress_every total 1 names ∅;
  Ok (dedup_candidates <$> pool).

End PoolBuilder.

(* ------------------------------------------------------------------ *)
(** ** A reference environment

    An instance of [PyEnv] on which the miner can be run: a tokenizer for
    complete, well-formed markup in the manner of [html.parser] (tags with
    quoted or bare attribute values, comments, declarations, raw text inside
    [script] and [style]), [html.unescape] for the references that denote
    printable ASCII characters, the ASCII part of the [ignore] decoders, and
    two iteration orders for sets of strings. *)

Module Reference.

(** longest prefix of characters of a class, and the rest *)
Fixpoint span (p : ascii -> bool) (s : string) : string * string :=
  match s with
  | EmptyString => (EmptyString, EmptyString)
  | String c t =>
      if p c then let '(a, b) := span p t in (String c a, b)
      else (EmptyString, s)
  end.

Definition named_refs : list (string * string) :=
  [("amp;", "&"); ("lt;", "<"); ("gt;", ">");
   ("quot;", String dquote EmptyString); ("apos;", String squote EmptyString);
   ("amp", "&"); ("lt", "<"); ("gt", ">"); ("quot", String dquote EmptyString)].

Fixpoint hex_value (s : string) (acc : nat) : nat :=
  match s with
  | EmptyString => acc
  | String c t =>
      let d := if is_digit c then code c - 48
               else if is_upper c then code c - 55 else code c - 87 in
      hex_value t (16 * acc + d)
  end.

Definition printable (n : nat) : bool := (32 <=? n) && (n <=? 126).

Definition skip_semicolon (s : string) : string :=
  if startswith s ";" then drop 1 s else s.

(** the replacement of the reference that follows an ampersand *)
Definition reference (t : string) : option (string * string) :=
  match t with
  | String "#" t1 =>
      let '(is_hexa, t2) :=
        match t1 with
        | String c t' => if Ascii.eqb (lower_char c) "x" then (true, t') else (false, t1)
        | EmptyString => (false, t1)
        end in
      let '(ds, rest) := span (if is_hexa then is_hex else is_digit) t2 in
      let n := if String.length ds <=? 3
               then (if is_hexa then hex_value ds 0 else Url.decimal_value ds 0)
               else 0 in
      if nonempty ds && printable n
      then Some (String (ascii_of_nat n) EmptyString, skip_semicolon rest)
      else None
  | _ =>
      List.fold_right
        (fun '(name, repl) later =>
           if startswith t name then Some (repl, drop (String.length name) t)
           else later)
        None named_refs
  end.

Fixpoint unescape_fuel (fuel : nat) (s : string) : string :=
  match fuel with
  | O => s
  | S f =>
      match s with
      | EmptyString => EmptyString
      | String c t =>
          if Ascii.eqb c "&" then
            match reference t with
            | Some (repl, rest) => (repl ++ unescape_fuel f rest)%string
            | None => String c (unescape_fuel f t)
            end
          else String c (unescape_fuel f t)
      end
  end.

Definition unescape (s : string) : string := unescape_fuel (String.length s) s.

(** [[^\t\n\r\f />\x00]] *)
Definition tag_name_char (c : ascii) : bool :=
  negb ((code c =? 9) || (code c =? 10) || (code c =? 13) || (code c =? 12)
        || (code c =? 32) || (code c =? 47) || (code c =? 62) || (code c =? 0)).

Definition attr_name_char (c : ascii) : bool :=
  negb (is_space c || (code c =? 47) || (code c =? 61) || (code c =? 62)).

Definition bare_value_char (c : ascii) : bool :=
  negb (is_space c || (code c =? 62)).

(** the attributes of a start tag; [None] when the tag is not complete *)
Fixpoint attrs_loop (fuel : nat) (s : string) (acc : list (string * option string))
    : option (list (string * option string) * bool * string) :=
  match fuel with
  | O => None
  | S f =>
      match lstrip_by is_space s with
      | EmptyString => None
      | String c t =>
          if Ascii.eqb c ">" then Some (List.rev acc, false, t)
          else if Ascii.eqb c "/" then
            if startswith t ">" then Some (List.rev acc, true, drop 1 t)
            else attrs_loop f t acc
          else
            let '(name_tl, s1) := span attr_name_char t in
            let name := lower (String c name_tl) in
            let s2 := lstrip_by is_space s1 in
            if startswith s2 "=" then
              let s3 := lstrip_by is_space (lstrip_by (Ascii.eqb "=") s2) in
              match s3 with
              | String q t3 =>
                  if is_quote q then
                    match index_char q t3 with
                    | Some i =>
                        let v := take i t3 in
                        attrs_loop f (drop (S i) t3)
                          ((name, Some (if nonempty v then unescape v else v)) :: acc)
                    | None => None
                    end
                  else
                    let '(v, s4) := span bare_value_char s3 in
                    attrs_loop f s4
                      ((name, Some (if nonempty v then unescape v else v)) :: acc)
              | EmptyString => None
              end
            else attrs_loop f s1 ((name, None) :: acc)
      end
  end.

(** [</\s*elem\s*>], under [re.I] *)
Definition close_re (elem : string) : Re.re :=
  Re.seqs [Re.lit "</"; Re.star is_space; Re.liti elem; Re.star is_space; Re.chr ">"].

(** [endtagfind]: an end tag whose name is a letter followed by letters,
    digits and [- . : _] *)
Definition endtagfind : Re.re :=
  Re.seqs [Re.lit "</"; Re.star is_space;
           Re.Group 1 (Re.Seq (Re.Chr is_alpha)
                         (Re.star (fun c => is_alnum c || Re.one_of "-.:_" c)));
           Re.star is_space; Re.chr ">"].

(** [--\s*>] *)
Definition commentclose : Re.re :=
  Re.seqs [Re.lit "--"; Re.star is_space; Re.chr ">"].

(** text with no later tag is held back while a trailing reference may be
    incomplete *)
Definition amp_pending (s : string) : bool :=
  let tail_ := drop (String.length s - 34) s in
  match rindex_char "&" tail_ with
  | Some i =>
      negb (searches (Re.Chr (fun c => is_space c || Ascii.eqb c ";")) (drop i tail_))
  | None => false
  end.

Definition after_gt (s : string) : option string :=
  match index_char ">" s with
  | Some i => Some (drop (S i) s)
  | None => None
  end.

(** the events of [feed(s)]; [cdata] is the element whose raw text is
    being read *)
Fixpoint scan (fuel : nat) (s : string) (cdata : option string) : list html_event :=
  match fuel with
  | O => []
  | S f =>
      match s, cdata with
      | EmptyString, _ => []
      | _, Some elem =>
          match Re.search (close_re elem) s with
          | None => []
          | Some m =>
              (if 0 <? Re.m_start m then [Data (take (Re.m_start m) s)] else [])
              ++ EndTag elem :: scan f (drop (Re.m_end m) s) None
          end
      | String c t, None =>
          if negb (Ascii.eqb c "<") then
            match index_char "<" s with
            | None => if amp_pending s then [] else [Data (unescape s)]
            | Some j => Data (unescape (take j s)) :: scan f (drop j s) None
            end
          else
            match t with
            | EmptyString => []
            | String d t' =>
                if is_alpha d then
                  let '(name, s1) := span tag_name_char t in
                  let tag := lower name in
                  match attrs_loop (S (String.length s1)) s1 [] with
                  | None => []
                  | Some (attrs, selfclosing, rest) =>
                      if selfclosing
                      then StartTag tag attrs :: EndTag tag :: scan f rest None
                      else StartTag tag attrs
                           :: scan f rest (if mem tag ["script"; "style"]
                                           then Some tag else None)
                  end
                else if Ascii.eqb d "/" then
                  match after_gt t with
                  | None => []
                  | Some rest =>
                      match Re.match_ endtagfind s with
                      | Some m =>
                          EndTag (lower (Re.group_or_empty m 1))
                          :: scan f (drop (Re.m_end m) s) None
                      | None =>
                          match t' with
                          | String e _ =>
                              if is_alpha e then
                                let '(name, s1) := span tag_name_char t' in
                                match after_gt s1 with
                                | Some rest' => EndTag (lower name) :: scan f rest' None
                                | None => []
                                end
                              else scan f rest None
                          | EmptyString => []
                          end
                      end
                  end
                else if startswith s "<!--" then
                  match Re.search commentclose (drop 4 s) with
                  | Some m => scan f (drop (4 + Re.m_end m) s) None
                  | None => []
                  end
                else if Ascii.eqb d "?" || Ascii.eqb d "!" then
                  match after_gt t with
                  | Some rest => scan f rest None
                  | None => []
                  end
                else Data "<" :: scan f t None
            end
      end
  end.

Definition feed (s : string) : list html_event := scan (S (String.length s)) s None.

(** the codecs the source names, and their usual aliases *)
Definition known_encodings : list string :=
  ["utf-8"; "utf8"; "ascii"; "us-ascii"; "latin-1"; "latin1"; "iso-8859-1";
   "cp949"; "euc-kr"; "cp1252"].

Definition is_ascii (c : ascii) : bool := code c <? 128.

(** [b.decode(enc, 'ignore')] on ASCII content: the bytes outside ASCII
    are dropped; an unknown codec raises [LookupError] *)
Definition decode (enc b : string) : result string :=
  if mem (lower enc) known_encodings
  then Ok (remove_chars (fun c => negb (is_ascii c)) b)
  else Raise LookupError.

(** the distinct elements in order of first occurrence *)
Fixpoint distinct (l : list string) : list string :=
  match l with
  | [] => []
  | x :: t => x :: List.filter (fun y => negb (String.eqb x y)) (distinct t)
  end.

End Reference.

(** a set visits its elements in order of first insertion *)
#[export] Instance py_env : PyEnv := {|
  html_feed := Reference.feed;
  html_unescape := Reference.unescape;
  bytes_decode := Reference.decode;
  set_order := Reference.distinct
|}.

(** an interpreter that differs only in the iteration order of sets *)
Definition with_set_order (E : PyEnv) (order : list string -> list string) : PyEnv := {|
  html_feed := @html_feed E;
  html_unescape := @html_unescape E;
  bytes_decode := @bytes_decode E;
  set_order := order
|}.

(** the reference interpreter under another hash seed: a set visits its
    elements in the opposite order *)
Definition py_env_rev : PyEnv :=
  with_set_order py_env (fun l => List.rev (Reference.distinct l)).

(* ------------------------------------------------------------------ *)
(** ** Scenarios *)

(** the pool of scenario B: the single Candidate of scenario A under its host *)
Definition scenario_pool : Pool :=
  {[ "ex.com" := [("[About]", "https://ex.com/about")] ]}.

(** a pool with one unbracketed label *)
Definition shop_pool : Pool :=
  {[ "shop.example" := [("Cart", "https://shop.example/cart")] ]}.

(** a pool whose only Candidate is the bare origin *)
Definition home_pool : Pool :=
  {[ "ex.com" := [("Home", "https://ex.com")] ]}.

(** two hosts, for the referer tier *)
Definition two_host_pool : Pool :=
  {[ "a.com" := [("[Docs]", "https://a.com/docs")];
     "b.com" := [("[Blog]", "https://b.com/blog")] ]}.

(* ------------------------------------------------------------------ *)
(** ** The scorer in the words of the specification

    The four terms are stated on their own here, not taken from the code:
    the overlap counts distinct strings, suffix containment looks for a
    cut point, last-segment equality compares the optional last elements.
    With [guard] the case of two empty segment sequences scores 0; without
    it every pair that passes the two special cases is blended. *)

Definition spec_overlap (A B : list string) : Q :=
  let inter := List.length (remove_dups (List.filter (fun x => mem x B) A)) in
  let union := List.length (remove_dups (A ++ B)) in
  Qmake (Z.of_nat inter) (Pos.of_nat (Nat.max 1 union)).

Definition last_opt (l : list string) : option string :=
  match List.rev l with x :: _ => Some x | [] => None end.

Definition spec_last_equal (A B : list string) : Q :=
  match last_opt A, last_opt B with
  | Some x, Some y => if String.eqb x y then 1%Q else 0%Q
  | _, _ => 0%Q
  end.

(** [s] is what remains of [t] after some number of leading characters *)
Definition is_suffix_of (s t : string) : bool :=
  existsb (fun k => String.eqb (drop k t) s) (List.seq 0 (S (String.length t))).

Definition spec_suffix_containment (a_path b_path : string) : Q :=
  if is_suffix_of b_path a_path || is_suffix_of a_path b_path then 1%Q else 0%Q.

Definition spec_pathSimilarity (guard : bool) (a b : string) : result Q :=
  if String.eqb a EmptyString || String.eqb b EmptyString then Ok 0%Q
  else if String.eqb a b then Ok 100%Q
  else
    do A <- _path_segs a;
    do B <- _path_segs b;
    if guard && is_nil A && is_nil B then Ok 0%Q
    else
      let a_path := join "/" A in
      let b_path := join "/" B in
      Ok (Qmin 100 (spec_overlap A B * 40 + spec_last_equal A B * 20
                    + spec_suffix_containment a_path b_path * 15
                    + Difflib.ratio a_path b_path * 25))%Q.

(* ------------------------------------------------------------------ *)
(** ** Volatile segments in the words of the specification *)

(** a string of digits, at least one *)
Definition purely_numeric (s : string) : bool :=
  nonempty s && forall_chars is_digit s.

(** a string of hexadecimal digits, at least eight *)
Definition hex_string (s : string) : bool :=
  (8 <=? String.length s) && forall_chars is_hex s.

(** a string given character by character: one class per position *)
Fixpoint has_shape (shape : list (ascii -> bool)) (s : string) : bool :=
  match shape, s with
  | [], EmptyString => true
  | p :: shape', String c t => p c && has_shape shape' t
  | _, _ => false
  end.

Definition is_dash : ascii -> bool := Ascii.eqb "-"%char.
Definition date_sep (c : ascii) : bool := Ascii.eqb c "-"%char || Ascii.eqb c "/"%char.

(** 8-4-4-4-12 hexadecimal digits separated by dashes *)
Definition uuid_shape : list (ascii -> bool) :=
  repeat is_hex 8 ++ [is_dash] ++ repeat is_hex 4 ++ [is_dash]
  ++ repeat is_hex 4 ++ [is_dash] ++ repeat is_hex 4 ++ [is_dash]
  ++ repeat is_hex 12.

Definition is_uuid (s : string) : bool := has_shape uuid_shape s.

(** YYYY, MM and an optional DD, each pair optionally preceded by a separator *)
Definition date_shapes : list (list (ascii -> bool)) :=
  let Y := repeat is_digit 4 in
  let M := repeat is_digit 2 in
  let D := repeat is_digit 2 in
  [Y ++ M; Y ++ [date_sep] ++ M;
   Y ++ M ++ D; Y ++ [date_sep] ++ M ++ D; Y ++ M ++ [date_sep] ++ D;
   Y ++ [date_sep] ++ M ++ [date_sep] ++ D].

Definition date_shaped (s : string) : bool :=
  existsb (fun shape => has_shape shape s) date_shapes.

Definition volatile (s : string) : bool :=
  purely_numeric s || is_uuid s || hex_string s || date_shaped s.

(* ------------------------------------------------------------------ *)
(** ** Deduplication in the words of the specification *)

(** every Candidate once, at the place of its first occurrence *)
Fixpoint first_occurrences (l : list Candidate) : list Candidate :=
  match l with
  | [] => []
  | x :: t => x :: List.filter (fun y => negb (cand_eqb x y)) (first_occurrences t)
  end.

(** ** Documents and archives of the scenarios *)


(** a link that brings its own authority, a port without a host *)
Definition port_only_doc : string := "<a href='//:80/x'>P</a>".

(** one anchor calls two functions, another calls one of them *)
Definition two_calls_doc : string :=
  "<a onclick='foo();bar()'>A</a><a onclick='bar()'>B</a><script>function foo(){location.href='/f';} function bar(){location.href='/b';}</script>".


(** what one exchange adds under host key [h]: its Candidates when it ran to
    the end with that key, nothing when it was skipped or raised *)
Definition contribution `{PyEnv} (zf : ZipFile) (h sname : string) : list Candidate :=
  match exchange_candidates zf sname with
  | Ok (Some (key, cands)) => if String.eqb key h then cands else []
  | _ => []
  end.

(** the Candidates discovered for host key [h], in discovery order: the
    response entries in archive order, within one entry the order of the miner *)
Definition discovered `{PyEnv} (zf : ZipFile) (h : string) : list Candidate :=
  List.flat_map (contribution zf h) (List.filter is_response_name (namelist zf)).

(** an archive given by its entries; [read] returns the data of the last
    entry of that name and raises [KeyError] when there is none *)
Definition zip_of (entries : list (string * result string)) : ZipFile := {|
  namelist := map fst entries;
  read := fun name =>
    List.fold_left
      (fun found e => if String.eqb (fst e) name then snd e else found)
      entries (Raise KeyError)
|}.

(** Three exchanges with host ex.com.  The first lists About twice; the
    response of the second cannot be read; the request of the third is
    stored under the zero-padded number. *)
Definition sample_zip : ZipFile :=
  zip_of
    [("raw/1_c.txt", Ok "GET /home HTTP/1.1
Host: ex.com

");
     ("raw/1_s.txt", Ok "HTTP/1.1 200 OK
Content-Type: text/html; charset=utf-8

<a href='/about'>About</a><a href='/about'>About</a><a href='/x'>X</a>");
     ("raw/2_c.txt", Ok "GET /p HTTP/1.1
Host: ex.com

");
     ("raw/2_s.txt", Raise BadZipFile);
     ("raw/0003_c.txt", Ok "GET /q HTTP/1.1
Host: ex.com

");
     ("raw/3_s.txt", Ok "HTTP/1.1 200 OK
Content-Type: text/html

<a href='/about'>About</a><a href='y'>Y</a>");
     ("raw/4_s.txt", Ok "HTTP/1.1 200 OK
Content-Type: image/png

")].

(* ------------------------------------------------------------------ *)
(** ** Notions used in the statements *)

(** the score of a Match Result *)
Definition score_of (r : MatchResult) : Q := snd (fst r).

(** the matched URL, and the label when one is returned, are those of one
    Candidate of the list the loop ran over *)
Definition from_candidates (cs : list Candidate) (r : MatchResult) : Prop :=
  match r with
  | (l, _, Some u) => exists label, In (label, u) cs /\ (l = None \/ l = Some label)
  | (l, _, None) => l = None
  end.

(** what a pool entry becomes when Candidates are added under its key *)
Definition grow (entry : option (list Candidate)) (extra : list Candidate)
    : option (list Candidate) :=
  match entry with
  | Some cs => Some (cs ++ extra)
  | None => if is_nil extra then None else Some extra
  end.


(** [url] has the scheme and a host: [urlparse] reads it, finds that scheme
    and a host name that is not empty *)
Definition carries_scheme_and_host (url scheme : string) : Prop :=
  exists p, Url.urlparse url = Ok p
            /\ Url.scheme p = scheme
            /\ Url.hostname p <> EmptyString.

(** what [urlsplit] has made sure of in a network location it returns: no
    TAB, CR or LF, none of the delimiters [/ ? #], and brackets only around
    an address it accepts *)
Definition accepted_netloc (n : string) : Prop :=
  forall_chars (fun c => negb (Url.unsafe_byte c)) n = true
  /\ Url.delim_index n = String.length n
  /\ ((has_char "[" n && negb (has_char "]" n))
      || (has_char "]" n && negb (has_char "[" n))) = false
  /\ (has_char "[" n && has_char "]" n = true ->
      Url._check_bracketed_netloc n = Ok tt).


(* ================================================================== *)
(** * The rest of the code: further notions *)

(** the points at which the pool builder calls the progress callback: the
    first exchange, every [progress_every]-th one and the last *)
Definition on_cadence (progress_every : Z) (i total : nat) : Prop :=
  i = 1 \/ (Z.of_nat i mod progress_every = 0)%Z \/ i = total.

(* ------------------------------------------------------------------ *)
(** ** Hosts *)

(** a character of a plain host name: a letter, a digit, a dot or a hyphen *)
Definition host_char (c : ascii) : bool :=
  is_alnum c || Ascii.eqb c "."%char || Ascii.eqb c "-"%char.

Definition plain_host (h : string) : bool := nonempty h && forall_chars host_char h.

(** what may follow the authority of a URL: nothing, or a path *)
Definition path_like (rest : string) : bool :=
  negb (nonempty rest) || startswith rest "/".

(** the digits of a port *)
Definition port_digits (p : string) : bool := nonempty p && forall_chars is_digit p.

(** what [_hostkey] makes of the network location once [urlparse] has
    returned: lower case, no userinfo, no default port *)
Definition netloc_key (netloc : string) : string :=
  let netloc := lower netloc in
  let netloc :=
    match Url.split_once "@" netloc with
    | Some (_, after) => after
    | None => netloc
    end in
  let '(h, sep, p) := partition netloc ":" in
  if mem p ["80"; "443"] then h
  else if nonempty netloc then netloc else h.

(** the characters that structure a URL, and those stripped from its ends *)
Definition url_special (c : ascii) : bool :=
  Re.one_of ":@/?#[];" c || Url.c0_or_space c.

(** a character that can stand in the authority of a URL *)
Definition authority_char (c : ascii) : bool :=
  negb (Re.one_of "/?#[]" c || Url.unsafe_byte c).

(* ------------------------------------------------------------------ *)
(** ** The menu tree *)

(** the start tags that put the parser inside a menu: [nav], and a list
    whose class or id carries a menu or breadcrumb hint *)
Definition opens_menu (e : html_event) : bool :=
  match e with
  | StartTag tag attrs =>
      String.eqb tag "nav" || (mem tag ["ul"; "ol"] && _is_menu_ul attrs)
  | _ => false
  end.

(* ------------------------------------------------------------------ *)
(** ** The matcher on equal strings

    Notions for the table of [find_longest_match] when both strings are the
    string [l]. *)

(** the length of the run of characters kept in [b2j] (not discarded as
    frequent) that ends just before index [m] *)
Fixpoint run_before (l : list ascii) (m : nat) : nat :=
  match m with
  | O => 0
  | S m' =>
      if negb (Difflib.popular l (List.nth m' l "000"%char))
      then S (run_before l m') else 0
  end.

(** In row [i] of the table, at column [j]: the cell that feeds cell
    [(i, i)] of the diagonal holds [v].  [L] is the row above from column
    [j] on, [prev] its value at column [j - 1]. *)
Definition feeds_diagonal (v i j : nat) (L : list nat) (prev : nat) : Prop :=
  (j = i -> prev = v) /\ (j < i -> List.nth (i - 1 - j) L 0 = v).

(** a block that starts at the same index in both strings and ends within
    them *)
Definition on_diagonal (n : nat) (best : Difflib.best_t) : Prop :=
  fst (fst best) = snd (fst best) /\ fst (fst best) + snd best <= n.

(* ------------------------------------------------------------------ *)
(** * Text decoded as [latin-1]

    [bytes.decode('latin-1')] gives every byte the character of the same
    code, so the text of a request or of a response head is a string of
    characters below 256.  Among them [str.isspace] holds of the ASCII white
    space, of NEL (85) and of NO-BREAK SPACE (A0); [str.splitlines] also
    breaks at NEL; [str.lower] also maps C0 to DE, but for D7, to E0 to FE. *)

Module Latin1.

Definition is_space (c : ascii) : bool :=
  PyStr.is_space c || (code c =? 133) || (code c =? 160).

(** [s.strip()] *)
Definition strip (s : string) : string := strip_by is_space s.

(** [s.split()]: the maximal runs of characters that are not white space *)
Fixpoint split_ws_aux (s cur_rev : string) : list string :=
  match s with
  | EmptyString => if nonempty cur_rev then [rev cur_rev] else []
  | String c t =>
      if is_space c
      then (if nonempty cur_rev then [rev cur_rev] else []) ++ split_ws_aux t EmptyString
      else split_ws_aux t (String c cur_rev)
  end.

Definition split_ws (s : string) : list string := split_ws_aux s EmptyString.

Definition is_linebreak (c : ascii) : bool :=
  ((10 <=? code c) && (code c <=? 13)) || ((28 <=? code c) && (code c <=? 30))
  || (code c =? 133).

(** [s.splitlines()]; CR LF counts as one boundary, and a final boundary
    does not open a last empty line *)
Fixpoint splitlines_aux (s cur_rev : string) (after_cr : bool) : list string :=
  match s with
  | EmptyString => if nonempty cur_rev then [rev cur_rev] else []
  | String c t =>
      if after_cr && Ascii.eqb c "010"%char then splitlines_aux t cur_rev false
      else if is_linebreak c
      then rev cur_rev :: splitlines_aux t EmptyString (Ascii.eqb c "013"%char)
      else splitlines_aux t (String c cur_rev) false
  end.

Definition splitlines (s : string) : list string := splitlines_aux s EmptyString false.

Definition lower_char (c : ascii) : ascii :=
  if is_upper c
     || ((192 <=? code c) && (code c <=? 222) && negb (code c =? 215))
  then ascii_of_nat (code c + 32) else c.

(** [s.lower()] *)
Fixpoint lower (s : string) : string :=
  match s with
  | EmptyString => EmptyString
  | String c t => String (lower_char c) (lower t)
  end.

End Latin1.

(* ------------------------------------------------------------------ *)
(** * [scripts/http_utils.py]

    The literals of the source that are not ASCII stand here as their UTF-8
    encoding. *)

Module HttpUtils.

(** ** [sanitize_excel_str] *)

(** [ILLEGAL_XLS_RE = [\x00-\x08\x0B\x0C\x0E-\x1F]] *)
Definition illegal_xls (c : ascii) : bool :=
  (code c <=? 8) || (code c =? 11) || (code c =? 12)
  || ((14 <=? code c) && (code c <=? 31)).

Definition ILLEGAL_XLS_RE : Re.re := Re.Chr illegal_xls.

(** the argument of [sanitize_excel_str]: [None], a string, or any other
    object, of which only what [str(x)] does matters *)
Inductive cell : Type :=
| CNone
| CStr (s : string)
| CObj (str_ : result string).

(** [sanitize_excel_str]; the result [None] is Python's [None] *)
Definition sanitize_excel_str (x : cell) : option string :=
  match x with
  | CNone => None
  | CStr s => Some (Re.sub ILLEGAL_XLS_RE EmptyString s)
  | CObj (Ok s) => Some (Re.sub ILLEGAL_XLS_RE EmptyString s)
  | CObj (Raise _) => Some EmptyString
  end.

(** ** [parse_request] *)

Definition CRLF : string := String "013" (String "010" EmptyString).

(** [s.split(b'\r\n')] *)
Fixpoint split_crlf_aux (s cur_rev : string) : list string :=
  match s with
  | EmptyString => [rev cur_rev]
  | String c t =>
      match t with
      | String d t' =>
          if Ascii.eqb c "013" && Ascii.eqb d "010"
          then rev cur_rev :: split_crlf_aux t' EmptyString
          else split_crlf_aux t (String c cur_rev)
      | EmptyString => split_crlf_aux t (String c cur_rev)
      end
  end.

Definition split_crlf (s : string) : list string := split_crlf_aux s EmptyString.

(** the body of the loop over the header lines *)
Definition add_header (headers : Headers) (s : string) : Headers :=
  if negb (nonempty s) || negb (has_char ":" s) then headers
  else
    match Url.split_once ":" s with
    | Some (k, v) => <[Latin1.strip k := Latin1.strip v]> headers
    | None => headers
    end.

(** [parse_request]: [raw.split(b'\r\n\r\n', 1)] gives one part when the
    separator is absent, and the unpacking then raises the [ValueError] the
    source catches; [latin-1] decodes every byte to the character of the
    same code, and [split] and [strip] are those of the decoded text;
    [head.split] never returns an empty list, so the early return of the
    source is never taken *)
Definition parse_request (raw : string) : string * string * Headers * string :=
  let '(head, body) :=
    match partition raw CRLFCRLF with
    | (head, true, body) => (head, body)
    | (_, false, _) => (raw, EmptyString)
    end in
  let lines := split_crlf head in
  let reqline := List.hd EmptyString lines in
  let '(method, target) :=
    match Latin1.split_ws reqline with
    | m :: t :: _ => (m, t)
    | _ => (EmptyString, EmptyString)
    end in
  (method, target, List.fold_left add_header (List.tl lines) ∅, body).

(** ** [flatten_json] *)

(** the values that are neither a [dict] nor a [list]; a float stands as
    its [repr] *)
Inductive scalar : Type :=
| SNone
| SBool (b : bool)
| SInt (z : Z)
| SFloat (repr : string)
| SStr (s : string).

(** a value as [json.loads] returns it: the keys of a [dict] are strings *)
#[warnings="-register-all"]
Inductive pyval : Type :=
| PLeaf (v : scalar)
| PList (items : list pyval)
| PDict (items : list (string * pyval)).

(** a [dict] with string keys in insertion order *)
Definition odict (V : Type) : Type := list (string * V).

Fixpoint od_get {V} (d : odict V) (k : string) : option V :=
  match d with
  | [] => None
  | (k', v) :: t => if String.eqb k' k then Some v else od_get t k
  end.

(** [d[k] = v]: a key that is present keeps its place *)
Fixpoint od_set {V} (k : string) (v : V) (d : odict V) : odict V :=
  match d with
  | [] => [(k, v)]
  | (k', v') :: t =>
      if String.eqb k' k then (k, v) :: t else (k', v') :: od_set k v t
  end.

(** [d.update(e)] *)
Definition od_update {V} (d e : odict V) : odict V :=
  List.fold_left (fun acc kv => od_set (fst kv) (snd kv) acc) e d.

Definition od_keys {V} (d : odict V) : list string := map fst d.

(** [str(i)] for a natural number *)
Definition str_nat (i : nat) : string := NilZero.string_of_uint (Nat.to_uint i).

(** the key of an entry of a [dict] and of an item of a [list] *)
Definition dict_key (parent_key sep k : string) : string :=
  if nonempty parent_key then (parent_key ++ sep ++ k)%string else k.

Definition list_key (parent_key : string) (i : nat) : string :=
  if nonempty parent_key then (parent_key ++ "[" ++ str_nat i ++ "]")%string
  else ("[" ++ str_nat i ++ "]")%string.

(** [flatten_json]: the loops [for k, v in obj.items()] and
    [for i, v in enumerate(obj)], each ending in [items.update(...)] *)
Fixpoint flatten_json (obj : pyval) (parent_key sep : string) {struct obj}
    : odict scalar :=
  match obj with
  | PDict entries =>
      List.fold_left
        (fun items kv =>
           od_update items
             (flatten_json (snd kv) (dict_key parent_key sep (fst kv)) sep))
        entries []
  | PList elements =>
      snd (List.fold_left
             (fun st v =>
                (S (fst st),
                 od_update (snd st)
                   (flatten_json v (list_key parent_key (fst st)) sep)))
             elements (0, []))
  | PLeaf v => [(parent_key, v)]
  end.

(** ** [make_breadcrumb] *)

(** the label of the main page, [메인 페이지] between brackets *)
Definition MAIN_PAGE : string := "[메인 페이지]".

Definition make_breadcrumb (url : string) : result string :=
  do p <- Url.urlparse url;
  let path := if nonempty (Url.path p) then Url.path p else "/" in
  let segs := List.filter nonempty (split_char "/" path) in
  if is_nil segs then Ok MAIN_PAGE
  else Ok (join " > " (map bracketed (List.firstn 5 segs))).

End HttpUtils.

(* ------------------------------------------------------------------ *)
(** ** Well-formed requests *)

Definition is_cr_or_lf (c : ascii) : bool := Ascii.eqb c "013" || Ascii.eqb c "010".

(** a method or a request target: not empty, and without a character that
    [str.split] takes as white space in the decoded request line *)
Definition token (s : string) : bool :=
  nonempty s && forall_chars (fun c => negb (Latin1.is_space c)) s.

(** text that stays on its line *)
Definition one_line (s : string) : bool :=
  forall_chars (fun c => negb (is_cr_or_lf c)) s.

(** a header as [(name, value)]: the name has no colon, neither has at its
    ends a character that [str.strip] removes from the decoded line, neither
    breaks the line *)
Definition header_ok (kv : string * string) : bool :=
  one_line (fst kv) && negb (has_char ":" (fst kv))
  && String.eqb (Latin1.strip (fst kv)) (fst kv)
  && one_line (snd kv) && String.eqb (Latin1.strip (snd kv)) (snd kv).

Definition header_line (kv : string * string) : string :=
  (fst kv ++ ": " ++ snd kv)%string.

(** the request as it stands in the archive: request line, header lines,
    an empty line, the body *)
Definition render_request (method target version : string)
    (hdrs : list (string * string)) (body : string) : string :=
  (join HttpUtils.CRLF ((method ++ " " ++ target ++ " " ++ version)%string
                        :: map header_line hdrs)
   ++ CRLFCRLF ++ body)%string.

(** the dictionary of a list of headers: a later header replaces an earlier
    one of the same name *)
Definition headers_of (hdrs : list (string * string)) : Headers :=
  List.fold_left (fun h kv => <[fst kv := snd kv]> h) hdrs ∅.

Definition no_cr (s : string) : bool :=
  forall_chars (fun d => negb (Ascii.eqb "013" d)) s.

(** a line of the head of a message: not empty, without a carriage return *)
Definition head_line (s : string) : Prop := s <> EmptyString /\ no_cr s = true.

(* ------------------------------------------------------------------ *)
(** ** Paths into a JSON value *)

(** one step from a value into it: the key of a [dict], the index of a [list] *)
Inductive step : Type :=
| Key (k : string)
| Idx (i : nat).

(** the key [flatten_json] gives the value one step below [parent_key] *)
Definition step_key (sep parent_key : string) (s : step) : string :=
  match s with
  | Key k => HttpUtils.dict_key parent_key sep k
  | Idx i => HttpUtils.list_key parent_key i
  end.

Definition path_key (sep parent_key : string) (p : list step) : string :=
  List.fold_left (step_key sep) p parent_key.

(** the scalar [v] stands in [obj] at the end of path [p] *)
Inductive has_leaf : HttpUtils.pyval -> list step -> HttpUtils.scalar -> Prop :=
| leaf_here (v : HttpUtils.scalar) : has_leaf (HttpUtils.PLeaf v) [] v
| leaf_in_dict (entries : list (string * HttpUtils.pyval)) (k : string)
    (child : HttpUtils.pyval) (p : list step) (v : HttpUtils.scalar) :
    In (k, child) entries -> has_leaf child p v ->
    has_leaf (HttpUtils.PDict entries) (Key k :: p) v
| leaf_in_list (elements : list HttpUtils.pyval) (i : nat)
    (child : HttpUtils.pyval) (p : list step) (v : HttpUtils.scalar) :
    List.nth_error elements i = Some child -> has_leaf child p v ->
    has_leaf (HttpUtils.PList elements) (Idx i :: p) v.

(** induction on values: the property holds of a [list] or a [dict] when
    it holds of all the values in it *)
Fixpoint pyval_induction (P : HttpUtils.pyval -> Prop)
    (on_leaf : forall v, P (HttpUtils.PLeaf v))
    (on_list : forall elements, Forall P elements -> P (HttpUtils.PList elements))
    (on_dict : forall entries, Forall (fun kv => P (snd kv)) entries ->
                               P (HttpUtils.PDict entries))
    (obj : HttpUtils.pyval) : P obj :=
  match obj with
  | HttpUtils.PLeaf v => on_leaf v
  | HttpUtils.PList elements =>
      on_list elements
        ((fix all (l : list HttpUtils.pyval) : Forall P l :=
            match l with
            | [] => List.Forall_nil P
            | x :: t =>
                @List.Forall_cons _ P x t
                  (pyval_induction P on_leaf on_list on_dict x) (all t)
            end) elements)
  | HttpUtils.PDict entries =>
      on_dict entries
        ((fix all (l : list (string * HttpUtils.pyval))
            : Forall (fun kv => P (snd kv)) l :=
            match l with
            | [] => List.Forall_nil (fun kv => P (snd kv))
            | x :: t =>
                @List.Forall_cons _ (fun kv => P (snd kv)) x t
                  (pyval_induction P on_leaf on_list on_dict (snd x)) (all t)
            end) entries)
  end.

(** the flattened form of a value read as a [dict] again *)
Definition as_dict (d : HttpUtils.odict HttpUtils.scalar) : HttpUtils.pyval :=
  HttpUtils.PDict (map (fun kv => (fst kv, HttpUtils.PLeaf (snd kv))) d).

(* ------------------------------------------------------------------ *)
(** * Library functions taken as given, and collaborators

    [urllib.parse.parse_qsl], [json.loads], [re.compile] on patterns written
    by the user and the formatting of a float are taken from the
    environment.  The two functions of [scripts/metadata_utils.py], which
    read XML with [xml.etree], and the writing of the candidates file are
    collaborators of [parse_saz_data]: the properties hold whatever they
    do. *)

Class PyLib : Type := {
  (** [parse_qsl(qs, keep_blank_values=True)] *)
  parse_qsl : string -> result (list (string * string));
  (** [json.loads] *)
  json_loads : string -> result HttpUtils.pyval;
  (** [re.compile(rx)], as what [search] of the compiled pattern answers *)
  re_compile : string -> result (string -> bool);
  (** [f"{score:.1f}"] *)
  format_1f : Q -> string
}.

Class Collaborators : Type := {
  is_marked_vulnerable_by_comment : ZipFile -> string -> result bool;
  extract_request_time_kst : ZipFile -> string -> result (option string);
  (** [os.makedirs(outdir)], [open(out_json, 'w')], [json.dump(menu_pool, f)] *)
  save_menu_candidates_json : string -> Pool -> result unit
}.

(* ------------------------------------------------------------------ *)
(** * [scripts/http_utils.py]: [extract_params] *)

Module Params.

Import HttpUtils.

(** [str(v)] *)
Definition str_scalar (v : scalar) : string :=
  match v with
  | SNone => "None"
  | SBool true => "True"
  | SBool false => "False"
  | SInt z => NilZero.string_of_int (Z.to_int z)
  | SFloat r => r
  | SStr s => s
  end.

(** [if v not in params[k]: params[k].append(v)] on a [defaultdict(list)]:
    reading [params[k]] creates the entry *)
Definition add_param (params : odict (list string)) (k v : string)
    : odict (list string) :=
  let vs := default [] (od_get params k) in
  let params :=
    match od_get params k with
    | Some _ => params
    | None => od_set k [] params
    end in
  if mem v vs then params else od_set k (vs ++ [v]) params.

Definition add_pairs (params : odict (list string)) (pairs : list (string * string))
    : odict (list string) :=
  List.fold_left (fun ps kv => add_param ps (fst kv) (snd kv)) pairs params.

Section ExtractParams.
Context `{PyEnv} `{PyLib}.

(** the body of the first [try]: form parameters *)
Definition form_params (params : odict (list string)) (body : string)
    : result (odict (list string)) :=
  do s <- bytes_decode "utf-8" body;
  do pairs <- parse_qsl s;
  Ok (add_pairs params pairs).

(** the body of the second [try]: the scalars of a JSON body *)
Definition json_params (params : odict (list string)) (body : string)
    : result (odict (list string)) :=
  do text <- bytes_decode "utf-8" body;
  do obj <- json_loads text;
  let flat := flatten_json obj EmptyString "." in
  Ok (add_pairs params (map (fun kv => (fst kv, str_scalar (snd kv))) flat)).

(** [extract_params]; the headers are those of [parse_request], text
    decoded as [latin-1] *)
Definition extract_params (headers : Headers) (target body : string)
    : result (odict (list string)) :=
  do params <-
    (if has_char "?" target then
       let qs := match Url.split_once "?" target with
                 | Some (_, q) => q
                 | None => EmptyString
                 end in
       do pairs <- parse_qsl qs;
       Ok (add_pairs [] pairs)
     else Ok []);
  let ctype := Latin1.lower (header2 headers "content-type" "Content-Type") in
  if startswith ctype "application/x-www-form-urlencoded" then
    Ok (match form_params params body with Ok p => p | Raise _ => params end)
  else if contains ctype "json" then
    Ok (match json_params params body with Ok p => p | Raise _ => params end)
  else Ok params.

End ExtractParams.

End Params.

(* ------------------------------------------------------------------ *)
(** * [scripts/filters.py] *)

(** a row of the result of [parse_saz_data]: the dictionary with the keys
    '경로', 'Method', '진단 URL', '메뉴명(추정)', '매칭점수', '파라미터',
    '진단결과', '진단 시각' and '비고' *)
Record Row : Type := mkRow {
  row_path : string;
  row_method : string;
  row_url : string;
  row_menu : string;
  row_score : string;
  row_params : string;
  row_result : string;
  row_time : string;
  row_memo : string
}.

Module Filters.

Definition ASSET_EXTS : list string :=
  [".js"; ".css"; ".map"; ".png"; ".jpg"; ".jpeg"; ".gif"; ".svg"; ".ico"; ".webp";
   ".woff"; ".woff2"; ".ttf"; ".eot"; ".otf"; ".pdf"; ".zip"; ".rar"; ".7z"; ".mp4";
   ".mp3"; ".wav"].

Definition ASSET_PATH_KWS : list string :=
  ["/js/"; "/scripts/"; "/static/"; "/assets/"; "/common/js/"; "/fonts/"].

(** [os.path.splitext] of [posixpath]: the extension starts at the last dot
    of the last component, unless only dots precede it there *)
Definition splitext (p : string) : string * string :=
  match rindex_char "." p with
  | None => (p, EmptyString)
  | Some dot =>
      let start := match rindex_char "/" p with Some sp => S sp | None => 0 end in
      if (start <=? dot) && negb (forall_chars (Ascii.eqb ".") (slice start dot p))
      then (take dot p, drop dot p)
      else (p, EmptyString)
  end.

(** digits, with single underscores between them *)
Fixpoint digits_ok (s : string) (after_digit : bool) : bool :=
  match s with
  | EmptyString => after_digit
  | String c t =>
      if is_digit c then digits_ok t true
      else if Ascii.eqb c "_" then after_digit && digits_ok t false
      else false
  end.

(** [int(s)] for a string: white space around, a sign, decimal digits *)
Definition py_int (s : string) : result Z :=
  let s := strip s in
  let '(negative, digits) :=
    match s with
    | String "-" t => (true, t)
    | String "+" t => (false, t)
    | _ => (false, s)
    end in
  let ds := remove_chars (Ascii.eqb "_") digits in
  if negb (digits_ok digits false) then Raise ValueError
  else if 4300 <? String.length ds then Raise ValueError
  else
    let n := Z.of_N (decimal_N ds 0%N) in
    Ok (if negative then (- n)%Z else n).

(** [f'{n:04d}']: the sign counts in the width *)
Definition format_04d (z : Z) : string :=
  let d := NilZero.string_of_uint (N.to_uint (Z.abs_N z)) in
  if (z <? 0)%Z then ("-" ++ zeros (3 - String.length d) ++ d)%string
  else (zeros (4 - String.length d) ++ d)%string.

(** the value of the first [content-type:] line of a lower-cased head,
    decoded as [latin-1] *)
Fixpoint ctype_of_lines (lines : list string) : option string :=
  match lines with
  | [] => None
  | ln :: rest =>
      if startswith ln "content-type:" then
        match Url.split_once ":" ln with
        | Some (_, v) => Some (Latin1.strip v)
        | None => None
        end
      else ctype_of_lines rest
  end.

(** the loop [for name in cand] with its [try / except Exception: pass];
    the head is decoded as [latin-1], which never fails *)
Fixpoint response_ctype_loop (zf : ZipFile) (cand : list string) : string :=
  match cand with
  | [] => EmptyString
  | name :: rest =>
      if mem name (namelist zf) then
        match read zf name with
        | Ok raw =>
            let '(head, _, _) := partition raw CRLFCRLF in
            match ctype_of_lines (Latin1.splitlines (Latin1.lower head)) with
            | Some c => c
            | None => response_ctype_loop zf rest
            end
        | Raise _ => response_ctype_loop zf rest
        end
      else response_ctype_loop zf rest
  end.

(** [response_ctype]; [int(mnum)] is evaluated before the loop *)
Definition response_ctype (zf : ZipFile) (mnum : string) : result string :=
  do n <- py_int mnum;
  Ok (response_ctype_loop zf
        [("raw/" ++ mnum ++ "_s.txt")%string;
         ("raw/" ++ format_04d n ++ "_s.txt")%string]).

Definition asset_ctype (ctype : string) : bool :=
  nonempty ctype
  && (contains ctype "javascript" || contains ctype "text/css"
      || contains ctype "image/" || contains ctype "font/"
      || contains ctype "octet-stream").

(** [is_probable_asset]; an open archive is always true, a session number
    is true when it is not empty; the URL is made of the text of a request,
    decoded as [latin-1] *)
Definition is_probable_asset (url : string) (zf : option ZipFile)
    (mnum : option string) : result bool :=
  do p <- Url.urlparse url;
  let path := Latin1.lower (Url.path p) in
  let '(_, ext) := splitext path in
  if mem ext ASSET_EXTS then Ok true
  else if existsb (contains path) ASSET_PATH_KWS then Ok true
  else
    match zf, mnum with
    | Some zf, Some mnum =>
        if nonempty mnum then
          do ctype <- response_ctype zf mnum;
          Ok (asset_ctype ctype)
        else Ok false
    | _, _ => Ok false
    end.

(** the first loop of [compile_ignores] *)
Definition norm_prefixes (prefixes : list string) : list string :=
  List.filter
    (fun p => negb (negb (nonempty p) || startswith p "http"
                    || negb (startswith p "/")))
    (map strip prefixes).

Section Ignores.
Context `{PyLib}.

(** [compile_ignores]: a pattern that does not compile is left out *)
Definition compile_ignores (prefixes regexes : list string)
    : list string * list (string -> bool) :=
  (norm_prefixes prefixes,
   List.flat_map
     (fun rx => match re_compile rx with Ok rg => [rg] | Raise _ => [] end)
     regexes).

End Ignores.

(** [should_ignore] *)
Definition should_ignore (url : string) (prefixes : list string)
    (regexes : list (string -> bool)) : result bool :=
  do p <- Url.urlparse url;
  let path := if nonempty (Url.path p) then Url.path p else "/" in
  if existsb (startswith path) prefixes then Ok true
  else Ok (existsb (fun rg => rg url) regexes).

(** [filter_sessions] *)
Fixpoint filter_sessions (rows : list Row) (prefixes : list string)
    (regexes : list (string -> bool)) : result (list Row) :=
  match rows with
  | [] => Ok []
  | item :: rest =>
      do ignored <- should_ignore (row_url item) prefixes regexes;
      do out <- filter_sessions rest prefixes regexes;
      Ok (if ignored then out else item :: out)
  end.

End Filters.

(* ------------------------------------------------------------------ *)
(** * [scripts/progress_utils.py]

    What [progress_update] writes depends on the clock and is not
    modelled; what is kept is when it returns and when the test
    [i % every] raises. *)

Module Progress.

Definition progress_update (i total : nat) (every : Z) : result unit :=
  if total =? 0 then Ok tt
  else if i =? 1 then Ok tt
  else if (every =? 0)%Z then Raise ZeroDivisionError
  else Ok tt.

End Progress.

(* ------------------------------------------------------------------ *)
(** * [scripts/saz_parser.py] *)

Module SazParser.

(** [s.upper()], of which the source uses only the comparison with
    [CONNECT]: the letters of ASCII are mapped; a character from 80 on is
    left as it is, as [str.upper] maps it to itself, to a character outside
    ASCII or (DF) to [SS], none of which makes a text equal to [CONNECT] *)
Definition upper_char (c : ascii) : ascii :=
  if is_lower c then ascii_of_nat (code c - 32) else c.

Fixpoint upper (s : string) : string :=
  match s with
  | EmptyString => EmptyString
  | String c t => String (upper_char c) (upper t)
  end.

(** [raw/(\d+)_c\.txt$] *)
Definition _RAW_C : Re.re :=
  Re.seqs [Re.lit "raw/"; Re.Group 1 (Re.plus is_digit); Re.lit "_c.txt"; Re.Eos].

Definition is_request_name (m : string) : bool :=
  startswith m "raw/" && endswith m "_c.txt".

(** the sort key [int(re.search(..., x).group(1))]; [None] where it raises:
    no match, or more digits than [int] takes *)
Definition member_key (x : string) : option N :=
  match Re.search _RAW_C x with
  | None => None
  | Some m =>
      match int_of_digits (Re.group_or_empty m 1) with
      | Ok n => Some n
      | Raise _ => None
      end
  end.

Fixpoint member_keys (l : list string) : option (list (N * string)) :=
  match l with
  | [] => Some []
  | x :: t =>
      match member_key x, member_keys t with
      | Some k, Some kt => Some ((k, x) :: kt)
      | _, _ => None
      end
  end.

(** [sorted] is stable: an element goes before the first one that is
    strictly greater among those that followed it *)
Fixpoint insert_sorted (x : N * string) (l : list (N * string)) : list (N * string) :=
  match l with
  | [] => [x]
  | y :: t => if (fst x <=? fst y)%N then x :: y :: t else y :: insert_sorted x t
  end.

Definition sort_by_key (l : list (N * string)) : list (N * string) :=
  List.fold_right insert_sorted [] l.

(** [req_members]; the keys are all computed before the sort *)
Definition sorted_members (zf : ZipFile) : option (list string) :=
  match member_keys (List.filter is_request_name (namelist zf)) with
  | Some l => Some (map snd (sort_by_key l))
  | None => None
  end.

(** [vals[:max_values]] *)
Definition slice_to {A} (k : Z) (l : list A) : list A :=
  if (0 <=? k)%Z then firstn (Z.to_nat k) l
  else firstn (List.length l - Z.to_nat (- k)) l.

Definition str_int (z : Z) : string := NilZero.string_of_int (Z.to_int z).

Definition param_part (max_values : Z) (kv : string * list string) : string :=
  let '(k, vals) := kv in
  let shown := slice_to max_values vals in
  let more :=
    if (max_values <? Z.of_nat (List.length vals))%Z
    then (" (외 " ++ str_int (Z.of_nat (List.length vals) - max_values) ++ "건)")%string
    else EmptyString in
  (k ++ " = [" ++ join ", " shown ++ "]" ++ more)%string.

Definition param_field (max_values : Z) (params : HttpUtils.odict (list string)) : string :=
  join "; " (map (param_part max_values) params).

Definition VULNERABLE : string := "취약".
Definition SOUND : string := "양호".

(** how the body of the loop ends for one request: [continue], the [pass]
    of a probable asset, or a row *)
Inductive session : Type :=
| Continue
| Asset
| Listed (r : Row).

Section ParseSaz.
Context `{PyEnv} `{PyLib} `{Collaborators}.

Variable max_values : Z.
Variable enable_menu_label : bool.
Variable menu_threshold : Q.
Variable save_menu_candidates : bool.
Variable outdir : option string.
Variable show_progress : bool.
Variable progress_every : Z.
Variable debug : bool.
(** [_MENU_LABEL_AVAILABLE]: whether the import of the labeller succeeded *)
Variable _MENU_LABEL_AVAILABLE : bool.

(** the inner [try] around [best_menu_for_url]: label and score text *)
Definition menu_label_of (menu_pool : option Pool) (url referer : string)
    : string * string :=
  match menu_pool with
  | Some pool =>
      if enable_menu_label && _MENU_LABEL_AVAILABLE
         && negb (bool_decide (pool = ∅)) then
        match best_menu_for_url url pool (Some referer) menu_threshold with
        | Ok (lbl, score, _) =>
            (default EmptyString lbl,
             if Qeq_bool score 0 then EmptyString else format_1f score)
        | Raise _ => (EmptyString, EmptyString)
        end
      else (EmptyString, EmptyString)
  | None => (EmptyString, EmptyString)
  end.

(** the body of the [try] of the request loop *)
Definition process_session (zf : ZipFile) (menu_pool : option Pool)
    (reqm mnum : string) : result session :=
  do data <- read zf reqm;
  let '(method, target, headers, body) := HttpUtils.parse_request data in
  if String.eqb (upper method) "CONNECT" || negb (nonempty target) then Ok Continue
  else
    let host := header2 headers "Host" "host" in
    let url :=
      if startswith target "http" then target
      else ("https://" ++ host ++ target)%string in
    let referer := header2 headers "Referer" "referer" in
    do asset <- Filters.is_probable_asset url (Some zf) (Some mnum);
    if asset then Ok Asset
    else
      do params <- Params.extract_params headers target body;
      do is_vulnerable <- is_marked_vulnerable_by_comment zf mnum;
      let '(menu_label, match_score) := menu_label_of menu_pool url referer in
      do ts <- extract_request_time_kst zf mnum;
      do breadcrumb_or_menu <-
        (if nonempty menu_label then Ok menu_label
         else if debug then HttpUtils.make_breadcrumb url
         else Ok EmptyString);
      let memo_val := if nonempty match_score && debug then match_score else EmptyString in
      Ok (Listed
            {| row_path := breadcrumb_or_menu;
               row_method := method;
               row_url := url;
               row_menu := menu_label;
               row_score := match_score;
               row_params := param_field max_values params;
               row_result := if is_vulnerable then VULNERABLE else SOUND;
               row_time := default EmptyString ts;
               row_memo := if debug then memo_val else EmptyString |}).

(** the loop [for idx, reqm in enumerate(req_members, 1)]: an exception of
    the body is caught and the loop goes on, one of [progress_update] is
    not *)
Fixpoint request_loop (zf : ZipFile) (menu_pool : option Pool) (total_req : nat)
    (idx : nat) (members : list string) (rows : list Row) : result (list Row) :=
  match members with
  | [] => Ok rows
  | reqm :: rest =>
      match Re.search _RAW_C reqm with
      | None => request_loop zf menu_pool total_req (S idx) rest rows
      | Some m =>
          match process_session zf menu_pool reqm (Re.group_or_empty m 1) with
          | Raise _ | Ok Continue =>
              request_loop zf menu_pool total_req (S idx) rest rows
          | Ok s =>
              let rows' := match s with Listed r => rows ++ [r] | _ => rows end in
              do _ <- (if show_progress
                       then Progress.progress_update idx total_req progress_every
                       else Ok tt);
              request_loop zf menu_pool total_req (S idx) rest rows'
          end
      end
  end.

(** [_pool_cb] *)
Definition _pool_cb (i total : nat) : result unit :=
  if show_progress then Progress.progress_update i total progress_every else Ok tt.

(** the first [try]: the candidate pool, [None] when anything failed *)
Definition menu_pool_of (zf : ZipFile) : option Pool :=
  if enable_menu_label && _MENU_LABEL_AVAILABLE then
    match
      (do pool <- build_candidate_pool_from_saz zf (Some _pool_cb) progress_every;
       do _ <- (match outdir with
                | Some dir =>
                    if save_menu_candidates && nonempty dir
                    then save_menu_candidates_json dir pool
                    else Ok tt
                | None => Ok tt
                end);
       Ok pool)
    with
    | Ok pool => Some pool
    | Raise _ => None
    end
  else None.

(** [parse_saz_data]; [saz] is what [zipfile.ZipFile(saz_path, 'r')] gives *)
Definition parse_saz_data (saz : result ZipFile) : list Row :=
  match saz with
  | Raise _ => []
  | Ok zf =>
      let menu_pool := menu_pool_of zf in
      match sorted_members zf with
      | None => []
      | Some req_members =>
          match request_loop zf menu_pool (List.length req_members) 1 req_members [] with
          | Ok rows => rows
          | Raise _ => []
          end
      end
  end.

End ParseSaz.

End SazParser.

(* ------------------------------------------------------------------ *)
(** * A sample environment and a sample archive

    Instances on which the functions above can be run.  [parse_qsl] is
    given for queries without [+] or [%] escapes, [json.loads] for a
    document that is one unsigned integer, [re.compile] for patterns of
    letters, digits and [/], which match themselves; the collaborators find
    no comment and no time. *)

Module Sample.

Definition sample_parse_qsl (qs : string) : result (list (string * string)) :=
  Ok (List.flat_map
        (fun piece =>
           if nonempty piece then
             [match Url.split_once "=" piece with
              | Some kv => kv
              | None => (piece, EmptyString)
              end]
           else [])
        (split_char "&" qs)).

Definition sample_json_loads (text : string) : result HttpUtils.pyval :=
  if nonempty text && forall_chars is_digit text
  then Ok (HttpUtils.PLeaf (HttpUtils.SInt (Z.of_N (decimal_N text 0%N))))
  else Raise ValueError.

Definition sample_re_compile (rx : string) : result (string -> bool) :=
  if forall_chars (fun c => is_alnum c || Ascii.eqb c "/") rx
  then Ok (fun s => contains s rx)
  else Raise ValueError.

(** one digit after the point, the nearest, ties to the even one *)
Definition sample_format_1f (q : Q) : string :=
  let n := (Qnum q * 10)%Z in
  let d := Z.pos (Qden q) in
  let lo := (n / d)%Z in
  let twice := (2 * (n mod d))%Z in
  let t := if (twice <? d)%Z then lo
           else if (d <? twice)%Z then (lo + 1)%Z
           else if Z.even lo then lo else (lo + 1)%Z in
  let a := Z.abs t in
  ((if (t <? 0)%Z then "-" else EmptyString)
   ++ SazParser.str_int (a / 10) ++ "." ++ SazParser.str_int (a mod 10))%string.

#[export] Instance py_lib : PyLib := {|
  parse_qsl := sample_parse_qsl;
  json_loads := sample_json_loads;
  re_compile := sample_re_compile;
  format_1f := sample_format_1f
|}.

#[export] Instance collaborators : Collaborators := {|
  is_marked_vulnerable_by_comment := fun _ _ => Ok false;
  extract_request_time_kst := fun _ _ => Ok None;
  save_menu_candidates_json := fun _ _ => Ok tt
|}.

(** Five sessions: a page with a menu, a GET with a repeated parameter, a
    tunnel, a script and a form post. *)
Definition sample_saz : ZipFile :=
  zip_of
    [("raw/1_c.txt",
      Ok (render_request "GET" "/home" "HTTP/1.1" [("Host", "ex.com")] EmptyString));
     ("raw/1_s.txt",
      Ok (render_request "HTTP/1.1" "200" "OK"
            [("Content-Type", "text/html")]
            "<nav><ul><li><a href='/board/list'>Board</a></li></ul></nav>"));
     ("raw/2_c.txt",
      Ok (render_request "GET" "/board/list?page=1&page=2&page=1" "HTTP/1.1"
            [("Host", "ex.com"); ("Referer", "https://ex.com/home")] EmptyString));
     ("raw/3_c.txt",
      Ok (render_request "CONNECT" "ex.com:443" "HTTP/1.1" [("Host", "ex.com")]
            EmptyString));
     ("raw/4_c.txt",
      Ok (render_request "GET" "/static/app.js" "HTTP/1.1" [("Host", "ex.com")]
            EmptyString));
     ("raw/5_c.txt",
      Ok (render_request "POST" "/login?next=home" "HTTP/1.1"
            [("Host", "ex.com");
             ("Content-Type", "application/x-www-form-urlencoded")]
            "user=kim&next=main"))].

(** a row for a GET of a URL, the other columns empty *)
Definition row_of (url : string) : Row :=
  mkRow EmptyString "GET" url EmptyString EmptyString EmptyString EmptyString
        EmptyString EmptyString.

End Sample.

(* ------------------------------------------------------------------ *)
(** * Notions used in the statements about parameters and rows *)

(** no key twice, and under every key a list of values that is not empty
    and holds none twice *)
Definition distinct_values (ps : HttpUtils.odict (list string)) : Prop :=
  List.NoDup (HttpUtils.od_keys ps)
  /\ forall k vs, HttpUtils.od_get ps k = Some vs -> vs <> [] /\ List.NoDup vs.

(** [v in params[k]] *)
Definition has_value (ps : HttpUtils.odict (list string)) (k v : string) : Prop :=
  exists vs, HttpUtils.od_get ps k = Some vs /\ In v vs.

(** the columns of a row that come from the request alone: method, URL,
    parameters, result and time *)
Definition row_core (r : Row) : string * string * string * string * string :=
  (row_method r, row_url r, row_params r, row_result r, row_time r).

(** how a session ends, up to the columns the labelling fills *)
Definition session_core (s : result SazParser.session)
    : option (option (string * string * string * string * string)) :=
  match s with
  | Raise _ | Ok SazParser.Continue => None
  | Ok SazParser.Asset => Some None
  | Ok (SazParser.Listed r) => Some (Some (row_core r))
  end.

(** the path that [should_ignore] compares with the prefixes *)
Definition ignore_path (p : Url.ParseResult) : string :=
  if nonempty (Url.path p) then Url.path p else "/".

(** the shape of a row of [parse_saz_data], given its switches *)
Definition row_ok (enable_menu_label debug : bool) (r : Row) : Prop :=
  SazParser.upper (row_method r) <> "CONNECT"
  /\ startswith (row_url r) "http" = true
  /\ (exists p, Url.urlparse (row_url r) = Ok p)
  /\ (row_result r = SazParser.VULNERABLE \/ row_result r = SazParser.SOUND)
  /\ (row_menu r <> EmptyString -> row_path r = row_menu r)
  /\ (debug = true -> row_path r <> EmptyString /\ row_memo r = row_score r)
  /\ (debug = false -> row_path r = row_menu r /\ row_memo r = EmptyString)
  /\ (enable_menu_label = false ->
      row_menu r = EmptyString /\ row_score r = EmptyString).

(* ================================================================== *)
(** * Properties *)

Local Open Scope Q_scope.

(** ** Scores *)

Lemma Qgtb_true (x y : Q) : Qgtb x y = true <-> y < x.
Proof.
  unfold Qgtb. rewrite negb_true_iff.
  split.
  - intros Hb. apply Qnot_le_lt. intros Hle.
    apply Qle_bool_iff in Hle. congruence.
  - intros Hlt. destruct (Qle_bool x y) eqn:E; [|reflexivity].
    apply Qle_bool_iff in E. exfalso. eapply Qlt_not_le; eauto.
Qed.

Lemma Qmake_nat_nonneg (n : nat) (p : positive) : 0 <= Qmake (Z.of_nat n) p.
Proof. unfold Qle. simpl. lia. Qed.

Lemma ratio_nonneg (a b : string) : 0 <= Difflib.ratio a b.
Proof.
  unfold Difflib.ratio, Difflib._calculate_ratio.
  destruct (_ =? 0)%nat.
  - discriminate.
  - apply Qmake_nat_nonneg.
Qed.

Lemma jaccard_nonneg (a b : list string) : 0 <= jaccard a b.
Proof. apply Qmake_nat_nonneg. Qed.

Lemma last_match_range (a b : list string) : 0 <= last_match a b <= 1.
Proof. unfold last_match. destruct (_ && _); split; discriminate. Qed.

Lemma suffix_range (a b : string) : 0 <= suffix a b <= 1.
Proof. unfold suffix. destruct (_ || _); split; discriminate. Qed.

Lemma blend_nonneg (a b : list string) : 0 <= blend a b.
Proof.
  unfold blend.
  pose proof (jaccard_nonneg a b) as Hj.
  pose proof (last_match_range a b) as [Hl _].
  pose proof (suffix_range (join "/" a) (join "/" b)) as [Hs _].
  pose proof (ratio_nonneg (join "/" a) (join "/" b)) as Hr.
  lra.
Qed.

Lemma path_similarity_range (a b : string) (s : Q) :
  path_similarity a b = Ok s -> 0 <= s <= 100.
Proof.
  unfold path_similarity.
  destruct (_ || _); [intros [= <-]; lra|].
  destruct (String.eqb a b); [intros [= <-]; lra|].
  destruct (_path_segs a) as [sa|]; simpl; [|discriminate].
  destruct (_path_segs b) as [sb|]; simpl; [|discriminate].
  destruct (_ && _); intros [= <-]; [lra|].
  pose proof (blend_nonneg sa sb).
  split.
  - apply Q.min_glb; lra.
  - apply Q.le_min_l.
Qed.

Lemma candidate_score_range (url tgt_last : string) (c : Candidate) (s : Q) :
  candidate_score url tgt_last c = Ok s -> 0 <= s <= 105.
Proof.
  destruct c as [label cand_url]. unfold candidate_score.
  destruct (path_similarity url cand_url) as [s0|] eqn:E; simpl; [|discriminate].
  apply path_similarity_range in E.
  destruct (_ && _); intros [= <-]; lra.
Qed.

(** ** The selection loop *)



(** An invariant of the loop: it holds of the initial triple and is kept by
    every replacement, which happens only for a candidate of the list whose
    score is strictly above the running best. *)
Lemma best_loop_invariant (P : MatchResult -> Prop) (url tgt_last : string) :
  forall (cs : list Candidate) (best r : MatchResult),
    P best ->
    (forall b label cand_url s,
        P b -> In (label, cand_url) cs ->
        candidate_score url tgt_last (label, cand_url) = Ok s ->
        score_of b < s ->
        P (Some label, s, Some cand_url)) ->
    best_loop url tgt_last cs best = Ok r ->
    P r.
Proof.
  induction cs as [|[label cand_url] rest IH]; intros best r Hbest Hstep Hrun.
  - simpl in Hrun. congruence.
  - cbn [best_loop] in Hrun.
    destruct (candidate_score url tgt_last (label, cand_url)) as [s|] eqn:Es;
      cbn [rbind] in Hrun; [|discriminate].
    destruct best as [[bl bs] bc].
    destruct (Qgtb s bs) eqn:Eg.
    + eapply IH; [| |exact Hrun].
      * eapply (Hstep (bl, bs, bc)); eauto.
        -- left; reflexivity.
        -- apply Qgtb_true in Eg. exact Eg.
      * intros. eapply Hstep; eauto. right; assumption.
    + eapply IH; [exact Hbest| |exact Hrun].
      intros. eapply Hstep; eauto. right; assumption.
Qed.

(** the result of [best_menu_for_url], once the early returns are passed *)
Lemma best_menu_for_url_inv (url : string) (pool : Pool) (referer_url : option string)
    (threshold : Q) (r : MatchResult) :
  best_menu_for_url url pool referer_url threshold = Ok r ->
  r = (None, 0, None) \/
  exists hostk cs segs best,
    _hostkey url = Ok hostk /\
    candidates_for hostk pool referer_url = Ok cs /\
    _path_segs url = Ok segs /\
    best_loop url (lower (List.last segs EmptyString)) cs (None, 0, None) = Ok best /\
    (r = best \/ (r = (None, score_of best, snd best) /\ ~ threshold <= score_of best)).
Proof.
  unfold best_menu_for_url.
  destruct (negb (nonempty url)); [intros [= <-]; left; reflexivity|].
  destruct (_hostkey url) as [hostk|]; cbn [rbind]; [|discriminate].
  destruct (candidates_for hostk pool referer_url) as [cs|] eqn:Ec; cbn [rbind];
    [|discriminate].
  destruct (is_nil cs); [intros [= <-]; left; reflexivity|].
  destruct (_path_segs url) as [segs|]; cbn [rbind]; [|discriminate].
  destruct (best_loop _ _ _ _) as [[[bl bs] bc]|] eqn:Eb; cbn [rbind]; [|discriminate].
  intros Hr. right. exists hostk, cs, segs, (bl, bs, bc).
  repeat split; auto.
  destruct (Qle_bool threshold bs) eqn:Et; injection Hr as <-.
  - left; reflexivity.
  - right. split; [reflexivity|].
    unfold score_of; simpl. intros Hle. apply Qle_bool_iff in Hle. congruence.
Qed.

(** ** Scenario B (C1) *)

(** C1, as stated, fails: on the pool of scenario B the resolver returns the
    label and URL of the claim, but with a score that is not 100. *)
Lemma scenario_B_score_is_not_100 :
  exists s, best_menu_for_url "https://ex.com/about" scenario_pool None 58
            = Ok (Some "[About]", s, Some "https://ex.com/about")
            /\ ~ s == 100.
Proof.
  exists 105. split.
  - vm_compute. reflexivity.
  - intros Heq. vm_compute in Heq. discriminate.
Qed.

(** C1 (amended): for every pool whose entry for host ex.com is exactly the
    single Candidate ("[About]", "https://ex.com/about"), the query
    "https://ex.com/about" with no referer and threshold 58 returns
    ("[About]", 105, "https://ex.com/about"): the identical-URL score 100
    plus the label bonus 5, since the last path segment "about" occurs in the
    label's last bracketed token. *)
Theorem scenario_B (pool : Pool) :
  pool !! "ex.com" = Some [("[About]", "https://ex.com/about")] ->
  best_menu_for_url "https://ex.com/about" pool None 58
  = Ok (Some "[About]", 105, Some "https://ex.com/about").
Proof.
  intros Hpool. unfold best_menu_for_url.
  replace (_hostkey "https://ex.com/about") with (Ok (A:=string) "ex.com")
    by (vm_compute; reflexivity).
  cbn [nonempty negb rbind]. unfold candidates_for. rewrite Hpool.
  vm_compute. reflexivity.
Qed.

Lemma scenario_B_witness :
  scenario_pool !! "ex.com" = Some [("[About]", "https://ex.com/about")]
  /\ best_menu_for_url "https://ex.com/about" scenario_pool None 58
     = Ok (Some "[About]", 105, Some "https://ex.com/about").
Proof.
  split; [reflexivity | apply (scenario_B scenario_pool); reflexivity].
Defined.

(** ** The range of the score (C2) *)

(** C2, as stated, fails: a match whose URL is identical to the query and
    whose label contains the last path segment scores 105. *)
Lemma score_can_exceed_100 :
  exists l s u,
    best_menu_for_url "https://shop.example/cart" shop_pool
      (Some "https://shop.example/") 58 = Ok (l, s, u)
    /\ ~ (0 <= s <= 100).
Proof.
  exists (Some "Cart"), 105, (Some "https://shop.example/cart"). split.
  - vm_compute. reflexivity.
  - intros [_ Hle]. vm_compute in Hle. apply Hle. reflexivity.
Qed.

Lemma best_loop_range (url tgt_last : string) (cs : list Candidate) (r : MatchResult) :
  best_loop url tgt_last cs (None, 0, None) = Ok r -> 0 <= score_of r <= 105.
Proof.
  apply (best_loop_invariant (fun r => 0 <= score_of r <= 105)).
  - unfold score_of; simpl. lra.
  - intros b label cand_url s _ _ Hs _. unfold score_of; simpl.
    eapply candidate_score_range; eauto.
Qed.

(** C2 (amended): for every query URL, pool, optional referer and threshold,
    the score of the triple returned by [best_menu_for_url] lies in
    [0, 105]: [path_similarity] is within [0, 100] and the label bonus adds
    at most 5 to it, without a cap. *)
Theorem best_menu_score_range (url : string) (pool : Pool)
    (referer_url : option string) (threshold : Q)
    (l : option string) (s : Q) (u : option string) :
  best_menu_for_url url pool referer_url threshold = Ok (l, s, u) ->
  0 <= s <= 105.
Proof.
  intros Hr. apply best_menu_for_url_inv in Hr.
  destruct Hr as [[= -> -> ->]|(hostk & cs & segs & best & _ & _ & _ & Hloop & Hres)].
  - lra.
  - apply best_loop_range in Hloop.
    destruct Hres as [<-|[[= -> -> ->] _]]; exact Hloop.
Qed.

Lemma best_menu_score_range_witness :
  best_menu_for_url "https://shop.example/cart" shop_pool
    (Some "https://shop.example/") 58
  = Ok (Some "Cart", 105, Some "https://shop.example/cart")
  /\ 0 <= 105 <= 105.
Proof.
  split; [vm_compute; reflexivity|].
  apply (best_menu_score_range "https://shop.example/cart" shop_pool
           (Some "https://shop.example/") 58 (Some "Cart") 105
           (Some "https://shop.example/cart")).
  vm_compute. reflexivity.
Defined.

(** ** Host scoping (C6) *)

(** where the Candidates of the candidate set come from *)
Lemma candidates_for_origin (hostk : string) (pool : Pool)
    (referer_url : option string) (cs : list Candidate) (c : Candidate) :
  candidates_for hostk pool referer_url = Ok cs ->
  In c cs ->
  (exists own, pool !! hostk = Some own /\ In c own)
  \/ (exists r rhostk extra,
         referer_url = Some r /\ _hostkey r = Ok rhostk
         /\ pool !! rhostk = Some extra /\ In c extra).
Proof.
  unfold candidates_for. intros Hcs Hin.
  assert (Hown : In c (default [] (pool !! hostk)) ->
                 exists own, pool !! hostk = Some own /\ In c own).
  { destruct (pool !! hostk) as [own|]; simpl; [eauto | contradiction]. }
  destruct referer_url as [r|]; [|injection Hcs as <-; left; auto].
  destruct (nonempty r); [|injection Hcs as <-; left; auto].
  destruct (_hostkey r) as [rhostk|] eqn:Er; cbn [rbind] in Hcs; [|discriminate].
  destruct (pool !! rhostk) as [extra|] eqn:Ep; [|injection Hcs as <-; left; auto].
  destruct (_ && _); injection Hcs as <-; [|left; auto].
  apply in_app_or in Hin. destruct Hin as [Hin|Hin]; [left; auto|].
  right. exists r, rhostk, extra. auto.
Qed.



Lemma best_loop_from_candidates (url tgt_last : string) (cs : list Candidate)
    (r : MatchResult) :
  best_loop url tgt_last cs (None, 0, None) = Ok r -> from_candidates cs r.
Proof.
  apply (best_loop_invariant (from_candidates cs)).
  - reflexivity.
  - intros b label cand_url s _ Hin _ _. simpl. exists label. auto.
Qed.

(** C6: the Candidate matched by [best_menu_for_url] is registered in the
    pool under the normalized host key of the query URL or under the
    normalized host key of the referer; the returned label, when there is
    one, is the label of that same Candidate.  A Candidate registered only
    under another host is therefore never returned. *)
Theorem best_menu_host_scoped (url : string) (pool : Pool)
    (referer_url : option string) (threshold : Q)
    (l : option string) (s : Q) (u : string) :
  best_menu_for_url url pool referer_url threshold = Ok (l, s, Some u) ->
  exists label,
    (l = None \/ l = Some label)
    /\ ((exists hostk own,
            _hostkey url = Ok hostk /\ pool !! hostk = Some own
            /\ In (label, u) own)
        \/ (exists r rhostk extra,
               referer_url = Some r /\ _hostkey r = Ok rhostk
               /\ pool !! rhostk = Some extra /\ In (label, u) extra)).
Proof.
  intros Hr. apply best_menu_for_url_inv in Hr.
  destruct Hr as [Hr|(hostk & cs & segs & best & Hk & Hcs & _ & Hloop & Hres)];
    [discriminate|].
  apply best_loop_from_candidates in Hloop.
  assert (Hfrom : exists label, In (label, u) cs /\ (l = None \/ l = Some label)).
  { destruct Hres as [<-|[Heq _]]; [exact Hloop|].
    destruct best as [[bl bs] [bu|]]; simpl in Heq; [|discriminate].
    injection Heq as -> -> ->.
    destruct Hloop as (label & Hin & _). exists label. auto. }
  destruct Hfrom as (label & Hin & Hl). exists label. split; [exact Hl|].
  destruct (candidates_for_origin _ _ _ _ _ Hcs Hin)
    as [(own & Hp & Hown)|(r & rhostk & extra & H1 & H2 & H3 & H4)].
  - left. exists hostk, own. auto.
  - right. exists r, rhostk, extra. auto.
Qed.

Lemma best_menu_host_scoped_witness :
  exists label,
    (Some "[Docs]" = None \/ Some "[Docs]" = Some label)
    /\ ((exists hostk own,
            _hostkey "https://b.com/docs" = Ok hostk
            /\ two_host_pool !! hostk = Some own
            /\ In (label, "https://a.com/docs") own)
        \/ (exists r rhostk extra,
               Some "https://a.com/" = Some r /\ _hostkey r = Ok rhostk
               /\ two_host_pool !! rhostk = Some extra
               /\ In (label, "https://a.com/docs") extra)).
Proof.
  apply (best_menu_host_scoped "https://b.com/docs" two_host_pool
           (Some "https://a.com/") 58 (Some "[Docs]") 105
           "https://a.com/docs").
  vm_compute. reflexivity.
Defined.

(** ** The zero-score edge (C10) *)

Lemma best_loop_all_zero (url tgt_last : string) :
  forall cs : list Candidate,
    (forall c, In c cs ->
       exists s, candidate_score url tgt_last c = Ok s /\ s == 0) ->
    best_loop url tgt_last cs (None, 0, None) = Ok (None, 0, None).
Proof.
  induction cs as [|[label cand_url] rest IH]; intros Hall; [reflexivity|].
  cbn [best_loop].
  destruct (Hall (label, cand_url)) as (s & Hs & Hz); [left; reflexivity|].
  rewrite Hs. cbn [rbind].
  destruct (Qgtb s 0) eqn:Eg.
  - apply Qgtb_true in Eg. rewrite Hz in Eg. exfalso. revert Eg. apply Qlt_irrefl.
  - apply IH. intros c Hc. apply Hall. right; exact Hc.
Qed.

(** a query and a candidate URL that differ as strings and both have an
    empty normalized segment sequence score 0, bonus included *)
Lemma rootless_pair_scores_zero (url label cand_url : string) :
  url <> EmptyString -> cand_url <> EmptyString -> url <> cand_url ->
  _path_segs url = Ok [] -> _path_segs cand_url = Ok [] ->
  candidate_score url (lower (List.last [] EmptyString)) (label, cand_url) = Ok 0.
Proof.
  intros Hu Hc Hne Hsu Hsc. unfold candidate_score, path_similarity.
  destruct url as [|c0 u']; [congruence|].
  destruct cand_url as [|c1 v']; [congruence|].
  cbn [nonempty negb orb].
  destruct (String.eqb_spec (String c0 u') (String c1 v')) as [Heq|_]; [congruence|].
  rewrite Hsu, Hsc. cbn [rbind is_nil andb].
  cbn [List.last lower nonempty andb]. reflexivity.
Qed.

(** C10: for a non-empty query URL whose host-scoped candidate set is
    non-empty, if the computed score of every candidate ([path_similarity]
    plus any bonus) is 0, then [best_menu_for_url] returns (None, 0, None),
    whatever the threshold: a candidate is recorded only when its score is
    strictly above the running best, which starts at 0. *)
Theorem best_menu_all_scores_zero (url : string) (pool : Pool)
    (referer_url : option string) (threshold : Q)
    (hostk : string) (cs : list Candidate) (segs : list string) :
  url <> EmptyString ->
  _hostkey url = Ok hostk ->
  candidates_for hostk pool referer_url = Ok cs ->
  cs <> [] ->
  _path_segs url = Ok segs ->
  (forall c, In c cs ->
     exists s, candidate_score url (lower (List.last segs EmptyString)) c = Ok s
               /\ s == 0) ->
  best_menu_for_url url pool referer_url threshold = Ok (None, 0, None).
Proof.
  intros Hu Hk Hcs Hne Hsegs Hall. unfold best_menu_for_url.
  destruct url as [|c0 u']; [congruence|]. cbn [nonempty negb].
  rewrite Hk. cbn [rbind]. rewrite Hcs. cbn [rbind].
  destruct cs as [|c cs']; [congruence|]. cbn [is_nil].
  rewrite Hsegs. cbn [rbind].
  rewrite (best_loop_all_zero _ _ _ Hall). cbn [rbind].
  destruct (Qle_bool threshold 0); reflexivity.
Qed.

Lemma best_menu_all_scores_zero_witness :
  best_menu_for_url "https://ex.com/" home_pool None 58 = Ok (None, 0, None).
Proof.
  apply (best_menu_all_scores_zero "https://ex.com/" home_pool None 58
           "ex.com" [("Home", "https://ex.com")] []).
  - discriminate.
  - vm_compute. reflexivity.
  - vm_compute. reflexivity.
  - discriminate.
  - vm_compute. reflexivity.
  - intros c [<-|[]]. exists 0. split; [vm_compute; reflexivity | reflexivity].
Defined.

(** ** Strings *)

Local Open Scope nat_scope.

Lemma append_cons (c : ascii) (a b : string) :
  (String c a ++ b)%string = String c (a ++ b)%string.
Proof. reflexivity. Qed.

Lemma append_nil_l (b : string) : (EmptyString ++ b)%string = b.
Proof. reflexivity. Qed.

Ltac str_simpl := rewrite ?append_cons, ?append_nil_l in *.

Lemma append_nil_r (s : string) : (s ++ EmptyString)%string = s.
Proof. induction s; str_simpl; congruence. Qed.

Lemma append_assoc (a b c : string) : ((a ++ b) ++ c)%string = (a ++ (b ++ c))%string.
Proof. induction a; str_simpl; congruence. Qed.

Lemma rev_acc_spec (s acc : string) : rev_acc s acc = (rev_acc s EmptyString ++ acc)%string.
Proof.
  revert acc. induction s as [|c t IH]; intros acc; simpl; [reflexivity|].
  rewrite (IH (String c acc)), (IH (String c EmptyString)).
  rewrite append_assoc. reflexivity.
Qed.

Lemma rev_cons (c : ascii) (t : string) :
  rev (String c t) = (rev t ++ String c EmptyString)%string.
Proof. unfold rev. simpl. apply rev_acc_spec. Qed.

Lemma rev_append (a b : string) : rev (a ++ b) = (rev b ++ rev a)%string.
Proof.
  induction a as [|c t IH]; str_simpl.
  - unfold rev at 2. simpl. rewrite append_nil_r. reflexivity.
  - rewrite !rev_cons, IH, append_assoc. reflexivity.
Qed.

Lemma rev_involutive (s : string) : rev (rev s) = s.
Proof.
  induction s as [|c t IH]; [reflexivity|].
  rewrite rev_cons, rev_append, IH. reflexivity.
Qed.

Lemma startswith_iff (s p : string) :
  startswith s p = true <-> exists r, s = (p ++ r)%string.
Proof.
  revert s. induction p as [|a p IH]; intros s.
  - split; [eauto | destruct s; reflexivity].
  - destruct s as [|b s]; simpl.
    + split; [discriminate | intros [r Hr]; discriminate].
    + rewrite andb_true_iff, Ascii.eqb_eq, IH. split.
      * intros [-> [r ->]]. eauto.
      * intros [r Hr]. str_simpl. injection Hr as -> ->. eauto.
Qed.

Lemma endswith_iff (t s : string) :
  endswith t s = true <-> exists p, t = (p ++ s)%string.
Proof.
  unfold endswith. rewrite startswith_iff. split.
  - intros [r Hr]. exists (rev r).
    rewrite <- (rev_involutive t), Hr, rev_append, rev_involutive. reflexivity.
  - intros [p ->]. exists (rev p). apply rev_append.
Qed.

Lemma drop_append (p s : string) : drop (String.length p) (p ++ s) = s.
Proof. induction p; str_simpl; simpl; auto. Qed.

Lemma take_drop (k : nat) (t : string) : (take k t ++ drop k t)%string = t.
Proof.
  revert t. induction k as [|k IH]; intros t; [reflexivity|].
  destruct t as [|c t]; simpl; [reflexivity|]. str_simpl. rewrite IH. reflexivity.
Qed.

Lemma length_append (a b : string) :
  String.length (a ++ b) = String.length a + String.length b.
Proof. induction a; str_simpl; simpl; auto. Qed.

Lemma is_suffix_of_iff (s t : string) :
  is_suffix_of s t = true <-> exists p, t = (p ++ s)%string.
Proof.
  unfold is_suffix_of. rewrite existsb_exists. split.
  - intros (k & _ & Hk). apply String.eqb_eq in Hk.
    exists (take k t). rewrite <- Hk. symmetry. apply take_drop.
  - intros [p ->]. exists (String.length p). split.
    + apply in_seq. rewrite length_append. lia.
    + rewrite drop_append. apply String.eqb_refl.
Qed.

Lemma forall_chars_append (p : ascii -> bool) (a b : string) :
  forall_chars p (a +:+ b) = forall_chars p a && forall_chars p b.
Proof.
  induction a as [|c t IH]; str_simpl; cbn [forall_chars]; [reflexivity|].
  rewrite IH. apply andb_assoc.
Qed.

Lemma forall_chars_impl (p q : ascii -> bool) (s : string) :
  (forall c, p c = true -> q c = true) ->
  forall_chars p s = true -> forall_chars q s = true.
Proof.
  intros Hpq. induction s as [|c t IH]; cbn [forall_chars]; [reflexivity|].
  rewrite !andb_true_iff. intros [Hc Ht]. auto.
Qed.

Lemma remove_chars_append (p : ascii -> bool) (a b : string) :
  remove_chars p (a +:+ b) = remove_chars p a +:+ remove_chars p b.
Proof.
  induction a as [|c t IH]; str_simpl; cbn [remove_chars]; [reflexivity|].
  destruct (p c); str_simpl; congruence.
Qed.

Lemma remove_chars_id (p : ascii -> bool) (s : string) :
  forall_chars (fun c => negb (p c)) s = true -> remove_chars p s = s.
Proof.
  induction s as [|c t IH]; cbn [forall_chars remove_chars]; [reflexivity|].
  rewrite andb_true_iff, negb_true_iff. intros [-> Ht]. f_equal. auto.
Qed.

Lemma take_append (a b : string) : take (String.length a) (a +:+ b) = a.
Proof. induction a as [|c t IH]; str_simpl; cbn [String.length take]; [destruct b|]; congruence. Qed.


Lemma host_char_plain (c : ascii) : host_char c = true -> url_special c = false.
Proof.
  destruct c as [[] [] [] [] [] [] [] []]; vm_compute; congruence.
Qed.

Lemma forall_chars_lstrip (p q : ascii -> bool) (s : string) :
  forall_chars p s = true -> forall_chars p (lstrip_by q s) = true.
Proof.
  induction s as [|c t IH]; cbn [lstrip_by forall_chars]; [reflexivity|].
  intros Hs. destruct (q c); [|exact Hs].
  apply andb_true_iff in Hs as [_ Ht]. auto.
Qed.

Lemma forall_chars_remove (p q : ascii -> bool) (s : string) :
  forall_chars p s = true -> forall_chars p (remove_chars q s) = true.
Proof.
  induction s as [|c t IH]; cbn [remove_chars forall_chars]; [reflexivity|].
  rewrite andb_true_iff. intros [Hc Ht]. destruct (q c); cbn [forall_chars]; auto.
  rewrite Hc. auto.
Qed.

Lemma forall_chars_drop (p : ascii -> bool) (k : nat) (s : string) :
  forall_chars p s = true -> forall_chars p (drop k s) = true.
Proof.
  revert s. induction k as [|k IH]; intros s Hs; [exact Hs|].
  destruct s as [|c t]; [reflexivity|]. cbn [drop].
  cbn [forall_chars] in Hs. apply andb_true_iff in Hs as [_ Ht]. auto.
Qed.

Lemma remove_chars_clean (p : ascii -> bool) (s : string) :
  forall_chars (fun c => negb (p c)) (remove_chars p s) = true.
Proof.
  induction s as [|c t IH]; [reflexivity|]. cbn [remove_chars].
  destruct (p c) eqn:Ec; [exact IH|]. cbn [forall_chars]. rewrite Ec, IH. reflexivity.
Qed.

Lemma endswith_is_suffix_of (t s : string) : endswith t s = is_suffix_of s t.
Proof.
  apply eq_true_iff_eq. rewrite endswith_iff, is_suffix_of_iff. reflexivity.
Qed.

Lemma mem_In (x : string) (l : list string) : mem x l = true <-> In x l.
Proof.
  unfold mem. rewrite existsb_exists. split.
  - intros (y & Hy & He). apply String.eqb_eq in He. congruence.
  - intros Hin. exists x. split; [exact Hin | apply String.eqb_refl].
Qed.

(** ** The similarity score (C3) *)

Lemma size_list_to_set_remove_dups (l : list string) :
  size (list_to_set l : gset string) = List.length (remove_dups l).
Proof.
  rewrite <- (size_list_to_set (C:=gset string) (remove_dups l))
    by apply NoDup_remove_dups.
  f_equal. apply set_eq. intros x.
  rewrite !elem_of_list_to_set, elem_of_remove_dups. reflexivity.
Qed.

Lemma jaccard_spec (A B : list string) : jaccard A B = spec_overlap A B.
Proof.
  unfold jaccard, spec_overlap.
  assert (Hi : (list_to_set A ∩ list_to_set B : gset string)
               = list_to_set (List.filter (fun x => mem x B) A)).
  { apply set_eq. intros x.
    rewrite elem_of_intersection, !elem_of_list_to_set, !list_elem_of_In.
    rewrite filter_In, mem_In. reflexivity. }
  assert (Hu : (list_to_set A ∪ list_to_set B : gset string) = list_to_set (A ++ B)).
  { apply set_eq. intros x.
    rewrite elem_of_union, !elem_of_list_to_set, !list_elem_of_In, in_app_iff.
    reflexivity. }
  rewrite Hi, Hu, !size_list_to_set_remove_dups. reflexivity.
Qed.

Lemma last_opt_last (l : list string) :
  last_opt l = if is_nil l then None else Some (List.last l EmptyString).
Proof.
  unfold last_opt.
  destruct l as [|x t] using rev_ind; [reflexivity|].
  rewrite rev_app_distr, last_last. simpl.
  destruct (t ++ [x]) eqn:E; [|reflexivity].
  apply app_eq_nil in E. destruct E; discriminate.
Qed.

Lemma last_match_spec (A B : list string) : last_match A B = spec_last_equal A B.
Proof.
  unfold last_match, spec_last_equal. rewrite !last_opt_last.
  destruct (is_nil A), (is_nil B); reflexivity.
Qed.

Lemma suffix_spec (a b : string) : suffix a b = spec_suffix_containment a b.
Proof.
  unfold suffix, spec_suffix_containment.
  rewrite !endswith_is_suffix_of. reflexivity.
Qed.

Lemma blend_spec (A B : list string) :
  blend A B
  = (spec_overlap A B * 40 + spec_last_equal A B * 20
     + spec_suffix_containment (join "/" A) (join "/" B) * 15
     + Difflib.ratio (join "/" A) (join "/" B) * 25)%Q.
Proof.
  unfold blend. rewrite jaccard_spec, last_match_spec, suffix_spec. reflexivity.
Qed.

(** C3, as stated, fails: two distinct URLs whose paths hold no segment score
    0 in the code, where the blend of the claim gives 0 + 0 + 15 + 25 = 40
    (the empty joined paths are suffixes of each other and have string
    similarity 1). *)
Lemma path_similarity_has_another_special_case :
  path_similarity "https://a/" "https://b/" = Ok 0%Q
  /\ spec_pathSimilarity false "https://a/" "https://b/" = Ok 40%Q
  /\ path_similarity "https://a/" "https://b/"
     <> spec_pathSimilarity false "https://a/" "https://b/".
Proof.
  split; [vm_compute; reflexivity|].
  split; [vm_compute; reflexivity|].
  vm_compute. discriminate.
Qed.

(** C3 (amended): [path_similarity] is 0 when either URL is empty, 100 when
    the two are the same string, 0 when both normalized segment sequences
    are empty, and otherwise the blend: 40 times the overlap of the two
    segment sets (distinct common segments over distinct segments, the
    denominator at least 1), plus 20 when both sequences have a last segment
    and these are equal, plus 15 when one joined path is a suffix of the
    other, plus 25 times the similarity ratio of the joined paths, capped
    at 100.  A URL that does not parse raises. *)
Theorem path_similarity_spec (a b : string) :
  path_similarity a b = spec_pathSimilarity true a b.
Proof.
  unfold path_similarity, spec_pathSimilarity.
  destruct a as [|c0 a']; [reflexivity|].
  destruct b as [|c1 b']; [reflexivity|].
  change (String.eqb (String c0 a') EmptyString) with false.
  change (String.eqb (String c1 b') EmptyString) with false.
  cbn [nonempty negb orb].
  destruct (String.eqb (String c0 a') (String c1 b')); [reflexivity|].
  destruct (_path_segs (String c0 a')) as [A|]; [|reflexivity].
  destruct (_path_segs (String c1 b')) as [B|]; [|reflexivity].
  cbn [rbind andb].
  destruct (is_nil A && is_nil B); [reflexivity|].
  rewrite blend_spec. reflexivity.
Qed.

(** ** Regular expressions: runs of one class *)

(** a greedy repetition over a string made of the class only reaches the
    end of the string first *)
Lemma rep_loop_greedy_all {X} (p : ascii -> bool) (k : string -> nat -> option ascii -> option X) :
  forall (s : string) (min po : nat) (pr : option ascii),
    forall_chars p s = true ->
    min <= String.length s ->
    (forall pr', exists x, k EmptyString (po + String.length s) pr' = Some x) ->
    exists x, Re.rep_loop true p min s po pr k = Some x.
Proof.
  induction s as [|c t IH]; intros min po pr Hall Hmin Hk.
  - simpl in *. assert (min = 0) as -> by lia. simpl.
    destruct (Hk pr) as [x Hx]. rewrite Nat.add_0_r in Hx. eauto.
  - simpl in Hall. apply andb_true_iff in Hall as [Hc Ht].
    cbn [Re.rep_loop]. rewrite Hc.
    destruct (IH (Nat.pred min) (S po) (Some c) Ht) as [x Hx].
    + simpl in Hmin. lia.
    + intros pr'. destruct (Hk pr') as [x Hx]. exists x.
      rewrite <- Hx. f_equal. simpl. lia.
    + rewrite Hx. eauto.
Qed.

Ltac greedy_to_end Hall :=
  match goal with
  | |- context [Re.rep_loop true ?p ?m ?s ?po ?pr ?k] =>
      let x := fresh "x" in
      let Hx := fresh "Hx" in
      destruct (rep_loop_greedy_all p k s m po pr Hall) as [x Hx];
      [ | | rewrite Hx; reflexivity]
  end.

Lemma matches_NUM (s : string) : purely_numeric s = true -> matches _NUM s = true.
Proof.
  unfold purely_numeric. intros H. apply andb_true_iff in H as [Hne Hall].
  unfold matches, Re.match_, Re.match_at, _NUM. cbn.
  greedy_to_end Hall.
  - destruct s; [discriminate | simpl; lia].
  - intros pr'. eexists. reflexivity.
Qed.

Lemma matches_HEX (s : string) : hex_string s = true -> matches _HEX s = true.
Proof.
  unfold hex_string. intros H. apply andb_true_iff in H as [Hlen Hall].
  apply Nat.leb_le in Hlen.
  unfold matches, Re.match_, Re.match_at, _HEX. cbn.
  greedy_to_end Hall.
  - exact Hlen.
  - intros pr'. eexists. reflexivity.
Qed.

(** ** Volatile segments (C8) *)

Lemma has_shape_cons_inv (p : ascii -> bool) (sh : list (ascii -> bool)) (s : string) :
  has_shape (p :: sh) s = true ->
  exists c t, s = String c t /\ p c = true /\ has_shape sh t = true.
Proof.
  destruct s as [|c t]; [discriminate|]. simpl. intros H.
  apply andb_true_iff in H as [Hc H]. eauto.
Qed.

Lemma has_shape_nil_inv (s : string) : has_shape [] s = true -> s = EmptyString.
Proof. destruct s; [reflexivity | discriminate]. Qed.

Ltac shape_inv H :=
  repeat (first
    [ let c := fresh "c" in
      let t := fresh "t" in
      let Hc := fresh "Hc" in
      apply has_shape_cons_inv in H as (c & t & -> & Hc & H)
    | apply has_shape_nil_inv in H as -> ]).

Lemma one_of_date_sep (c : ascii) : Re.one_of "-/" c = date_sep c.
Proof.
  unfold Re.one_of, has_char, date_sep. cbn [index_char].
  destruct (Ascii.eqb c "-"); [reflexivity|].
  destruct (Ascii.eqb c "/"); reflexivity.
Qed.

Lemma digit_not_sep (c : ascii) : is_digit c = true -> date_sep c = false.
Proof.
  intros Hd. unfold date_sep.
  destruct (Ascii.eqb_spec c "-") as [->|_]; [discriminate Hd|].
  destruct (Ascii.eqb_spec c "/") as [->|_]; [discriminate Hd|].
  reflexivity.
Qed.


Lemma sep_false_of_digit (c : ascii) : is_digit c = true -> Re.one_of "-/" c = false.
Proof. intros H. rewrite one_of_date_sep. apply digit_not_sep. exact H. Qed.

Lemma sep_true (c : ascii) : date_sep c = true -> Re.one_of "-/" c = true.
Proof. intros H. rewrite one_of_date_sep. exact H. Qed.

(** *** One step of the matcher, as equations *)

Section RunLemmas.
Context {X : Type} (inp : string).
Implicit Types (k : Re.st -> option X).

Lemma run_Seq a b s k :
  Re.run inp (Re.Seq a b) s k = Re.run inp a s (fun s' => Re.run inp b s' k).
Proof. reflexivity. Qed.

Lemma run_Alt a b s k :
  Re.run inp (Re.Alt a b) s k
  = match Re.run inp a s k with Some x => Some x | None => Re.run inp b s k end.
Proof. reflexivity. Qed.

Lemma run_Eps s k : Re.run inp Re.Eps s k = k s.
Proof. reflexivity. Qed.

Lemma run_Chr_true p c t po pr cs k :
  p c = true ->
  Re.run inp (Re.Chr p) (Re.mkSt po pr (String c t) cs) k
  = k (Re.mkSt (S po) (Some c) t cs).
Proof. intros H. simpl. rewrite H. reflexivity. Qed.

Lemma run_Chr_false p c t po pr cs k :
  p c = false ->
  Re.run inp (Re.Chr p) (Re.mkSt po pr (String c t) cs) k = None.
Proof. intros H. simpl. rewrite H. reflexivity. Qed.

Lemma run_Chr_nil p po pr cs k :
  Re.run inp (Re.Chr p) (Re.mkSt po pr EmptyString cs) k = None.
Proof. reflexivity. Qed.

Lemma run_Group n a po pr rs cs k :
  Re.run inp (Re.Group n a) (Re.mkSt po pr rs cs) k
  = Re.run inp a (Re.mkSt po pr rs cs)
      (fun s' => k (Re.mkSt (Re.pos s') (Re.prev s') (Re.rest s')
                      ((n, (po, Re.pos s')) :: Re.caps s'))).
Proof. reflexivity. Qed.

Lemma run_Bos pr rs cs k :
  Re.run inp Re.Bos (Re.mkSt 0 pr rs cs) k = k (Re.mkSt 0 pr rs cs).
Proof. reflexivity. Qed.

Lemma run_Eos_nil po pr cs k :
  Re.run inp Re.Eos (Re.mkSt po pr EmptyString cs) k
  = k (Re.mkSt po pr EmptyString cs).
Proof. reflexivity. Qed.
End RunLemmas.

Ltac run_step :=
  first
    [ rewrite run_Seq
    | rewrite run_Eps
    | rewrite run_Bos
    | rewrite run_Eos_nil
    | rewrite run_Chr_nil
    | rewrite run_Group
    | rewrite run_Chr_true by (first [assumption | apply sep_true; assumption])
    | rewrite run_Chr_false by (apply sep_false_of_digit; assumption)
    | rewrite run_Alt ];
  cbv beta iota; cbn [Re.pos Re.prev Re.rest Re.caps].

Lemma matches_UUID (s : string) : is_uuid s = true -> matches _UUID s = true.
Proof.
  unfold is_uuid, uuid_shape. cbn [repeat app]. intros H. shape_inv H.
  unfold matches, Re.match_, Re.match_at, _UUID.
  cbn [Re.seqs Re.times]. unfold Re.chr.
  repeat run_step. reflexivity.
Qed.

Lemma matches_DATE (s : string) : date_shaped s = true -> matches _DATE s = true.
Proof.
  unfold date_shaped, date_shapes. cbn [repeat app existsb]. intros H.
  repeat (apply orb_true_iff in H as [H|H]); try discriminate H;
    shape_inv H; unfold matches, Re.match_, Re.match_at, _DATE;
    cbn [Re.seqs Re.times]; unfold Re.opt; repeat run_step; reflexivity.
Qed.

Lemma volatile_nonempty (s : string) : volatile s = true -> nonempty s = true.
Proof.
  destruct s; [|reflexivity]. intros H. vm_compute in H. discriminate.
Qed.

Lemma norm_seg_volatile (seg : string) :
  volatile (strip seg) = true -> _norm_seg seg = "{id}".
Proof.
  intros Hv. unfold _norm_seg.
  rewrite (volatile_nonempty _ Hv). cbn [negb].
  unfold volatile in Hv.
  apply orb_true_iff in Hv as [Hv|Hv];
    [apply orb_true_iff in Hv as [Hv|Hv];
     [apply orb_true_iff in Hv as [Hv|Hv]|]|].
  - rewrite (matches_NUM _ Hv). reflexivity.
  - rewrite (matches_UUID _ Hv), orb_true_r. reflexivity.
  - rewrite (matches_HEX _ Hv), !orb_true_r. reflexivity.
  - rewrite (matches_DATE _ Hv), !orb_true_r. reflexivity.
Qed.

Lemma map_filter_comm {A B} (f : A -> B) (p : B -> bool) (l : list A) :
  map f (List.filter (fun x => p (f x)) l) = List.filter p (map f l).
Proof.
  induction l as [|x t IH]; [reflexivity|]. simpl.
  destruct (p (f x)); simpl; congruence.
Qed.

(** C8: for every URL, [_path_segs] splits the path of the URL (the root
    path when it is empty) on the slash, normalizes every segment with
    [_norm_seg], drops the segments that normalize to the empty string and
    keeps the others in order; and [_norm_seg] turns every segment that,
    once stripped, is purely numeric, a UUID, a hexadecimal string of at
    least 8 digits or date-shaped into the marker {id}.  In particular the
    two example URLs have the same segments: user, {id}, edit. *)
Theorem path_segs_normalized :
  (forall u : string,
      _path_segs u
      = (do p <- Url.urlparse u;
         Ok (List.filter nonempty
               (map _norm_seg
                  (split_char "/" (if nonempty (Url.path p) then Url.path p else "/"))))))
  /\ (forall seg : string, volatile (strip seg) = true -> _norm_seg seg = "{id}")
  /\ _path_segs "https://h/user/123/edit" = Ok ["user"; "{id}"; "edit"]
  /\ _path_segs "https://h/user/999/edit" = Ok ["user"; "{id}"; "edit"].
Proof.
  split; [|split; [|split]].
  - intros u. unfold _path_segs.
    destruct (Url.urlparse u) as [p|]; [|reflexivity]. cbn [rbind].
    rewrite (map_filter_comm _norm_seg nonempty). reflexivity.
  - exact norm_seg_volatile.
  - vm_compute. reflexivity.
  - vm_compute. reflexivity.
Qed.

Lemma path_segs_normalized_witness :
  volatile (strip " 2024-01-15 ") = true /\ _norm_seg " 2024-01-15 " = "{id}".
Proof.
  split; [vm_compute; reflexivity|].
  apply (proj1 (proj2 path_segs_normalized)). vm_compute. reflexivity.
Defined.

(** ** Deduplication (C5) *)

Lemma cand_eqb_eq (x y : Candidate) : cand_eqb x y = true <-> x = y.
Proof.
  destruct x as [a b], y as [c d]. unfold cand_eqb. simpl.
  rewrite andb_true_iff, !String.eqb_eq. split; [intros [-> ->]|intros [= -> ->]]; auto.
Qed.

Lemma cand_eqb_refl (x : Candidate) : cand_eqb x x = true.
Proof. apply cand_eqb_eq. reflexivity. Qed.

Lemma seen_In (k : Candidate) (seen : list Candidate) :
  existsb (cand_eqb k) seen = true <-> In k seen.
Proof.
  rewrite existsb_exists. split.
  - intros (y & Hy & He). apply cand_eqb_eq in He. congruence.
  - intros Hin. exists k. split; [exact Hin | apply cand_eqb_refl].
Qed.

Lemma filter_filter_and {A} (p q : A -> bool) (l : list A) :
  List.filter p (List.filter q l) = List.filter (fun x => q x && p x) l.
Proof.
  induction l as [|x t IH]; [reflexivity|]. simpl.
  destruct (q x); simpl; [destruct (p x)|]; congruence.
Qed.

(** the loop with its [seen] set keeps the first occurrences that are not
    in the set already *)
Lemma dedup_loop_spec (c seen : list Candidate) :
  dedup_loop c seen
  = List.filter (fun k => negb (existsb (cand_eqb k) seen)) (first_occurrences c).
Proof.
  revert seen. induction c as [|k t IH]; intros seen; [reflexivity|].
  cbn [dedup_loop first_occurrences List.filter].
  destruct (existsb (cand_eqb k) seen) eqn:Ek; cbn [negb].
  - rewrite IH, filter_filter_and. apply filter_ext_in. intros y _.
    destruct (cand_eqb k y) eqn:Ey; [|reflexivity].
    apply cand_eqb_eq in Ey. subst y. rewrite Ek. reflexivity.
  - f_equal. rewrite IH, filter_filter_and. apply filter_ext_in. intros y _.
    cbn [existsb]. rewrite negb_orb.
    replace (cand_eqb y k) with (cand_eqb k y); [reflexivity|].
    apply eq_true_iff_eq. rewrite !cand_eqb_eq. split; congruence.
Qed.

Lemma dedup_candidates_spec (c : list Candidate) :
  dedup_candidates c = first_occurrences c.
Proof.
  unfold dedup_candidates. rewrite dedup_loop_spec.
  apply forallb_filter_id. apply forallb_forall. reflexivity.
Qed.

Lemma first_occurrences_In (l : list Candidate) (x : Candidate) :
  In x (first_occurrences l) <-> In x l.
Proof.
  induction l as [|y t IH]; [reflexivity|].
  cbn [first_occurrences]. simpl. rewrite filter_In, IH.
  destruct (cand_eqb y x) eqn:E.
  - apply cand_eqb_eq in E. subst. tauto.
  - simpl. split; [tauto|]. intros [->|Hin]; [left; reflexivity|right; auto].
Qed.

Lemma first_occurrences_NoDup (l : list Candidate) : List.NoDup (first_occurrences l).
Proof.
  induction l as [|y t IH]; [constructor|].
  cbn [first_occurrences]. constructor.
  - rewrite filter_In. intros [_ H]. rewrite cand_eqb_refl in H. discriminate.
  - apply List.NoDup_filter. exact IH.
Qed.

(** ** The pool builder *)



Lemma grow_nil (entry : option (list Candidate)) : grow entry [] = entry.
Proof. destruct entry as [cs|]; simpl; [rewrite app_nil_r|]; reflexivity. Qed.

Lemma grow_grow (entry : option (list Candidate)) (a b : list Candidate) :
  grow (grow entry a) b = grow entry (a ++ b).
Proof.
  destruct entry as [cs|]; simpl.
  - rewrite <- app_assoc. reflexivity.
  - destruct a; simpl; reflexivity.
Qed.

Section PoolProperties.
Context `{PyEnv}.

Ltac split_matches H :=
  repeat match type of H with
         | context [match ?x with _ => _ end] => destruct x eqn:?; try discriminate H
         end.

(** an exchange that contributes has at least one Candidate *)
Lemma exchange_candidates_nonempty (zf : ZipFile) (sname key : string)
    (cands : list Candidate) :
  exchange_candidates zf sname = Ok (Some (key, cands)) -> cands <> [].
Proof.
  unfold exchange_candidates, rbind. intros Hx.
  split_matches Hx.
  injection Hx as <- <-.
  match goal with Hn : is_nil _ = false |- _ => intros ->; discriminate Hn end.
Qed.

Lemma exchange_step_lookup (zf : ZipFile) (sname : string) (pool : Pool) (h : string) :
  match exchange_body zf sname pool with Ok p => p | Raise _ => pool end !! h
  = grow (pool !! h) (contribution zf h sname).
Proof.
  unfold exchange_body, contribution.
  destruct (exchange_candidates zf sname) as [[[key cands]|]|e] eqn:Ex; cbn [rbind];
    try (rewrite grow_nil; reflexivity).
  apply exchange_candidates_nonempty in Ex.
  unfold pool_extend.
  destruct (String.eqb_spec key h) as [->|Hne].
  - rewrite lookup_insert_eq.
    destruct (pool !! h) as [cs|]; simpl; [reflexivity|].
    destruct cands; [congruence | reflexivity].
  - rewrite lookup_insert_ne by exact Hne. rewrite grow_nil. reflexivity.
Qed.

(** the pool the loop leaves: every entry grown by the contributions of
    the names, in order *)
Lemma pool_loop_lookup (zf : ZipFile) (progress : option (nat -> nat -> result unit))
    (progress_every : Z) (total : nat) :
  forall (names : list string) (i : nat) (pool pool' : Pool),
    pool_loop zf progress progress_every total i names pool = Ok pool' ->
    forall h, pool' !! h = grow (pool !! h) (List.flat_map (contribution zf h) names).
Proof.
  induction names as [|sname rest IH]; intros i pool pool' Hrun h.
  - simpl in Hrun. injection Hrun as <-. simpl. rewrite grow_nil. reflexivity.
  - cbn [pool_loop] in Hrun.
    destruct (progress_tick progress progress_every i total); cbn [rbind] in Hrun;
      [|discriminate].
    rewrite (IH _ _ _ Hrun h), exchange_step_lookup, grow_grow. reflexivity.
Qed.

(** the loop does not raise when the progress callback does not *)
Lemma pool_loop_total (zf : ZipFile) (progress : option (nat -> nat -> result unit))
    (progress_every : Z) (total : nat) :
  (forall i, progress_tick progress progress_every i total = Ok tt) ->
  forall (names : list string) (i : nat) (pool : Pool),
    exists pool', pool_loop zf progress progress_every total i names pool = Ok pool'.
Proof.
  intros Hcb. induction names as [|sname rest IH]; intros i pool.
  - eexists. reflexivity.
  - cbn [pool_loop]. rewrite Hcb. cbn [rbind]. apply IH.
Qed.

Lemma build_lookup (zf : ZipFile) (progress : option (nat -> nat -> result unit))
    (progress_every : Z) (pool : Pool) (h : string) :
  build_candidate_pool_from_saz zf progress progress_every = Ok pool ->
  pool !! h = if is_nil (discovered zf h) then None
              else Some (first_occurrences (discovered zf h)).
Proof.
  unfold build_candidate_pool_from_saz.
  destruct (pool_loop _ _ _ _ _ _ _) as [raw|] eqn:Hloop; cbn [rbind]; [|discriminate].
  intros [= <-]. rewrite lookup_fmap, (pool_loop_lookup _ _ _ _ _ _ _ _ Hloop h).
  rewrite lookup_empty. cbn [grow]. fold (discovered zf h).
  destruct (is_nil (discovered zf h)); [reflexivity|].
  simpl. rewrite dedup_candidates_spec. reflexivity.
Qed.

(** C5: every sequence of the pool returned by
    [build_candidate_pool_from_saz] holds no Candidate twice; it is the
    sequence of the Candidates discovered for its host key, in discovery
    order, with every Candidate kept at its first occurrence only. *)
Theorem pool_entries_deduplicated (zf : ZipFile)
    (progress : option (nat -> nat -> result unit)) (progress_every : Z)
    (pool : Pool) (h : string) (cs : list Candidate) :
  build_candidate_pool_from_saz zf progress progress_every = Ok pool ->
  pool !! h = Some cs ->
  List.NoDup cs
  /\ cs = first_occurrences (discovered zf h)
  /\ (forall c, In c cs <-> In c (discovered zf h)).
Proof.
  intros Hb Hl. rewrite (build_lookup _ _ _ _ h Hb) in Hl.
  destruct (is_nil (discovered zf h)); [discriminate|].
  injection Hl as <-. split; [|split].
  - apply first_occurrences_NoDup.
  - reflexivity.
  - intros c. apply first_occurrences_In.
Qed.

End PoolProperties.

Lemma pool_entries_deduplicated_witness :
  List.NoDup [("About", "https://ex.com/about"); ("X", "https://ex.com/x");
              ("Y", "https://ex.com/y")]
  /\ [("About", "https://ex.com/about"); ("X", "https://ex.com/x");
      ("Y", "https://ex.com/y")]
     = first_occurrences (discovered sample_zip "ex.com")
  /\ (forall c,
        In c [("About", "https://ex.com/about"); ("X", "https://ex.com/x");
              ("Y", "https://ex.com/y")]
        <-> In c (discovered sample_zip "ex.com")).
Proof.
  apply (pool_entries_deduplicated sample_zip None 200
           (dedup_candidates
              <$> {[ "ex.com" := discovered sample_zip "ex.com" ]})).
  - vm_compute. reflexivity.
  - vm_compute. reflexivity.
Defined.

(** ** Failure isolation (C7) *)

Section Isolation.
Context `{PyEnv}.

Lemma contribution_In (zf : ZipFile) (h sname : string) (c : Candidate) :
  In c (contribution zf h sname) <->
  exists cands, exchange_candidates zf sname = Ok (Some (h, cands)) /\ In c cands.
Proof.
  unfold contribution.
  destruct (exchange_candidates zf sname) as [[[key cands]|]|e]; simpl.
  - destruct (String.eqb_spec key h) as [->|Hne].
    + split; [eauto|]. intros (cs & [= <-] & Hin). exact Hin.
    + split; [contradiction|]. intros (cs & [= Hk _] & _). congruence.
  - split; [contradiction|]. intros (cs & Hd & _). discriminate.
  - split; [contradiction|]. intros (cs & Hd & _). discriminate.
Qed.

Lemma discovered_In (zf : ZipFile) (h : string) (c : Candidate) :
  In c (discovered zf h) <->
  exists sname cands,
    In sname (namelist zf) /\ is_response_name sname = true
    /\ exchange_candidates zf sname = Ok (Some (h, cands)) /\ In c cands.
Proof.
  unfold discovered. rewrite in_flat_map. split.
  - intros (sname & Hs & Hc). apply filter_In in Hs as [Hn Hr].
    apply contribution_In in Hc as (cands & Hx & Hin). eauto 8.
  - intros (sname & cands & Hn & Hr & Hx & Hin). exists sname. split.
    + apply filter_In. auto.
    + apply contribution_In. eauto.
Qed.

Lemma pool_loop_raise (zf : ZipFile) (progress : option (nat -> nat -> result unit))
    (progress_every : Z) (total : nat) (e : exn) :
  forall (names : list string) (i : nat) (pool : Pool),
    pool_loop zf progress progress_every total i names pool = Raise e ->
    exists j, progress_tick progress progress_every j total = Raise e.
Proof.
  induction names as [|sname rest IH]; intros i pool Hrun; [discriminate|].
  cbn [pool_loop] in Hrun.
  destruct (progress_tick progress progress_every i total) as [u|e'] eqn:Et;
    cbn [rbind] in Hrun.
  - eapply IH; eauto.
  - injection Hrun as <-. eauto.
Qed.

(** C7: an exception raised while one exchange is processed never leaves
    [build_candidate_pool_from_saz]: the only exceptions that leave it are
    those of the progress callback in the [finally] clause.  When the
    callback does not raise, the function returns a pool whatever happens
    while single exchanges are processed: an exchange whose processing
    raises is skipped, the pool holds, under its key, every Candidate of
    every exchange that was processed to the end, and it holds nothing
    else. *)
Theorem exchange_failures_isolated (zf : ZipFile)
    (progress : option (nat -> nat -> result unit)) (progress_every : Z) :
  (forall e,
      build_candidate_pool_from_saz zf progress progress_every = Raise e ->
      exists i total, progress_tick progress progress_every i total = Raise e)
  /\ ((forall i total, progress_tick progress progress_every i total = Ok tt) ->
      exists pool : Pool,
        build_candidate_pool_from_saz zf progress progress_every = Ok pool
        /\ (forall sname key cands c,
               In sname (namelist zf) -> is_response_name sname = true ->
               exchange_candidates zf sname = Ok (Some (key, cands)) ->
               In c cands ->
               exists cs, pool !! key = Some cs /\ In c cs)
        /\ (forall key cs c,
               pool !! key = Some cs -> In c cs ->
               exists sname cands,
                 In sname (namelist zf) /\ is_response_name sname = true
                 /\ exchange_candidates zf sname = Ok (Some (key, cands))
                 /\ In c cands)).
Proof.
  split.
  { intros e. unfold build_candidate_pool_from_saz.
    destruct (pool_loop _ _ _ _ _ _ _) as [raw|e'] eqn:Hloop; cbn [rbind];
      [discriminate|].
    intros [= <-]. apply pool_loop_raise in Hloop as [j Hj]. eauto. }
  intros Hcb.
  destruct (pool_loop_total zf progress progress_every
              (List.length (List.filter is_response_name (namelist zf)))
              (fun i => Hcb i _)
              (List.filter is_response_name (namelist zf)) 1 ∅) as [raw Hraw].
  exists (dedup_candidates <$> raw).
  assert (Hb : build_candidate_pool_from_saz zf progress progress_every
               = Ok (dedup_candidates <$> raw)).
  { unfold build_candidate_pool_from_saz. rewrite Hraw. reflexivity. }
  split; [exact Hb|]. split.
  - intros sname key cands c Hn Hr Hx Hin.
    rewrite (build_lookup _ _ _ _ key Hb).
    assert (Hd : In c (discovered zf key)) by (apply discovered_In; eauto 8).
    destruct (discovered zf key) as [|d ds] eqn:Ed; [contradiction|].
    cbn [is_nil]. eexists. split; [reflexivity|].
    apply first_occurrences_In. exact Hd.
  - intros key cs c Hl Hin.
    rewrite (build_lookup _ _ _ _ key Hb) in Hl.
    destruct (is_nil (discovered zf key)); [discriminate|].
    injection Hl as <-. rewrite first_occurrences_In in Hin.
    apply discovered_In. exact Hin.
Qed.

End Isolation.

(** in the sample archive the second exchange raises, and the Candidates of
    the first and of the third are in the pool *)
Lemma exchange_failures_isolated_witness :
  exchange_candidates sample_zip "raw/2_s.txt" = Raise BadZipFile
  /\ exists pool : Pool,
       build_candidate_pool_from_saz sample_zip None 200 = Ok pool
       /\ (forall sname key cands c,
              In sname (namelist sample_zip) -> is_response_name sname = true ->
              exchange_candidates sample_zip sname = Ok (Some (key, cands)) ->
              In c cands ->
              exists cs, pool !! key = Some cs /\ In c cs)
       /\ (forall key cs c,
              pool !! key = Some cs -> In c cs ->
              exists sname cands,
                In sname (namelist sample_zip) /\ is_response_name sname = true
                /\ exchange_candidates sample_zip sname = Ok (Some (key, cands))
                /\ In c cands).
Proof.
  split; [vm_compute; reflexivity|].
  apply (proj2 (exchange_failures_isolated sample_zip None 200)).
  intros i total. reflexivity.
Defined.

(** ** Loops that may raise *)


Lemma nonempty_true (s : string) : nonempty s = true <-> s <> EmptyString.
Proof. destruct s; simpl; split; congruence. Qed.

(** ** URLs of the Candidates (C4) *)

Lemma forall_chars_take (p : ascii -> bool) (k : nat) (s : string) :
  forall_chars p s = true -> forall_chars p (take k s) = true.
Proof.
  revert s. induction k as [|k IH]; intros s Hs; [reflexivity|].
  destruct s as [|c t]; [reflexivity|]. cbn [take forall_chars] in *.
  apply andb_true_iff in Hs as [Hc Ht]. rewrite Hc. cbn [andb]. auto.
Qed.

(** what comes before the first delimiter holds none *)
Lemma delim_index_take (r : string) :
  Url.delim_index (take (Url.delim_index r) r)
  = String.length (take (Url.delim_index r) r).
Proof.
  induction r as [|c t IH]; [reflexivity|]. cbn [Url.delim_index].
  destruct ((code c =? 47) || (code c =? 63) || (code c =? 35)) eqn:Ec; [reflexivity|].
  cbn [take Url.delim_index String.length]. rewrite Ec, IH. reflexivity.
Qed.

Lemma delim_index_append (n T : string) :
  Url.delim_index n = String.length n ->
  Url.delim_index (n +:+ T) = String.length n + Url.delim_index T.
Proof.
  induction n as [|c t IH]; str_simpl; [reflexivity|].
  cbn [Url.delim_index String.length].
  destruct ((code c =? 47) || (code c =? 63) || (code c =? 35)); [discriminate|].
  intros [= Ht]. rewrite (IH Ht). reflexivity.
Qed.

Lemma delim_first_append (a b : string) :
  a <> EmptyString -> Url.delim_index a = 0 -> Url.delim_index (a +:+ b) = 0.
Proof.
  destruct a as [|c t]; [congruence|]. intros _. str_simpl. cbn [Url.delim_index].
  destruct ((code c =? 47) || (code c =? 63) || (code c =? 35)); [reflexivity|discriminate].
Qed.

Lemma delim_first_remove (T : string) :
  Url.delim_index T = 0 -> Url.delim_index (remove_chars Url.unsafe_byte T) = 0.
Proof.
  destruct T as [|c t]; [reflexivity|]. cbn [Url.delim_index remove_chars].
  destruct ((code c =? 47) || (code c =? 63) || (code c =? 35)) eqn:Ec; [|discriminate].
  intros _. replace (Url.unsafe_byte c) with false.
  - cbn [Url.delim_index]. rewrite Ec. reflexivity.
  - symmetry. revert Ec. clear.
    destruct c as [[] [] [] [] [] [] [] []]; vm_compute; congruence.
Qed.

(** the rest that [split_scheme] leaves is an end of the URL *)
Lemma split_scheme_drop (url default : string) :
  exists k, snd (Url.split_scheme url default) = drop k url.
Proof.
  unfold Url.split_scheme.
  destruct (index_char ":" url) as [[|i]|]; try (exists 0; reflexivity).
  destruct url as [|c0 u]; [exists 0; reflexivity|].
  destruct (is_alpha c0 && _); [exists (S (S i)) | exists 0]; reflexivity.
Qed.

(** a network location that [urlsplit] returns has passed its checks *)
Lemma urlsplit_netloc (url default s n u q f : string) :
  Url.urlsplit url default = Ok (s, n, u, q, f) ->
  n <> EmptyString -> accepted_netloc n.
Proof.
  unfold Url.urlsplit.
  set (url' := remove_chars Url.unsafe_byte (lstrip_by Url.c0_or_space url)).
  set (d' := remove_chars Url.unsafe_byte (strip_by Url.c0_or_space default)).
  assert (Hclean : forall_chars (fun c => negb (Url.unsafe_byte c)) url' = true)
    by apply remove_chars_clean.
  destruct (split_scheme_drop url' d') as [k Hk].
  destruct (Url.split_scheme url' d') as [s0 u0]. cbn [snd] in Hk. subst u0.
  destruct (startswith (drop k url') "//").
  - unfold Url._splitnetloc.
    set (r := drop 2 (drop k url')).
    set (n0 := take (Url.delim_index r) r).
    cbv beta iota zeta.
    destruct ((has_char "[" n0 && negb (has_char "]" n0))
              || (has_char "]" n0 && negb (has_char "[" n0))) eqn:E1; [discriminate|].
    assert (Hn0 : (has_char "[" n0 && has_char "]" n0 = true ->
                   Url._check_bracketed_netloc n0 = Ok tt) ->
                  accepted_netloc n0).
    { intros Hc. split; [|split; [|split; [exact E1 | exact Hc]]].
      - apply forall_chars_take. unfold r. do 2 apply forall_chars_drop. exact Hclean.
      - apply delim_index_take. }
    destruct (has_char "[" n0 && has_char "]" n0) eqn:E2.
    + destruct (Url._check_bracketed_netloc n0) as [[]|] eqn:Ec;
        cbn [rbind]; [|discriminate].
      destruct (match Url.split_once "#" _ with Some p => p | None => _ end) as [u1 fr].
      destruct (match Url.split_once "?" u1 with Some p => p | None => _ end) as [u2 qq].
      intros [= <- <- <- <- <-] _. apply Hn0. reflexivity.
    + cbn [rbind].
      destruct (match Url.split_once "#" _ with Some p => p | None => _ end) as [u1 fr].
      destruct (match Url.split_once "?" u1 with Some p => p | None => _ end) as [u2 qq].
      intros [= <- <- <- <- <-] _. apply Hn0. discriminate.
  - cbn [rbind].
    destruct (match Url.split_once "#" _ with Some p => p | None => _ end) as [u1 fr].
    destruct (match Url.split_once "?" u1 with Some p => p | None => _ end) as [u2 qq].
    intros [= <- <- <- <- <-] Hn. congruence.
Qed.

Lemma urlparse_with_netloc (url default : string) (p : Url.ParseResult) :
  Url.urlparse_with url default = Ok p ->
  Url.netloc p <> EmptyString -> accepted_netloc (Url.netloc p).
Proof.
  unfold Url.urlparse_with.
  destruct (Url.urlsplit url default) as [[[[[s n] u] q] f]|] eqn:E;
    cbn [rbind]; [|discriminate].
  destruct (if mem s Url.uses_params && has_char ";" u then _ else _) as [u' pa].
  intros [= <-]. cbn [Url.netloc]. eapply urlsplit_netloc. exact E.
Qed.

(** what [urlunparse] writes after a scheme and a network location is
    empty or begins with a delimiter *)
Lemma urlunparse_shape (s n p pa q f : string) :
  s <> EmptyString -> n <> EmptyString ->
  exists T, Url.urlunparse s n p pa q f = s +:+ "://" +:+ n +:+ T
            /\ Url.delim_index T = 0.
Proof.
  intros Hs Hn. unfold Url.urlunparse, Url.urlunsplit.
  apply nonempty_true in Hs, Hn. rewrite Hs, Hn. cbn [orb].
  set (u := if nonempty pa then (p ++ ";" ++ pa)%string else p).
  set (u' := if nonempty u && negb (startswith u "/") then ("/" ++ u)%string else u).
  assert (Hu' : Url.delim_index u' = 0).
  { unfold u'. destruct u as [|c t]; [reflexivity|]. cbn [nonempty andb].
    destruct (startswith (String c t) "/") eqn:E; [|reflexivity].
    cbn [startswith] in E. apply andb_prop in E as [E _].
    apply Ascii.eqb_eq in E. subst c. reflexivity. }
  assert (Hd : forall x c, Url.delim_index (String c x) = 0 ->
                 Url.delim_index (u' +:+ String c x) = 0).
  { intros x c Hx. destruct u' as [|c' t'] eqn:Eu; [exact Hx|].
    apply delim_first_append; [discriminate | exact Hu']. }
  destruct (nonempty q), (nonempty f).
  - exists (u' +:+ "?" +:+ q +:+ "#" +:+ f). split; [rewrite ?append_assoc; reflexivity|].
    apply (Hd _ "?"%char). reflexivity.
  - exists (u' +:+ "?" +:+ q). split; [rewrite ?append_assoc; reflexivity|].
    apply (Hd _ "?"%char). reflexivity.
  - exists (u' +:+ "#" +:+ f). split; [rewrite ?append_assoc; reflexivity|].
    apply (Hd _ "#"%char). reflexivity.
  - exists u'. split; [rewrite ?append_assoc; reflexivity | exact Hu'].
Qed.

(** [urlparse] reads back the scheme and the network location that
    [urlunparse] wrote *)
Lemma urlparse_urlunparse (s n p pa q f : string) :
  mem s ["http"; "https"] = true ->
  n <> EmptyString -> accepted_netloc n ->
  exists r, Url.urlparse (Url.urlunparse s n p pa q f) = Ok r
            /\ Url.scheme r = s /\ Url.netloc r = n.
Proof.
  intros Hs Hn (Hclean & Hdelim & Hbr & Hcheck).
  assert (Hs0 : s <> EmptyString).
  { apply mem_In in Hs. simpl in Hs. destruct Hs as [<-|[<-|[]]]; discriminate. }
  destruct (urlunparse_shape s n p pa q f Hs0 Hn) as (T & -> & HT).
  set (y := remove_chars Url.unsafe_byte T).
  assert (Hy : Url.delim_index y = 0) by (apply delim_first_remove; exact HT).
  assert (Hrm : remove_chars Url.unsafe_byte (n +:+ T) = n +:+ y).
  { rewrite remove_chars_append. f_equal. apply remove_chars_id. exact Hclean. }
  assert (Hd : Url.delim_index (n +:+ y) = String.length n).
  { rewrite delim_index_append by exact Hdelim. rewrite Hy. lia. }
  assert (Hsplit : Url.split_scheme (s +:+ ":" +:+ "//" +:+ n +:+ y) EmptyString
                   = (s, "//" +:+ n +:+ y)).
  { apply mem_In in Hs. simpl in Hs. destruct Hs as [<-|[<-|[]]]; reflexivity. }
  assert (Hpre : remove_chars Url.unsafe_byte
                   (lstrip_by Url.c0_or_space (s +:+ "://" +:+ n +:+ T))
                 = s +:+ ":" +:+ "//" +:+ n +:+ y).
  { apply mem_In in Hs. simpl in Hs. destruct Hs as [<-|[<-|[]]].
    - change (remove_chars Url.unsafe_byte
               (lstrip_by Url.c0_or_space ("http" +:+ "://" +:+ n +:+ T)))
        with ("http://" +:+ remove_chars Url.unsafe_byte (n +:+ T)).
      rewrite Hrm. reflexivity.
    - change (remove_chars Url.unsafe_byte
               (lstrip_by Url.c0_or_space ("https" +:+ "://" +:+ n +:+ T)))
        with ("https://" +:+ remove_chars Url.unsafe_byte (n +:+ T)).
      rewrite Hrm. reflexivity. }
  unfold Url.urlparse, Url.urlparse_with, Url.urlsplit.
  rewrite Hpre.
  change (remove_chars Url.unsafe_byte (strip_by Url.c0_or_space EmptyString))
    with EmptyString.
  rewrite Hsplit.
  replace (startswith ("//" +:+ n +:+ y) "//") with true
    by (symmetry; apply startswith_iff; eexists; reflexivity).
  unfold Url._splitnetloc.
  change (drop 2 ("//" +:+ n +:+ y)) with (n +:+ y).
  rewrite Hd, take_append, drop_append. cbv beta iota zeta. rewrite Hbr.
  destruct (has_char "[" n && has_char "]" n) eqn:E2.
  - rewrite (Hcheck eq_refl). cbn [rbind].
    destruct (match Url.split_once "#" y with Some p => p | None => _ end) as [u1 fr].
    destruct (match Url.split_once "?" u1 with Some p => p | None => _ end) as [u2 qq].
    cbn [rbind].
    destruct (if mem s Url.uses_params && has_char ";" u2 then _ else _) as [u3 pa'].
    eexists. split; [reflexivity|]. split; reflexivity.
  - cbn [rbind].
    destruct (match Url.split_once "#" y with Some p => p | None => _ end) as [u1 fr].
    destruct (match Url.split_once "?" u1 with Some p => p | None => _ end) as [u2 qq].
    cbn [rbind].
    destruct (if mem s Url.uses_params && has_char ";" u2 then _ else _) as [u3 pa'].
    eexists. split; [reflexivity|]. split; reflexivity.
Qed.

Lemma http_schemes (s : string) :
  mem s ["http"; "https"] = true ->
  s <> EmptyString /\ mem s Url.uses_relative = true /\ mem s Url.uses_netloc = true.
Proof.
  intros H. apply mem_In in H. simpl in H.
  destruct H as [<-|[<-|[]]]; (split; [discriminate|split; reflexivity]).
Qed.

(** a URL without a network location has no host *)
Lemma hostname_needs_netloc (p : Url.ParseResult) :
  Url.hostname p <> EmptyString -> Url.netloc p <> EmptyString.
Proof.
  intros Hh Hn. apply Hh. unfold Url.hostname. rewrite Hn. reflexivity.
Qed.

(** resolution against an absolute http(s) base with a network location
    keeps the scheme and the network location of the base as long as the
    reference brings neither another scheme nor a network location of its
    own *)
Lemma urljoin_keeps_authority (base ref url : string) (b r : Url.ParseResult) :
  Url.urljoin base ref = Ok url ->
  ref <> EmptyString ->
  Url.urlparse base = Ok b ->
  mem (Url.scheme b) ["http"; "https"] = true ->
  Url.netloc b <> EmptyString ->
  Url.urlparse_with ref (Url.scheme b) = Ok r ->
  Url.scheme r = Url.scheme b ->
  Url.netloc r = EmptyString ->
  exists p, Url.urlparse url = Ok p
            /\ Url.scheme p = Url.scheme b /\ Url.netloc p = Url.netloc b.
Proof.
  intros Hj Href Hb Hs Hn Hr Hsame Hnone.
  destruct (http_schemes _ Hs) as (Hs0 & Hrel & Hnet).
  pose proof (urlparse_with_netloc _ _ _ Hb Hn) as Hacc.
  unfold Url.urljoin in Hj.
  destruct base as [|c0 base'].
  { vm_compute in Hb. injection Hb as <-. contradiction. }
  destruct ref as [|c1 ref']; [contradiction|].
  cbn [nonempty negb] in Hj.
  unfold Url.urlparse in Hb. rewrite Hb in Hj. cbn [rbind] in Hj.
  rewrite Hr in Hj. cbn [rbind] in Hj.
  rewrite Hsame, String.eqb_refl, Hrel, Hnet, Hnone in Hj.
  cbn [negb orb andb nonempty] in Hj.
  destruct (negb (nonempty (Url.path r)) && negb (nonempty (Url.params r)));
    injection Hj as <-; apply urlparse_urlunparse; assumption.
Qed.

(** C4, the last sentence: on an absolute http or https base with a host, a
    reference without a scheme of its own and without a network location of
    its own resolves to a URL with the scheme and the host of the base *)
Lemma urljoin_absolute (base ref url : string) (b r : Url.ParseResult) :
  Url.urljoin base ref = Ok url ->
  ref <> EmptyString ->
  Url.urlparse base = Ok b ->
  mem (Url.scheme b) ["http"; "https"] = true ->
  Url.hostname b <> EmptyString ->
  Url.urlparse_with ref (Url.scheme b) = Ok r ->
  Url.scheme r = Url.scheme b ->
  Url.netloc r = EmptyString ->
  carries_scheme_and_host url (Url.scheme b)
  /\ exists p, Url.urlparse url = Ok p /\ Url.netloc p = Url.netloc b.
Proof.
  intros Hj Href Hb Hs Hh Hr Hsame Hnone.
  destruct (urljoin_keeps_authority _ _ _ _ _ Hj Href Hb Hs
              (hostname_needs_netloc _ Hh) Hr Hsame Hnone) as (p & Hp & Hsch & Hnl).
  split.
  - exists p. split; [exact Hp|]. split; [exact Hsch|].
    unfold Url.hostname in *. rewrite Hnl. exact Hh.
  - exists p. split; assumption.
Qed.


Section MinerProperties.
Context `{PyEnv}.
Variables html current_url : string.










End MinerProperties.

Section TreeProperties.
Context `{PyEnv}.
Variables html current_url : string.







End TreeProperties.


(** a reference that brings its own network location keeps it, host or
    not: resolved against [https://ex.com/], [//:80/x] is a URL with a port
    and no host *)
Lemma port_only_candidate_has_no_host :
  extract_menu_candidates_from_html port_only_doc "https://ex.com/"
  = Ok [("P", "https://:80/x")]
  /\ ~ carries_scheme_and_host "https://:80/x" "https".
Proof.
  split; [vm_compute; reflexivity|].
  intros (p & Hp & _ & Hh). vm_compute in Hp. injection Hp as <-.
  apply Hh. reflexivity.
Qed.

(** the last sentence on two bases: a page in a directory, and a host
    written as a bracketed address with a port *)
Example relative_reference_keeps_host :
  (Url.urljoin "https://ex.com/app/" "../about?x=1" = Ok "https://ex.com/about?x=1"
   /\ carries_scheme_and_host "https://ex.com/about?x=1" "https")
  /\ (Url.urljoin "http://[::1]:8080/a" "b" = Ok "http://[::1]:8080/b"
      /\ carries_scheme_and_host "http://[::1]:8080/b" "http").
Proof.
  split.
  - split; [vm_compute; reflexivity|].
    refine (proj1 (urljoin_absolute "https://ex.com/app/" "../about?x=1" _
                     (Url.mkParse "https" "ex.com" "/app/" EmptyString EmptyString EmptyString)
                     (Url.mkParse "https" EmptyString "../about" EmptyString "x=1" EmptyString)
                     _ _ _ _ _ _ _ _));
      try (vm_compute; reflexivity); vm_compute; discriminate.
  - split; [vm_compute; reflexivity|].
    refine (proj1 (urljoin_absolute "http://[::1]:8080/a" "b" _
                     (Url.mkParse "http" "[::1]:8080" "/a" EmptyString EmptyString EmptyString)
                     (Url.mkParse "http" EmptyString "b" EmptyString EmptyString EmptyString)
                     _ _ _ _ _ _ _ _));
      try (vm_compute; reflexivity); vm_compute; discriminate.
Qed.


(** on a relative [<base href>] the miner resolves against the base alone *)
Lemma relative_base_candidate :
  extract_menu_candidates_from_html "<base href='/app/'><a href='x'>X</a>"
    "https://ex.com/"
  = Ok [("X", "/app/x")].
Proof. vm_compute. reflexivity. Qed.

(** the guard against script links is case sensitive *)
Lemma uppercase_script_candidate :
  extract_menu_candidates_from_html "<a href='JavaScript:void(0)'>Menu</a>"
    "https://ex.com/"
  = Ok [("Menu", "JavaScript:void(0)")].
Proof. vm_compute. reflexivity. Qed.

(** ** Determinism of the miner (C9) *)

Lemma rflat_mapM_perm {A B} (f : A -> result (list B)) (l1 l2 : list A) :
  Permutation l1 l2 ->
  forall a, rflat_mapM f l1 = Ok a ->
            exists b, rflat_mapM f l2 = Ok b /\ Permutation a b.
Proof.
  induction 1 as [|x l l' Hp IH|x y l|l l' l'' Hp1 IH1 Hp2 IH2]; intros a Ha.
  - simpl in *. eauto.
  - cbn [rflat_mapM] in *.
    destruct (f x) as [ys|]; cbn [rbind] in *; [|discriminate].
    destruct (rflat_mapM f l) as [zs|]; cbn [rbind] in *; [|discriminate].
    injection Ha as <-.
    destruct (IH zs eq_refl) as (b & -> & Hb). cbn [rbind].
    eexists. split; [reflexivity|]. apply Permutation_app_head. exact Hb.
  - cbn [rflat_mapM] in *.
    destruct (f y) as [ys|]; cbn [rbind] in *; [|discriminate].
    destruct (f x) as [xs|]; cbn [rbind] in *; [|discriminate].
    destruct (rflat_mapM f l) as [zs|]; cbn [rbind] in *; [|discriminate].
    injection Ha as <-.
    eexists. split; [reflexivity|].
    rewrite !app_assoc. apply Permutation_app_tail. apply Permutation_app_comm.
  - destruct (IH1 a Ha) as (b & Hb & Hab).
    destruct (IH2 b Hb) as (c & Hc & Hbc).
    exists c. split; [exact Hc|]. eapply perm_trans; eauto.
Qed.

Lemma flat_map_perm_pointwise {A B} (f g : A -> list B) (l : list A) :
  (forall x, Permutation (f x) (g x)) ->
  Permutation (List.flat_map f l) (List.flat_map g l).
Proof.
  intros Hfg. induction l as [|x t IH]; simpl; [constructor|].
  apply Permutation_app; auto.
Qed.

Lemma first_occurrences_perm (c1 c2 : list Candidate) :
  Permutation c1 c2 -> Permutation (first_occurrences c1) (first_occurrences c2).
Proof.
  intros Hp. apply Permutation.NoDup_Permutation; try apply first_occurrences_NoDup.
  intros x. rewrite !first_occurrences_In.
  split; apply Permutation_in; [exact Hp | symmetry; exact Hp].
Qed.

Lemma is_nil_perm {A} (l1 l2 : list A) : Permutation l1 l2 -> is_nil l1 = is_nil l2.
Proof.
  intros Hp. destruct l1, l2; try reflexivity.
  - apply Permutation_nil in Hp. discriminate.
  - symmetry in Hp. apply Permutation_nil in Hp. discriminate.
Qed.

Section Orders.
Variable E : PyEnv.
Variables order1 order2 : list string -> list string.
Hypothesis same_elements : forall l, Permutation (order1 l) (order2 l).
Variables html current_url : string.

Lemma onclick_anchor_perm (fn1 fn2 : list (string * string)) (m : Re.mtch) :
  Permutation fn1 fn2 ->
  Permutation (@onclick_anchor_candidates E fn1 m) (@onclick_anchor_candidates E fn2 m).
Proof.
  intros Hp. unfold onclick_anchor_candidates. cbv zeta.
  destruct (negb (nonempty (_attr_get _ "onclick"))); [constructor|].
  apply Permutation_flat_map. exact Hp.
Qed.

Lemma onclick_function_perm (l1 : list Candidate) :
  @_extract_onclick_function_candidates (with_set_order E order1) html current_url
  = Ok l1 ->
  exists l2,
    @_extract_onclick_function_candidates (with_set_order E order2) html current_url
    = Ok l2
    /\ Permutation l1 l2.
Proof.
  unfold _extract_onclick_function_candidates. cbn [set_order with_set_order].
  destruct (negb (nonempty html)); [intros [= <-]; eauto|].
  destruct (is_nil (Re.findall1 _ONCLICK_FUNC_CALL html)); [intros [= <-]; eauto|].
  cbv zeta. intros Hrun.
  destruct (fn_url_of html current_url (order1 _)) as [fn1|] eqn:E1;
    cbn [rbind] in Hrun; [|discriminate].
  destruct (rflat_mapM_perm _ _ _ (same_elements _) _ E1) as (fn2 & E2 & Hfn).
  unfold fn_url_of in E1, E2 |- *. rewrite E2. cbn [rbind].
  rewrite <- (is_nil_perm _ _ Hfn).
  destruct (is_nil fn1); injection Hrun as <-; [eauto|].
  eexists. split; [reflexivity|].
  apply flat_map_perm_pointwise. intros m. apply onclick_anchor_perm. exact Hfn.
Qed.

(** What the order of a set cannot change: between two interpreters that
    differ in the order in which a set of strings is visited (the string
    hash seed), the miner returns on the same document and page URL in both
    or raises in both, and the two sequences are permutations of each
    other. *)
Theorem extraction_determined_up_to_order (l1 : list Candidate) :
  @extract_menu_candidates_from_html (with_set_order E order1) html current_url
  = Ok l1 ->
  exists l2,
    @extract_menu_candidates_from_html (with_set_order E order2) html current_url
    = Ok l2
    /\ Permutation l1 l2.
Proof.
  unfold extract_menu_candidates_from_html.
  change (@extract_menu_tree_candidates (with_set_order E order1) html current_url)
    with (@extract_menu_tree_candidates E html current_url).
  change (@extract_menu_tree_candidates (with_set_order E order2) html current_url)
    with (@extract_menu_tree_candidates E html current_url).
  change (@_extract_anchor_candidates (with_set_order E order1) html current_url)
    with (@_extract_anchor_candidates E html current_url).
  change (@_extract_anchor_candidates (with_set_order E order2) html current_url)
    with (@_extract_anchor_candidates E html current_url).
  destruct (@extract_menu_tree_candidates E html current_url) as [es|];
    cbn [rbind]; [|discriminate].
  destruct (@_extract_anchor_candidates E html current_url) as [anchors|];
    cbn [rbind]; [|discriminate].
  unfold _extract_non_a_candidates.
  change (@non_a_pattern_candidates (with_set_order E order1) html current_url)
    with (@non_a_pattern_candidates E html current_url).
  change (@non_a_pattern_candidates (with_set_order E order2) html current_url)
    with (@non_a_pattern_candidates E html current_url).
  destruct (@non_a_pattern_candidates E html current_url) as [pats|];
    cbn [rbind]; [|discriminate].
  destruct (@_extract_onclick_function_candidates (with_set_order E order1)
              html current_url) as [fn1|] eqn:E1; cbn [rbind]; [|discriminate].
  destruct (onclick_function_perm _ E1) as (fn2 & -> & Hfn). cbn [rbind].
  intros [= <-]. eexists. split; [reflexivity|].
  rewrite !dedup_candidates_spec. apply first_occurrences_perm.
  apply Permutation_app_head. apply Permutation_app_head.
  unfold _apply_pathlabel. apply Permutation_map.
  apply Permutation_app_head. exact Hfn.
Qed.

End Orders.

(** C9: the code does not keep the order the claim asks for.  The result
    is not a function of the document and the page URL alone: when an anchor
    calls two functions that both navigate, its two Candidates come in the
    order in which [set(_ONCLICK_FUNC_CALL.findall(html))] is visited, and
    that order changes with the hash seed of the interpreter; every other
    scan of the miner and both loops that remove duplicates keep the order
    of the document.  On this document the two orders give two different
    sequences. *)
Lemma extraction_depends_on_set_order :
  @extract_menu_candidates_from_html py_env two_calls_doc "https://ex.com/"
  = Ok [("A", "https://ex.com/f"); ("A", "https://ex.com/b"); ("B", "https://ex.com/b")]
  /\ @extract_menu_candidates_from_html py_env_rev two_calls_doc "https://ex.com/"
     = Ok [("A", "https://ex.com/b"); ("A", "https://ex.com/f"); ("B", "https://ex.com/b")]
  /\ @extract_menu_candidates_from_html py_env two_calls_doc "https://ex.com/"
     <> @extract_menu_candidates_from_html py_env_rev two_calls_doc "https://ex.com/".
Proof.
  split; [vm_compute; reflexivity|].
  split; [vm_compute; reflexivity|].
  vm_compute. discriminate.
Qed.

Lemma extraction_determined_up_to_order_witness :
  exists l2,
    @extract_menu_candidates_from_html
      (with_set_order py_env (fun l => List.rev (Reference.distinct l)))
      two_calls_doc "https://ex.com/" = Ok l2
    /\ Permutation
         [("A", "https://ex.com/f"); ("A", "https://ex.com/b"); ("B", "https://ex.com/b")]
         l2.
Proof.
  apply (extraction_determined_up_to_order py_env Reference.distinct
           (fun l => List.rev (Reference.distinct l))
           (fun l => Permutation_rev (Reference.distinct l))
           two_calls_doc "https://ex.com/").
  vm_compute. reflexivity.
Defined.

(* ------------------------------------------------------------------ *)
(** ** The remaining scenarios of the specification, run on the model *)

(** scenario A: the anchor of a [gnb] navigation list becomes a bracketed
    Candidate *)
Example scenario_A :
  extract_menu_candidates_from_html
    "<nav class='gnb'><ul><li><a href='/about'>About</a></li></ul></nav>"
    "https://ex.com/"
  = Ok [("[About]", "https://ex.com/about")].
Proof. vm_compute. reflexivity. Qed.

(** scenario C: an unrelated query gets no label, with the score and the
    URL of the best Candidate still reported *)
Example scenario_C :
  exists s,
    best_menu_for_url "https://ex.com/contact" scenario_pool None 58
    = Ok (None, s, Some "https://ex.com/about")
    /\ (s < 58)%Q.
Proof.
  eexists. split.
  - vm_compute. reflexivity.
  - reflexivity.
Qed.

(** a URL is as similar to itself as can be, and nothing is similar to the
    empty URL *)
Example similarity_extremes :
  path_similarity "https://h/x" "https://h/x" = Ok 100%Q
  /\ path_similarity EmptyString "https://h/x" = Ok 0%Q.
Proof. split; vm_compute; reflexivity. Qed.

(** shared structure scores above an unrelated path *)
Example structure_beats_unrelated :
  exists s1 s2,
    path_similarity "https://a/shop/items/42" "https://a/shop/items/99" = Ok s1
    /\ path_similarity "https://a/shop/items/42" "https://a/blog/post/1" = Ok s2
    /\ (s2 < s1)%Q.
Proof.
  do 2 eexists. split; [| split].
  - vm_compute. reflexivity.
  - vm_compute. reflexivity.
  - reflexivity.
Qed.

(** a function named in an anchor's [onclick] is resolved through the
    script that defines it *)
Example onclick_function_resolution :
  extract_menu_candidates_from_html
    "<a onclick='go()'>Shop</a><script>function go(){location.href='/shop';}</script>"
    "https://ex.com/"
  = Ok [("Shop", "https://ex.com/shop")].
Proof. vm_compute. reflexivity. Qed.

(* ================================================================== *)
(** * Further properties of the code *)

(** ** The resolver: which candidate wins *)

Local Open Scope Q_scope.

(** The loop returns the running best it started from when no candidate
    scores strictly above it; otherwise it returns the first candidate whose
    score is the highest of the list. *)
Lemma best_loop_first_maximum (url tgt_last : string) :
  forall (cs : list Candidate) (best r : MatchResult),
    best_loop url tgt_last cs best = Ok r ->
    (r = best
     /\ Forall (fun c => exists sc, candidate_score url tgt_last c = Ok sc
                                    /\ sc <= score_of best) cs)
    \/ (exists pre label u post s,
           cs = pre ++ (label, u) :: post
           /\ r = (Some label, s, Some u)
           /\ candidate_score url tgt_last (label, u) = Ok s
           /\ score_of best < s
           /\ Forall (fun c => exists sc, candidate_score url tgt_last c = Ok sc
                                          /\ sc < s) pre
           /\ Forall (fun c => exists sc, candidate_score url tgt_last c = Ok sc
                                          /\ sc <= s) post).
Proof.
  induction cs as [|[label cand_url] rest IH]; intros best r Hrun.
  - simpl in Hrun. injection Hrun as <-. left. split; [reflexivity | constructor].
  - cbn [best_loop] in Hrun.
    destruct (candidate_score url tgt_last (label, cand_url)) as [s0|] eqn:Es;
      cbn [rbind] in Hrun; [|discriminate].
    destruct best as [[bl bs] bc].
    destruct (Qgtb s0 bs) eqn:Eg.
    + apply Qgtb_true in Eg.
      destruct (IH _ _ Hrun) as [[-> Hall]|(pre & l & u & post & s & -> & -> & Hs & Hlt & Hpre & Hpost)].
      * right. exists [], label, cand_url, rest, s0.
        repeat split; auto.
      * right. exists ((label, cand_url) :: pre), l, u, post, s.
        unfold score_of in Hlt; simpl in Hlt.
        repeat split; auto.
        -- unfold score_of; simpl. lra.
        -- constructor; [|exact Hpre]. exists s0. split; [exact Es | exact Hlt].
    + assert (Hle : s0 <= bs).
      { destruct (Qlt_le_dec bs s0) as [Hlt|Hle]; [|exact Hle].
        apply Qgtb_true in Hlt. congruence. }
      destruct (IH _ _ Hrun) as [[-> Hall]|(pre & l & u & post & s & -> & -> & Hs & Hlt & Hpre & Hpost)].
      * left. split; [reflexivity|]. constructor; [|exact Hall].
        exists s0. split; [exact Es | exact Hle].
      * right. exists ((label, cand_url) :: pre), l, u, post, s.
        unfold score_of in Hlt; simpl in Hlt.
        repeat split; auto.
        constructor; [|exact Hpre]. exists s0. split; [exact Es | lra].
Qed.

(** X1: when [best_menu_for_url] reports a matched URL, it is that of the
    first Candidate, in the order own host then referer host, whose score
    ([path_similarity] plus bonus) is the highest of the candidate set: every
    Candidate before it scores strictly less, every Candidate after it scores
    at most as much, and the reported score is its score, above 0. *)
Theorem best_menu_first_maximum (url : string) (pool : Pool)
    (referer_url : option string) (threshold : Q)
    (l : option string) (s : Q) (u : string) :
  best_menu_for_url url pool referer_url threshold = Ok (l, s, Some u) ->
  exists hostk cs segs pre label post,
    _hostkey url = Ok hostk
    /\ candidates_for hostk pool referer_url = Ok cs
    /\ _path_segs url = Ok segs
    /\ cs = pre ++ (label, u) :: post
    /\ (l = None \/ l = Some label)
    /\ candidate_score url (lower (List.last segs EmptyString)) (label, u) = Ok s
    /\ 0 < s
    /\ Forall (fun c => exists sc,
                 candidate_score url (lower (List.last segs EmptyString)) c = Ok sc
                 /\ sc < s) pre
    /\ Forall (fun c => exists sc,
                 candidate_score url (lower (List.last segs EmptyString)) c = Ok sc
                 /\ sc <= s) post.
Proof.
  intros Hr. apply best_menu_for_url_inv in Hr.
  destruct Hr as [Hr|(hostk & cs & segs & best & Hk & Hcs & Hsegs & Hloop & Hres)];
    [discriminate|].
  apply best_loop_first_maximum in Hloop.
  destruct Hloop as [[-> _]|(pre & label & u' & post & s' & -> & -> & Hs & Hlt & Hpre & Hpost)].
  - destruct Hres as [Hres|[Hres _]]; discriminate.
  - exists hostk, (pre ++ (label, u') :: post), segs, pre, label, post.
    unfold score_of in Hlt; simpl in Hlt.
    destruct Hres as [Hres|[Hres _]]; injection Hres as -> -> ->;
      repeat split; auto.
Qed.

Lemma best_menu_first_maximum_witness :
  exists hostk cs segs pre label post,
    _hostkey "https://b.com/docs" = Ok hostk
    /\ candidates_for hostk two_host_pool (Some "https://a.com/") = Ok cs
    /\ _path_segs "https://b.com/docs" = Ok segs
    /\ cs = pre ++ (label, "https://a.com/docs") :: post
    /\ (Some "[Docs]" = None \/ Some "[Docs]" = Some label)
    /\ candidate_score "https://b.com/docs" (lower (List.last segs EmptyString))
         (label, "https://a.com/docs") = Ok 105
    /\ 0 < 105
    /\ Forall (fun c => exists sc,
                 candidate_score "https://b.com/docs"
                   (lower (List.last segs EmptyString)) c = Ok sc
                 /\ sc < 105) pre
    /\ Forall (fun c => exists sc,
                 candidate_score "https://b.com/docs"
                   (lower (List.last segs EmptyString)) c = Ok sc
                 /\ sc <= 105) post.
Proof.
  apply (best_menu_first_maximum "https://b.com/docs" two_host_pool
           (Some "https://a.com/") 58 (Some "[Docs]") 105 "https://a.com/docs").
  vm_compute. reflexivity.
Defined.



(** X3: [path_similarity] is a score between 0 and 100, as its docstring
    says, whenever it returns. *)
Theorem path_similarity_between_0_and_100 (a_url b_url : string) (s : Q) :
  path_similarity a_url b_url = Ok s -> 0 <= s /\ s <= 100.
Proof. apply path_similarity_range. Qed.

Lemma path_similarity_between_0_and_100_witness :
  0 <= 540 # 18 /\ 540 # 18 <= 100.
Proof.
  apply (path_similarity_between_0_and_100 "https://ex.com/a/b" "https://ex.com/a/c").
  vm_compute. reflexivity.
Defined.

Local Open Scope nat_scope.

(** ** The pool builder: entries and the progress callback *)

Section PoolExtras.
Context `{PyEnv}.

(** X4: the pool never maps a host key to an empty sequence: a key is in
    the pool exactly when some exchange contributed a Candidate under it. *)
Theorem pool_entries_nonempty (zf : ZipFile)
    (progress : option (nat -> nat -> result unit)) (progress_every : Z)
    (pool : Pool) (h : string) :
  build_candidate_pool_from_saz zf progress progress_every = Ok pool ->
  (forall cs, pool !! h = Some cs -> cs <> [])
  /\ (pool !! h = None <-> discovered zf h = []).
Proof.
  intros Hb. rewrite (build_lookup _ _ _ _ h Hb).
  destruct (discovered zf h) as [|d ds] eqn:Ed; cbn [is_nil].
  - split; [discriminate|]. split; reflexivity.
  - split.
    + intros cs [= <-]. cbn [first_occurrences]. discriminate.
    + split; discriminate.
Qed.

Lemma progress_tick_on_cadence (cb : nat -> nat -> result unit)
    (progress_every : Z) (total : nat) :
  progress_every <> 0%Z ->
  (forall i, on_cadence progress_every i total -> cb i total = Ok tt) ->
  forall i, progress_tick (Some cb) progress_every i total = Ok tt.
Proof.
  intros Hne Hcb i. unfold progress_tick.
  destruct (Nat.eqb_spec i 1) as [->|Hi].
  - apply Hcb. left; reflexivity.
  - destruct (Z.eqb_spec progress_every 0) as [E|_]; [congruence|].
    destruct (Z.eqb_spec (Z.of_nat i mod progress_every) 0) as [Hm|Hm]; cbn [orb].
    + apply Hcb. right; left; exact Hm.
    + destruct (Nat.eqb_spec i total) as [->|Ht]; [|reflexivity].
      apply Hcb. right; right; reflexivity.
Qed.

Lemma pool_loop_progress_irrelevant (zf : ZipFile)
    (progress : option (nat -> nat -> result unit)) (progress_every : Z)
    (total : nat) :
  (forall i, progress_tick progress progress_every i total = Ok tt) ->
  forall (names : list string) (i j : nat) (pool : Pool),
    pool_loop zf progress progress_every total i names pool
    = pool_loop zf None 200 total j names pool.
Proof.
  intros Hcb. induction names as [|sname rest IH]; intros i j pool; [reflexivity|].
  cbn [pool_loop]. rewrite Hcb. cbn [progress_tick rbind]. apply IH.
Qed.

(** X5: the callback and [progress_every] control the cadence of the
    progress reports only.  With a non-zero [progress_every] and a callback
    that returns at the points where the source calls it (the first
    exchange, every [progress_every]-th one and the last), the pool is the
    one built with no callback at all; the callback is never called anywhere
    else, so what it would do there does not matter. *)
Theorem progress_does_not_affect_pool (zf : ZipFile)
    (cb : nat -> nat -> result unit) (progress_every : Z) :
  progress_every <> 0%Z ->
  (forall i total, on_cadence progress_every i total -> cb i total = Ok tt) ->
  build_candidate_pool_from_saz zf (Some cb) progress_every
  = build_candidate_pool_from_saz zf None 200.
Proof.
  intros Hne Hcb. unfold build_candidate_pool_from_saz.
  rewrite (pool_loop_progress_irrelevant zf (Some cb) progress_every _
             (progress_tick_on_cadence cb progress_every _ Hne (fun i => Hcb i _))
             _ 1 1 ∅).
  reflexivity.
Qed.

(** X6: with [progress_every = 0] and a callback, the test
    [i % progress_every] of the [finally] clause raises
    [ZeroDivisionError] at the second exchange: the build fails on every
    archive with at least two response entries, whatever they hold, as soon
    as the callback returns from its first call. *)
Theorem zero_progress_every_raises (zf : ZipFile)
    (cb : nat -> nat -> result unit) (n1 n2 : string) (rest : list string) :
  List.filter is_response_name (namelist zf) = n1 :: n2 :: rest ->
  cb 1 (S (S (List.length rest))) = Ok tt ->
  build_candidate_pool_from_saz zf (Some cb) 0 = Raise ZeroDivisionError.
Proof.
  intros Hn Hcb. unfold build_candidate_pool_from_saz. rewrite Hn.
  cbn [List.length pool_loop progress_tick Nat.eqb]. rewrite Hcb.
  cbn [rbind Z.eqb]. reflexivity.
Qed.

End PoolExtras.

Lemma pool_entries_nonempty_witness :
  (forall cs,
      (dedup_candidates <$> ({[ "ex.com" := discovered sample_zip "ex.com" ]} : Pool))
        !! "ex.com" = Some cs -> cs <> [])
  /\ ((dedup_candidates <$> ({[ "ex.com" := discovered sample_zip "ex.com" ]} : Pool))
        !! "ex.com" = None
      <-> discovered sample_zip "ex.com" = []).
Proof.
  apply (pool_entries_nonempty sample_zip None 200).
  vm_compute. reflexivity.
Defined.

Lemma progress_does_not_affect_pool_witness :
  build_candidate_pool_from_saz sample_zip (Some (fun _ _ => Ok tt)) 3
  = build_candidate_pool_from_saz sample_zip None 200.
Proof.
  apply (progress_does_not_affect_pool sample_zip (fun _ _ => Ok tt) 3).
  - discriminate.
  - reflexivity.
Defined.

Lemma zero_progress_every_raises_witness :
  build_candidate_pool_from_saz sample_zip (Some (fun _ _ => Ok tt)) 0
  = Raise ZeroDivisionError.
Proof.
  apply (zero_progress_every_raises sample_zip (fun _ _ => Ok tt)
           "raw/1_s.txt" "raw/2_s.txt" ["raw/3_s.txt"; "raw/4_s.txt"]).
  - vm_compute. reflexivity.
  - reflexivity.
Defined.

(** ** Host keys *)



Lemma lower_append (a b : string) : lower (a +:+ b) = lower a +:+ lower b.
Proof. induction a as [|c t IH]; str_simpl; cbn [lower]; str_simpl; congruence. Qed.

Lemma forall_chars_lower (p : ascii -> bool) (s : string) :
  (forall c, p c = true -> p (lower_char c) = true) ->
  forall_chars p s = true -> forall_chars p (lower s) = true.
Proof.
  intros Hp. induction s as [|c t IH]; cbn [forall_chars lower]; [reflexivity|].
  rewrite !andb_true_iff. intros [Hc Ht]. auto.
Qed.



Lemma index_char_skip (c : ascii) (a b : string) :
  forall_chars (fun d => negb (Ascii.eqb c d)) a = true ->
  index_char c (a +:+ b) = option_map (Nat.add (String.length a)) (index_char c b).
Proof.
  induction a as [|d t IH]; str_simpl; cbn [forall_chars index_char String.length].
  - intros _. destruct (index_char c b); reflexivity.
  - rewrite andb_true_iff, negb_true_iff. intros [-> Ht]. rewrite (IH Ht).
    destruct (index_char c b); reflexivity.
Qed.

Lemma index_char_absent (c : ascii) (a : string) :
  forall_chars (fun d => negb (Ascii.eqb c d)) a = true -> index_char c a = None.
Proof.
  induction a as [|d t IH]; cbn [forall_chars index_char]; [reflexivity|].
  rewrite andb_true_iff, negb_true_iff. intros [-> Ht]. rewrite (IH Ht). reflexivity.
Qed.

Lemma find_char_skip (c : ascii) (a b : string) :
  forall_chars (fun d => negb (Ascii.eqb c d)) a = true ->
  find (a +:+ b) (String c EmptyString)
  = option_map (Nat.add (String.length a)) (find b (String c EmptyString)).
Proof.
  induction a as [|d t IH]; str_simpl.
  - intros _. destruct (find b _); reflexivity.
  - cbn [forall_chars]. rewrite andb_true_iff, negb_true_iff. intros [Hd Ht].
    cbn [find startswith String.length]. rewrite Hd. cbn [andb]. rewrite (IH Ht).
    destruct (find b _); reflexivity.
Qed.

Lemma find_char_absent (c : ascii) (a : string) :
  forall_chars (fun d => negb (Ascii.eqb c d)) a = true ->
  find a (String c EmptyString) = None.
Proof.
  induction a as [|d t IH]; cbn [forall_chars]; [reflexivity|].
  rewrite andb_true_iff, negb_true_iff. intros [Hd Ht].
  cbn [find startswith]. rewrite Hd. cbn [andb]. rewrite (IH Ht). reflexivity.
Qed.


Lemma host_char_lower (c : ascii) : host_char c = true -> host_char (lower_char c) = true.
Proof.
  destruct c as [[] [] [] [] [] [] [] []]; vm_compute; congruence.
Qed.

Lemma host_chars_avoid (q : ascii -> bool) (h : string) :
  (forall c, url_special c = false -> q c = false) ->
  forall_chars host_char h = true ->
  forall_chars (fun c => negb (q c)) h = true.
Proof.
  intros Hq. apply forall_chars_impl. intros c Hc.
  apply negb_true_iff, Hq, host_char_plain, Hc.
Qed.

Ltac special_char :=
  let c := fresh "c" in
  intros c; destruct c as [[] [] [] [] [] [] [] []]; vm_compute; congruence.
Lemma hostkey_unfold (u : string) :
  _hostkey u
  = do p <- Url.urlparse u;
    Ok (netloc_key (if nonempty (Url.netloc p) then Url.netloc p else u)).
Proof.
  unfold _hostkey, netloc_key.
  destruct (Url.urlparse u) as [p|]; cbn [rbind]; [|reflexivity].
  destruct (partition _ _) as [[h sep] pt]. destruct (mem pt _); reflexivity.
Qed.

Lemma path_like_slash (t : string) : path_like (String "/" t) = true.
Proof. unfold path_like. cbn [nonempty negb orb startswith]. destruct t; reflexivity. Qed.

Lemma delim_index_authority (a rest : string) :
  forall_chars (fun c => negb (Re.one_of "/?#" c)) a = true ->
  path_like rest = true ->
  Url.delim_index (a +:+ rest) = String.length a.
Proof.
  intros Ha Hr. induction a as [|c t IH]; str_simpl.
  - destruct rest as [|d r]; [reflexivity|].
    unfold path_like in Hr. cbn [nonempty negb orb startswith] in Hr.
    apply andb_true_iff in Hr as [Hd _]. apply Ascii.eqb_eq in Hd. subst d.
    reflexivity.
  - cbn [forall_chars] in Ha. apply andb_true_iff in Ha as [Hc Ht].
    cbn [Url.delim_index String.length].
    replace ((code c =? 47) || (code c =? 63) || (code c =? 35)) with false.
    + f_equal. auto.
    + symmetry. revert Hc. clear.
      destruct c as [[] [] [] [] [] [] [] []]; vm_compute; congruence.
Qed.

(** the authority of an http(s) URL is its network location *)
Lemma urlparse_authority (sch auth rest : string) :
  mem sch ["http"; "https"] = true ->
  forall_chars (fun c => negb (Re.one_of "/?#[]" c || Url.unsafe_byte c)) auth = true ->
  path_like rest = true ->
  exists p, Url.urlparse (sch +:+ "://" +:+ auth +:+ rest) = Ok p
            /\ Url.netloc p = auth.
Proof.
  intros Hs Ha Hr.
  assert (Hclean : remove_chars Url.unsafe_byte (auth +:+ rest)
                   = auth +:+ remove_chars Url.unsafe_byte rest).
  { rewrite remove_chars_append. f_equal. apply remove_chars_id.
    revert Ha. apply forall_chars_impl. intros c. rewrite !negb_true_iff.
    intros Hc. apply orb_false_iff in Hc. tauto. }
  assert (Hrest : path_like (remove_chars Url.unsafe_byte rest) = true).
  { destruct rest as [|d r]; [reflexivity|].
    unfold path_like in Hr. cbn [nonempty negb orb startswith] in Hr.
    apply andb_true_iff in Hr as [Hd _]. apply Ascii.eqb_eq in Hd. subst d.
    cbn [remove_chars]. change (Url.unsafe_byte "/") with false. cbv iota.
    apply path_like_slash. }
  assert (Hd : Url.delim_index (auth +:+ remove_chars Url.unsafe_byte rest)
               = String.length auth).
  { apply delim_index_authority; [|exact Hrest].
    revert Ha. apply forall_chars_impl. intros c. rewrite !negb_true_iff.
    intros Hc. apply orb_false_iff in Hc as [Hc _]. revert Hc. clear.
    destruct c as [[] [] [] [] [] [] [] []]; vm_compute; congruence. }
  assert (Hob : has_char "[" auth = false /\ has_char "]" auth = false).
  { unfold has_char. split; rewrite index_char_absent; try reflexivity;
      revert Ha; apply forall_chars_impl; intros c; rewrite !negb_true_iff;
      intros Hc; apply orb_false_iff in Hc as [Hc _]; revert Hc; clear;
      destruct c as [[] [] [] [] [] [] [] []]; vm_compute; congruence. }
  destruct Hob as [Hob Hcb].
  set (y := remove_chars Url.unsafe_byte rest) in *.
  assert (Hsplit : forall s, mem s ["http"; "https"] = true ->
            Url.split_scheme (s +:+ ":" +:+ "//" +:+ auth +:+ y) EmptyString
            = (s, "//" +:+ auth +:+ y)).
  { intros s Hm. apply mem_In in Hm. simpl in Hm.
    destruct Hm as [<-|[<-|[]]]; reflexivity. }
  assert (Hpre : remove_chars Url.unsafe_byte
                   (lstrip_by Url.c0_or_space (sch +:+ "://" +:+ auth +:+ rest))
                 = sch +:+ ":" +:+ "//" +:+ auth +:+ y).
  { apply mem_In in Hs. simpl in Hs. destruct Hs as [<-|[<-|[]]].
    - change (remove_chars Url.unsafe_byte
               (lstrip_by Url.c0_or_space ("http" +:+ "://" +:+ auth +:+ rest)))
        with ("http://" +:+ remove_chars Url.unsafe_byte (auth +:+ rest)).
      rewrite Hclean. reflexivity.
    - change (remove_chars Url.unsafe_byte
               (lstrip_by Url.c0_or_space ("https" +:+ "://" +:+ auth +:+ rest)))
        with ("https://" +:+ remove_chars Url.unsafe_byte (auth +:+ rest)).
      rewrite Hclean. reflexivity. }
  unfold Url.urlparse, Url.urlparse_with, Url.urlsplit.
  rewrite Hpre.
  change (remove_chars Url.unsafe_byte (strip_by Url.c0_or_space EmptyString))
    with EmptyString.
  rewrite (Hsplit sch Hs).
  replace (startswith ("//" +:+ auth +:+ y) "//") with true
    by (symmetry; apply startswith_iff; eexists; reflexivity).
  unfold Url._splitnetloc.
  change (drop 2 ("//" +:+ auth +:+ y)) with (auth +:+ y).
  rewrite Hd, take_append, drop_append, Hob, Hcb. cbn [andb orb negb rbind].
  destruct (match Url.split_once "#" y with Some p => p | None => (y, EmptyString) end)
    as [u1 frag].
  destruct (match Url.split_once "?" u1 with Some p => p | None => (u1, EmptyString) end)
    as [u2 q].
  cbn [rbind].
  destruct (if mem sch Url.uses_params && has_char ";" u2 then _ else _) as [u3 pa].
  eexists. split; reflexivity.
Qed.

(** a string without a slash has no network location *)



Lemma has_char_false (c : ascii) (s : string) :
  has_char c s = false <-> forall_chars (fun d => negb (Ascii.eqb c d)) s = true.
Proof.
  unfold has_char. induction s as [|d t IH]; cbn [index_char forall_chars].
  - split; reflexivity.
  - destruct (Ascii.eqb c d); cbn [negb andb].
    + split; discriminate.
    + rewrite <- IH. destruct (index_char c t); simpl; split; congruence.
Qed.

(** a string without a slash has no network location *)
Lemma urlparse_no_slash (u : string) :
  has_char "/" u = false ->
  exists p, Url.urlparse u = Ok p /\ Url.netloc p = EmptyString.
Proof.
  intros Hu. apply has_char_false in Hu.
  unfold Url.urlparse, Url.urlparse_with, Url.urlsplit.
  set (url1 := remove_chars Url.unsafe_byte (lstrip_by Url.c0_or_space u)).
  assert (H1 : forall_chars (fun d => negb (Ascii.eqb "/" d)) url1 = true).
  { apply forall_chars_remove, forall_chars_lstrip, Hu. }
  set (d := remove_chars Url.unsafe_byte (strip_by Url.c0_or_space EmptyString)).
  destruct (Url.split_scheme url1 d) as [sch url2] eqn:Es.
  assert (H2 : forall_chars (fun d => negb (Ascii.eqb "/" d)) url2 = true).
  { unfold Url.split_scheme in Es.
    destruct (index_char ":" url1) as [[|i]|]; try (injection Es as <- <-; exact H1).
    destruct url1 as [|c0 t]; [injection Es as <- <-; exact H1|].
    destruct (_ && _); injection Es as <- <-; [|exact H1].
    exact (forall_chars_drop _ (S (S i)) (String c0 t) H1). }
  assert (H3 : startswith url2 "//" = false).
  { destruct url2 as [|c t]; [reflexivity|].
    cbn [forall_chars] in H2. apply andb_true_iff in H2 as [Hc _].
    apply negb_true_iff in Hc. cbn [startswith]. rewrite Hc. reflexivity. }
  rewrite H3. cbn [rbind].
  destruct (match Url.split_once "#" url2 with Some p => p | None => (url2, EmptyString) end)
    as [u1 frag].
  destruct (match Url.split_once "?" u1 with Some p => p | None => (u1, EmptyString) end)
    as [u2 q].
  cbn [rbind].
  destruct (if mem sch Url.uses_params && has_char ";" u2 then _ else _) as [u3 pa].
  eexists. split; reflexivity.
Qed.

(** *** The key of a network location *)

Lemma plain_host_inv (h : string) :
  plain_host h = true -> nonempty h = true /\ forall_chars host_char h = true.
Proof. unfold plain_host. apply andb_true_iff. Qed.

Lemma lower_nonempty (s : string) : nonempty (lower s) = nonempty s.
Proof. destruct s; reflexivity. Qed.

Lemma lower_length (s : string) : String.length (lower s) = String.length s.
Proof. induction s; simpl; auto. Qed.

Lemma partition_absent (c : ascii) (s : string) :
  forall_chars (fun d => negb (Ascii.eqb c d)) s = true ->
  partition s (String c EmptyString) = (s, false, EmptyString).
Proof. intros Hs. unfold partition. rewrite find_char_absent by exact Hs. reflexivity. Qed.

Lemma partition_first (c : ascii) (a b : string) :
  forall_chars (fun d => negb (Ascii.eqb c d)) a = true ->
  partition (a +:+ String c b) (String c EmptyString) = (a, true, b).
Proof.
  intros Ha. unfold partition. rewrite find_char_skip by exact Ha.
  cbn [find startswith]. rewrite Ascii.eqb_refl. cbn [andb].
  replace (startswith b EmptyString) with true by (destruct b; reflexivity).
  cbn [option_map]. rewrite Nat.add_0_r, take_append.
  replace (String.length a + String.length (String c EmptyString))
    with (String.length (a +:+ String c EmptyString))
    by (rewrite length_append; reflexivity).
  change (String c b) with (String c EmptyString +:+ b).
  rewrite <- append_assoc, drop_append. reflexivity.
Qed.

(** a plain host is its own key, in lower case *)
Lemma netloc_key_host (h : string) :
  plain_host h = true -> netloc_key h = lower h.
Proof.
  intros Hh. apply plain_host_inv in Hh as [Hn Hc].
  assert (Hl : forall_chars host_char (lower h) = true)
    by (apply forall_chars_lower; [apply host_char_lower | exact Hc]).
  unfold netloc_key, Url.split_once.
  rewrite index_char_absent by (apply host_chars_avoid; [special_char | exact Hl]).
  rewrite partition_absent by (apply host_chars_avoid; [special_char | exact Hl]).
  cbn [mem existsb String.eqb orb]. rewrite lower_nonempty, Hn. reflexivity.
Qed.
Lemma netloc_key_default_port (h port : string) :
  plain_host h = true -> mem port ["80"; "443"] = true ->
  netloc_key (h +:+ ":" +:+ port) = lower h.
Proof.
  intros Hh Hp. apply plain_host_inv in Hh as [Hn Hc].
  assert (Hl : forall_chars host_char (lower h) = true)
    by (apply forall_chars_lower; [apply host_char_lower | exact Hc]).
  assert (Hport : lower (":" +:+ port) = String ":" port
                  /\ index_char "@" (String ":" port) = None).
  { apply mem_In in Hp. simpl in Hp. destruct Hp as [<-|[<-|[]]]; split; reflexivity. }
  destruct Hport as [Hlp Hat].
  unfold netloc_key, Url.split_once.
  rewrite lower_append, Hlp.
  rewrite index_char_skip by (apply host_chars_avoid; [special_char | exact Hl]).
  rewrite Hat. cbn [option_map].
  rewrite partition_first by (apply host_chars_avoid; [special_char | exact Hl]).
  rewrite Hp. reflexivity.
Qed.

Lemma lower_digits (p : string) : forall_chars is_digit p = true -> lower p = p.
Proof.
  induction p as [|c t IH]; cbn [forall_chars lower]; [reflexivity|].
  rewrite andb_true_iff. intros [Hc Ht]. rewrite (IH Ht). f_equal.
  revert Hc. clear. destruct c as [[] [] [] [] [] [] [] []]; vm_compute; congruence.
Qed.

Lemma digit_host_char (c : ascii) : is_digit c = true -> host_char c = true.
Proof. unfold host_char, is_alnum. intros ->. rewrite orb_true_r. reflexivity. Qed.

Lemma netloc_key_other_port (h port : string) :
  plain_host h = true -> port_digits port = true -> mem port ["80"; "443"] = false ->
  netloc_key (h +:+ ":" +:+ port) = lower h +:+ ":" +:+ port.
Proof.
  intros Hh Hd Hp. apply plain_host_inv in Hh as [Hn Hc].
  apply andb_true_iff in Hd as [Hpn Hpd].
  assert (Hl : forall_chars host_char (lower h) = true)
    by (apply forall_chars_lower; [apply host_char_lower | exact Hc]).
  assert (Hph : forall_chars host_char port = true)
    by (revert Hpd; apply forall_chars_impl, digit_host_char).
  unfold netloc_key, Url.split_once.
  rewrite lower_append. change (lower (":" +:+ port)) with (String ":" (lower port)).
  rewrite (lower_digits port Hpd).
  rewrite index_char_skip by (apply host_chars_avoid; [special_char | exact Hl]).
  cbn [index_char]. change (Ascii.eqb "@" ":") with false. cbv iota.
  rewrite index_char_absent by (apply host_chars_avoid; [special_char | exact Hph]).
  cbn [option_map].
  rewrite partition_first by (apply host_chars_avoid; [special_char | exact Hl]).
  rewrite Hp. destruct h; [discriminate|]. reflexivity.
Qed.

Lemma netloc_key_userinfo (user h : string) :
  plain_host user = true -> plain_host h = true ->
  netloc_key (user +:+ "@" +:+ h) = lower h.
Proof.
  intros Hu Hh. rewrite <- (netloc_key_host h Hh).
  apply plain_host_inv in Hu as [_ Hu]. apply plain_host_inv in Hh as [Hn Hc].
  assert (Hl : forall_chars host_char (lower h) = true)
    by (apply forall_chars_lower; [apply host_char_lower | exact Hc]).
  assert (Hlu : forall_chars host_char (lower user) = true)
    by (apply forall_chars_lower; [apply host_char_lower | exact Hu]).
  unfold netloc_key, Url.split_once.
  rewrite lower_append. change (lower ("@" +:+ h)) with (String "@" (lower h)).
  rewrite index_char_skip by (apply host_chars_avoid; [special_char | exact Hlu]).
  cbn [index_char]. rewrite Ascii.eqb_refl. cbn [option_map].
  rewrite Nat.add_0_r.
  replace (S (String.length (lower user)))
    with (String.length (lower user +:+ "@")) by (rewrite length_append; simpl; lia).
  change (String "@" (lower h)) with ("@" +:+ lower h).
  rewrite <- append_assoc, drop_append.
  rewrite index_char_absent by (apply host_chars_avoid; [special_char | exact Hl]).
  reflexivity.
Qed.

(** *** The key of a URL and of a Host header *)

Lemma hostkey_of_url (sch auth rest : string) :
  mem sch ["http"; "https"] = true ->
  nonempty auth = true ->
  forall_chars authority_char auth = true ->
  path_like rest = true ->
  _hostkey (sch +:+ "://" +:+ auth +:+ rest) = Ok (netloc_key auth).
Proof.
  intros Hs Hn Ha Hr. rewrite hostkey_unfold.
  destruct (urlparse_authority sch auth rest Hs Ha Hr) as (p & Hp & Hnl).
  rewrite Hp. cbn [rbind]. rewrite Hnl, Hn. reflexivity.
Qed.

Lemma hostkey_of_host (n : string) :
  has_char "/" n = false -> _hostkey n = Ok (netloc_key n).
Proof.
  intros Hn. rewrite hostkey_unfold.
  destruct (urlparse_no_slash n Hn) as (p & Hp & Hnl).
  rewrite Hp. cbn [rbind]. rewrite Hnl. reflexivity.
Qed.

Lemma host_authority (h : string) :
  forall_chars host_char h = true -> forall_chars authority_char h = true.
Proof.
  apply forall_chars_impl. intros c Hc. apply host_char_plain in Hc.
  revert Hc. clear. destruct c as [[] [] [] [] [] [] [] []]; vm_compute; congruence.
Qed.

Lemma host_no_slash (h : string) :
  forall_chars host_char h = true -> has_char "/" h = false.
Proof.
  intros Hh. apply has_char_false. apply host_chars_avoid; [special_char | exact Hh].
Qed.

Lemma nonempty_append (a b : string) : nonempty a = true -> nonempty (a +:+ b) = true.
Proof. destruct a; [discriminate | reflexivity]. Qed.

(** X7: the host key does not depend on the form in which a host is
    written.  For a plain host name [h] (letters, digits, dots, hyphens), the
    bare name, the name with a default port as in a Host header, and every
    http or https URL on it, with or without a default port (80 or 443) or a
    userinfo part, all have the key [h] in lower case; any other port stays
    in the key. *)
Theorem hostkey_normalises (sch h user port odd rest : string) :
  mem sch ["http"; "https"] = true ->
  plain_host h = true ->
  plain_host user = true ->
  mem port ["80"; "443"] = true ->
  port_digits odd = true -> mem odd ["80"; "443"] = false ->
  path_like rest = true ->
  _hostkey h = Ok (lower h)
  /\ _hostkey (h +:+ ":" +:+ port) = Ok (lower h)
  /\ _hostkey (sch +:+ "://" +:+ h +:+ rest) = Ok (lower h)
  /\ _hostkey (sch +:+ "://" +:+ (h +:+ ":" +:+ port) +:+ rest) = Ok (lower h)
  /\ _hostkey (sch +:+ "://" +:+ (user +:+ "@" +:+ h) +:+ rest) = Ok (lower h)
  /\ _hostkey (sch +:+ "://" +:+ (h +:+ ":" +:+ odd) +:+ rest)
     = Ok (lower h +:+ ":" +:+ odd).
Proof.
  intros Hs Hh Hu Hp Hod Ho Hr.
  destruct (plain_host_inv h Hh) as [Hn Hc].
  destruct (plain_host_inv user Hu) as [Hun Huc].
  assert (Hpc : forall_chars host_char port = true).
  { apply mem_In in Hp. simpl in Hp. destruct Hp as [<-|[<-|[]]]; reflexivity. }
  assert (Hoc : forall_chars host_char odd = true).
  { apply andb_true_iff in Hod as [_ Hod]. revert Hod.
    apply forall_chars_impl, digit_host_char. }
  repeat split.
  - rewrite hostkey_of_host by (apply host_no_slash, Hc).
    rewrite netloc_key_host by exact Hh. reflexivity.
  - rewrite hostkey_of_host.
    + rewrite netloc_key_default_port by assumption. reflexivity.
    + apply has_char_false. rewrite forall_chars_append.
      apply andb_true_iff. split.
      * apply has_char_false, host_no_slash, Hc.
      * str_simpl. cbn [forall_chars]. change (Ascii.eqb "/" ":") with false.
        apply has_char_false, host_no_slash, Hpc.
  - rewrite hostkey_of_url; auto using host_authority.
    rewrite netloc_key_host by exact Hh. reflexivity.
  - rewrite hostkey_of_url; auto using nonempty_append.
    + rewrite netloc_key_default_port by assumption. reflexivity.
    + rewrite forall_chars_append. apply andb_true_iff. split.
      * apply host_authority, Hc.
      * str_simpl. cbn [forall_chars]. apply andb_true_iff. split; [reflexivity|].
        apply host_authority, Hpc.
  - rewrite hostkey_of_url; auto using nonempty_append.
    + rewrite netloc_key_userinfo by assumption. reflexivity.
    + rewrite forall_chars_append. apply andb_true_iff. split.
      * apply host_authority, Huc.
      * str_simpl. cbn [forall_chars]. apply andb_true_iff. split; [reflexivity|].
        apply host_authority, Hc.
  - rewrite hostkey_of_url; auto using nonempty_append.
    + rewrite netloc_key_other_port by assumption. reflexivity.
    + rewrite forall_chars_append. apply andb_true_iff. split.
      * apply host_authority, Hc.
      * str_simpl. cbn [forall_chars]. apply andb_true_iff. split; [reflexivity|].
        apply host_authority, Hoc.
Qed.

Lemma hostkey_normalises_witness :
  _hostkey "Ex.com" = Ok "ex.com"
  /\ _hostkey "Ex.com:443" = Ok "ex.com"
  /\ _hostkey "https://Ex.com/a/b?c#d" = Ok "ex.com"
  /\ _hostkey "https://Ex.com:443/a/b?c#d" = Ok "ex.com"
  /\ _hostkey "https://bob@Ex.com/a/b?c#d" = Ok "ex.com"
  /\ _hostkey "https://Ex.com:8080/a/b?c#d" = Ok "ex.com:8080".
Proof.
  apply (hostkey_normalises "https" "Ex.com" "bob" "443" "8080" "/a/b?c#d");
    reflexivity.
Defined.
(** ** The menu tree outside a navigation context *)

Section TreeExtras.
Context `{PyEnv}.

Lemma handle_outside_menu (e : html_event) :
  opens_menu e = false -> handle parser_init e = parser_init.
Proof.
  destruct e as [tag attrs|tag|d]; cbn [opens_menu handle].
  - intros Hm. apply orb_false_iff in Hm as [Hnav Hul].
    unfold handle_starttag. rewrite Hnav.
    destruct (mem tag ["ul"; "ol"]); cbn [andb] in Hul.
    + rewrite Hul. reflexivity.
    + destruct (String.eqb tag "li"); [reflexivity|].
      destruct (String.eqb tag "a"); reflexivity.
  - intros _. unfold handle_endtag.
    destruct (String.eqb tag "a"); [reflexivity|].
    destruct (String.eqb tag "li"); [reflexivity|].
    destruct (mem tag ["ul"; "ol"]); [reflexivity|].
    destruct (String.eqb tag "nav"); reflexivity.
  - intros _. reflexivity.
Qed.

Lemma fold_outside_menu (events : list html_event) :
  Forall (fun e => opens_menu e = false) events ->
  List.fold_left handle events parser_init = parser_init.
Proof.
  induction 1 as [|e t He _ IH]; [reflexivity|].
  cbn [List.fold_left]. rewrite (handle_outside_menu e He). exact IH.
Qed.

(** X8: path labels arise only inside a navigation context.  When the
    document opens no [nav] element and no list whose class or id carries a
    menu or breadcrumb hint, the menu tree stays empty: the tree contributes
    no Candidate, and the result of [extract_menu_candidates_from_html] is
    the anchor scan followed by the non-anchor scans, each Candidate under
    its own label, without duplicates. *)
Theorem no_menu_no_path_labels (html current_url : string) :
  forallb (fun e => negb (opens_menu e)) (html_feed html) = true ->
  extract_menu_tree_candidates html current_url = Ok []
  /\ extract_menu_candidates_from_html html current_url
     = do anchors <- _extract_anchor_candidates html current_url;
       do non_a <- _extract_non_a_candidates html current_url;
       Ok (dedup_candidates (anchors ++ non_a)).
Proof.
  intros Hb.
  assert (Hev : Forall (fun e => opens_menu e = false) (html_feed html)).
  { apply List.Forall_forall. intros e He. apply negb_true_iff.
    revert e He. apply forallb_forall. exact Hb. }
  assert (Ht : extract_menu_tree_candidates html current_url = Ok []).
  { unfold extract_menu_tree_candidates, parse_menu_tree.
    rewrite (fold_outside_menu _ Hev). reflexivity. }
  split; [exact Ht|].
  unfold extract_menu_candidates_from_html. rewrite Ht. cbn [rbind].
  destruct (_extract_anchor_candidates html current_url) as [anchors|]; cbn [rbind];
    [|reflexivity].
  destruct (_extract_non_a_candidates html current_url) as [non_a|]; cbn [rbind];
    [|reflexivity].
  assert (Hid : forall items, _apply_pathlabel [] items = items).
  { induction items as [|[l u] t IH]; [reflexivity|].
    cbn [_apply_pathlabel map leaf_map_get]. f_equal. exact IH. }
  rewrite !Hid. reflexivity.
Qed.

End TreeExtras.

Lemma no_menu_no_path_labels_witness :
  extract_menu_tree_candidates "<ul><li><a href='/about'>About</a></li></ul>"
    "https://ex.com/" = Ok []
  /\ extract_menu_candidates_from_html "<ul><li><a href='/about'>About</a></li></ul>"
       "https://ex.com/"
     = do anchors <- _extract_anchor_candidates
                       "<ul><li><a href='/about'>About</a></li></ul>" "https://ex.com/";
       do non_a <- _extract_non_a_candidates
                     "<ul><li><a href='/about'>About</a></li></ul>" "https://ex.com/";
       Ok (dedup_candidates (anchors ++ non_a)).
Proof.
  apply (no_menu_no_path_labels "<ul><li><a href='/about'>About</a></li></ul>"
           "https://ex.com/").
  vm_compute. reflexivity.
Defined.
(** ** The similarity of a string to itself *)

Lemma nth_tl {A} (d : nat) (L : list A) (x : A) :
  List.nth d (List.tl L) x = List.nth (S d) L x.
Proof. destruct L; [destruct d|]; reflexivity. Qed.

Lemma hd_nth {A} (L : list A) (x : A) : List.hd x L = List.nth 0 L x.
Proof. destruct L; reflexivity. Qed.

Lemma skipn_cons_inv {A} (l : list A) (x d : A) (t : list A) (j : nat) :
  x :: t = List.skipn j l ->
  List.nth j l d = x /\ t = List.skipn (S j) l /\ j < List.length l.
Proof.
  revert j. induction l as [|y l' IH]; intros j Hs.
  - destruct j; discriminate.
  - destruct j as [|j]; simpl in *.
    + injection Hs as -> ->. repeat split. lia.
    + destruct (IH j Hs) as (H1 & H2 & H3). repeat split; auto. lia.
Qed.

Lemma skipn_nil_inv {A} (l : list A) (j : nat) :
  [] = List.skipn j l -> j <= List.length l -> j = List.length l.
Proof.
  intros Hs Hj.
  assert (Hlen : List.length (List.skipn j l) = 0) by (rewrite <- Hs; reflexivity).
  rewrite List.length_skipn in Hlen. lia.
Qed.

Section SelfMatch.
Variable l : list ascii.
Let n := List.length l.
Let rb := run_before l.

Lemma run_before_le (m : nat) : rb m <= m.
Proof.
  induction m as [|m IH]; [reflexivity|]. unfold rb in *. cbn [run_before].
  destruct (negb _); lia.
Qed.

Lemma run_before_succ (m : nat) :
  rb (S m) = if negb (Difflib.popular l (List.nth m l "000"%char)) then S (rb m) else 0.
Proof. reflexivity. Qed.

Lemma row_self (i : nat) (ai : ascii) :
  i < n -> List.nth i l "000"%char = ai ->
  forall (bs : list ascii) (j : nat) (L : list nat) (prev : nat)
         (best : Difflib.best_t) (L' : list nat) (best' : Difflib.best_t),
    Difflib.row l 0 n i ai bs j L prev best = (L', best') ->
    bs = List.skipn j l -> j <= n ->
    prev <= Nat.min (rb i) (rb j) ->
    (forall d, List.nth d L 0 <= Nat.min (rb i) (rb (j + d + 1))) ->
    (j <= i -> feeds_diagonal (rb i) i j L prev) ->
    on_diagonal n best ->
    (forall m, m <= i -> rb m <= snd best) ->
    (i < j -> rb (S i) <= snd best) ->
    (forall d, List.nth d L' 0 <= Nat.min (rb (S i)) (rb (j + d + 1)))
    /\ (j <= i -> List.nth (i - j) L' 0 = rb (S i))
    /\ on_diagonal n best'
    /\ (forall m, m <= S i -> rb m <= snd best').
Proof.
  intros Hi Hai.
  induction bs as [|bj bt IH];
    intros j L prev best L' best' Hrow Hbs Hj Hprev HL Hfeed Hdiag Hdom Hdom'.
  - cbn [Difflib.row] in Hrow. apply pair_equal_spec in Hrow as [<- <-].
    assert (Hjn : j = n) by (apply skipn_nil_inv; assumption).
    repeat split.
    + intros d. destruct d; simpl; lia.
    + intros Hji. lia.
    + apply Hdiag.
    + apply Hdiag.
    + intros m Hm. destruct (Nat.eq_dec m (S i)) as [->|Hne].
      * apply Hdom'. lia.
      * apply Hdom. lia.
  - destruct (skipn_cons_inv l bj "000"%char bt j Hbs) as (Hbj & Hbt & Hjn).
    fold n in Hjn.
    cbn [Difflib.row] in Hrow. cbn [Nat.leb] in Hrow.
    rewrite (proj2 (Nat.ltb_lt j n) Hjn), !andb_true_r in Hrow.
    set (k := if Ascii.eqb ai bj && negb (Difflib.popular l bj) then S prev else 0) in Hrow.
    assert (Hk : k <= Nat.min (rb (S i)) (rb (S j))).
    { unfold k. destruct (Ascii.eqb ai bj) eqn:Eab; cbn [andb]; [|lia].
      apply Ascii.eqb_eq in Eab.
      destruct (negb (Difflib.popular l bj)) eqn:Enp; [|lia].
      rewrite !run_before_succ, Hai, Hbj, Eab, Enp. lia. }
    assert (Hkd : j = i -> feeds_diagonal (rb i) i j L prev -> k = rb (S i)).
    { intros -> [Hf _]. unfold k. rewrite <- Hbj, Hai, Ascii.eqb_refl. cbn [andb].
      rewrite run_before_succ, Hai, (Hf eq_refl). reflexivity. }
    set (best1 := if snd best <? k then (i + 1 - k, j + 1 - k, k) else best) in Hrow.
    destruct (Difflib.row l 0 n i ai bt (S j) (List.tl L) (List.hd 0 L) best1)
      as [r best2] eqn:Er.
    apply pair_equal_spec in Hrow as [<- <-].
    assert (Hprev' : List.hd 0 L <= Nat.min (rb i) (rb (S j))).
    { rewrite hd_nth. specialize (HL 0). replace (j + 0 + 1) with (S j) in HL by lia.
      exact HL. }
    assert (HL' : forall d, List.nth d (List.tl L) 0 <= Nat.min (rb i) (rb (S j + d + 1))).
    { intros d. rewrite nth_tl. specialize (HL (S d)).
      replace (j + S d + 1) with (S j + d + 1) in HL by lia. exact HL. }
    assert (Hfeed' : S j <= i -> feeds_diagonal (rb i) i (S j) (List.tl L) (List.hd 0 L)).
    { intros Hlt. destruct (Hfeed ltac:(lia)) as [_ Hd]. specialize (Hd ltac:(lia)).
      split.
      - intros Heq. rewrite hd_nth. replace (i - 1 - j) with 0 in Hd by lia. exact Hd.
      - intros Hlt'. rewrite nth_tl. replace (S (i - 1 - S j)) with (i - 1 - j) by lia.
        exact Hd. }
    (* an update happens on the diagonal only *)
    assert (Hupd : snd best < k -> j = i).
    { intros Hlt. destruct (Nat.lt_trichotomy j i) as [Hji|[Hji|Hji]]; [|exact Hji|].
      - specialize (Hdom (S j) ltac:(lia)). lia.
      - specialize (Hdom' Hji). lia. }
    assert (Hdiag1 : on_diagonal n best1).
    { unfold best1. destruct (Nat.ltb_spec (snd best) k) as [Hlt|_]; [|exact Hdiag].
      specialize (Hupd Hlt). subst j. unfold on_diagonal. cbn [fst snd].
      split; [reflexivity|].
      pose proof (run_before_le (S i)). lia. }
    assert (Hdom1 : forall m, m <= i -> rb m <= snd best1).
    { intros m Hm. specialize (Hdom m Hm). unfold best1.
      destruct (Nat.ltb_spec (snd best) k); cbn [snd]; lia. }
    assert (Hdom1' : i < S j -> rb (S i) <= snd best1).
    { intros Hlt. unfold best1.
      destruct (Nat.eq_dec j i) as [Heq|Hne].
      - rewrite <- (Hkd Heq (Hfeed ltac:(lia))).
        destruct (Nat.ltb_spec (snd best) k); cbn [snd]; lia.
      - specialize (Hdom' ltac:(lia)).
        destruct (Nat.ltb_spec (snd best) k); cbn [snd]; lia. }
    destruct (IH (S j) (List.tl L) (List.hd 0 L) best1 r best2 Er Hbt Hjn Hprev' HL'
                Hfeed' Hdiag1 Hdom1 Hdom1') as (B1 & B2 & B3 & B4).
    repeat split.
    + intros d. destruct d as [|d]; cbn [List.nth].
      * replace (j + 0 + 1) with (S j) by lia. exact Hk.
      * specialize (B1 d). replace (j + S d + 1) with (S j + d + 1) by lia. exact B1.
    + intros Hji. destruct (Nat.eq_dec j i) as [Heq|Hne].
      * rewrite Heq, Nat.sub_diag. cbn [List.nth]. apply Hkd; [exact Heq|].
        apply Hfeed. lia.
      * replace (i - j) with (S (i - S j)) by lia. cbn [List.nth]. apply B2. lia.
    + apply B3.
    + apply B3.
    + exact B4.
Qed.

Lemma rows_self :
  forall (as_ : list ascii) (i : nat) (L : list nat) (best : Difflib.best_t),
    as_ = List.skipn i l -> i <= n ->
    (forall d, List.nth d L 0 <= Nat.min (rb i) (rb (d + 1))) ->
    (1 <= i -> List.nth (i - 1) L 0 = rb i) ->
    on_diagonal n best ->
    (forall m, m <= i -> rb m <= snd best) ->
    on_diagonal n (Difflib.rows l 0 n 0 n as_ i L best).
Proof.
  induction as_ as [|ai at_ IH]; intros i L best Has Hi HL Hd Hdiag Hdom;
    [exact Hdiag|].
  destruct (skipn_cons_inv l ai "000"%char at_ i Has) as (Hai & Hat & Hin).
  fold n in Hin.
  cbn [Difflib.rows]. cbn [Nat.leb andb].
  rewrite (proj2 (Nat.ltb_lt i n) Hin).
  destruct (Difflib.row l 0 n i ai l 0 L 0 best) as [L' best'] eqn:Er.
  assert (HL0 : forall d, List.nth d L 0 <= Nat.min (rb i) (rb (0 + d + 1)))
    by (intros d; apply HL).
  assert (Hfeed : 0 <= i -> feeds_diagonal (rb i) i 0 L 0).
  { intros _. split; [intros <-; reflexivity|]. intros Hlt.
    replace (i - 1 - 0) with (i - 1) by lia. apply Hd. lia. }
  destruct (row_self i ai Hin Hai l 0 L 0 best L' best' Er eq_refl
              ltac:(lia) ltac:(lia) HL0 Hfeed Hdiag Hdom ltac:(lia))
    as (B1 & B2 & B3 & B4).
  apply IH; [exact Hat | lia | | | exact B3 | exact B4].
  - intros d. apply B1.
  - intros _. specialize (B2 ltac:(lia)).
    replace (S i - 1) with (i - 0) by lia. exact B2.
Qed.

Lemma extend_left_self :
  forall (fuel d k : nat),
    d <= fuel ->
    Difflib.extend_left l l fuel 0 0 (d, d, k) = (0, 0, d + k).
Proof.
  induction fuel as [|f IH]; intros d k Hd.
  - replace d with 0 by lia. reflexivity.
  - cbn [Difflib.extend_left]. destruct d as [|d]; [reflexivity|].
    replace (0 <? S d) with true by reflexivity. cbn [andb].
    unfold Difflib.nth_a, Difflib.nth_b. rewrite Ascii.eqb_refl.
    replace (S d - 1) with d by lia. rewrite IH by lia. f_equal. lia.
Qed.

Lemma extend_right_self :
  forall (fuel m : nat),
    m <= n -> n - m <= fuel ->
    Difflib.extend_right l l fuel n n (0, 0, m) = (0, 0, n).
Proof.
  induction fuel as [|f IH]; intros m Hm Hf.
  - replace m with n by lia. reflexivity.
  - cbn [Difflib.extend_right]. change (0 + m) with m.
    destruct (Nat.ltb_spec m n) as [Hlt|Hge].
    + cbn [andb]. unfold Difflib.nth_a, Difflib.nth_b. rewrite Ascii.eqb_refl.
      replace (m + 1) with (S m) by lia. apply IH; lia.
    + cbn [andb]. replace m with n by lia. reflexivity.
Qed.

Lemma find_longest_match_self :
  Difflib.find_longest_match l l 0 n 0 n = (0, 0, n).
Proof.
  unfold Difflib.find_longest_match. fold n.
  pose proof (rows_self l 0 [] (0, 0, 0) eq_refl ltac:(lia)) as Hrows.
  destruct (Difflib.rows l 0 n 0 n l 0 [] (0, 0, 0)) as [[bi bj] bk].
  destruct Hrows as [Hij Hle].
  - intros d. destruct d; simpl; lia.
  - lia.
  - split; simpl; lia.
  - intros m Hm. replace m with 0 by lia. unfold rb. simpl. lia.
  - cbn [fst snd] in Hij, Hle. subst bj.
    rewrite extend_left_self by lia. apply extend_right_self; lia.
Qed.

Lemma total_matches_self : Difflib.total_matches l l = n.
Proof.
  unfold Difflib.total_matches. fold n. cbn [Difflib.matches].
  rewrite find_longest_match_self.
  destruct (Nat.eqb_spec n 0) as [Hz|Hnz]; [lia|].
  replace (0 + n <? n) with false by (symmetry; apply Nat.ltb_ge; lia).
  change (0 <? 0) with false. cbn [andb]. lia.
Qed.

End SelfMatch.

Local Open Scope Q_scope.

Lemma Qmake_self (k : nat) : (1 <= k)%nat -> Qmake (Z.of_nat k) (Pos.of_nat k) == 1.
Proof.
  intros Hk. unfold Qeq. cbn [Qnum Qden].
  rewrite Z.mul_1_r, Z.mul_1_l.
  destruct k as [|k]; [lia|]. rewrite <- Pos.of_nat_succ. lia.
Qed.

Lemma string_length_list (s : string) :
  List.length (list_ascii_of_string s) = String.length s.
Proof. induction s; simpl; auto. Qed.

(** a string is entirely similar to itself, whatever its length: the
    frequent characters the matcher discards from its table are matched
    again when the block found is extended *)
Lemma ratio_self (s : string) : Difflib.ratio s s == 1.
Proof.
  unfold Difflib.ratio.
  rewrite total_matches_self.
  rewrite string_length_list. unfold Difflib._calculate_ratio.
  destruct (Nat.eqb_spec (String.length s + String.length s) 0) as [_|Hne];
    [reflexivity|].
  replace (2 * String.length s)%nat with (String.length s + String.length s)%nat by lia.
  apply Qmake_self. lia.
Qed.

Lemma jaccard_self (segs : list string) : segs <> [] -> jaccard segs segs == 1.
Proof.
  intros Hne. unfold jaccard.
  replace (list_to_set segs ∩ list_to_set segs : gset string)
    with (list_to_set segs : gset string)
    by (apply set_eq; intros x; rewrite elem_of_intersection; tauto).
  replace (list_to_set segs ∪ list_to_set segs : gset string)
    with (list_to_set segs : gset string)
    by (apply set_eq; intros x; rewrite elem_of_union; tauto).
  assert (Hpos : (1 <= size (list_to_set segs : gset string))%nat).
  { destruct segs as [|x t]; [congruence|].
    destruct (size (list_to_set (x :: t) : gset string)) eqn:Es; [|lia].
    apply size_empty_inv in Es.
    assert (Hx : x ∈ (list_to_set (x :: t) : gset string))
      by (apply elem_of_list_to_set; left).
    rewrite Es in Hx. apply elem_of_empty in Hx. contradiction. }
  rewrite Nat.max_r by exact Hpos. apply Qmake_self. exact Hpos.
Qed.

Lemma last_match_self (segs : list string) : segs <> [] -> last_match segs segs = 1.
Proof.
  intros Hne. unfold last_match. destruct segs as [|x t]; [congruence|].
  cbn [is_nil negb andb]. rewrite String.eqb_refl. reflexivity.
Qed.

Lemma suffix_self (p : string) : suffix p p = 1.
Proof.
  unfold suffix.
  replace (endswith p p) with true; [reflexivity|].
  symmetry. apply endswith_iff. exists EmptyString. reflexivity.
Qed.

(** X9: two URLs with the same normalized path get the full score.  When
    the two URLs are not empty and their normalized segment sequences are
    equal and not empty, [path_similarity] returns 100: the segment overlap,
    the last segment, the suffix test and the matcher all agree entirely.
    So URLs that differ only in identifiers, in a stripped page extension,
    in the host or in the query string are scored as identical. *)
Theorem same_normalized_path_scores_100 (a_url b_url : string) (segs : list string) :
  a_url <> EmptyString -> b_url <> EmptyString ->
  _path_segs a_url = Ok segs -> _path_segs b_url = Ok segs ->
  segs <> [] ->
  exists s, path_similarity a_url b_url = Ok s /\ s == 100.
Proof.
  intros Ha Hb Hsa Hsb Hne. unfold path_similarity.
  apply nonempty_true in Ha, Hb. rewrite Ha, Hb. cbn [negb orb].
  destruct (String.eqb a_url b_url); [exists 100; split; reflexivity|].
  rewrite Hsa, Hsb. cbn [rbind].
  destruct segs as [|x t] eqn:Es; [congruence|]. cbn [is_nil andb].
  rewrite <- Es in *. eexists. split; [reflexivity|].
  assert (Hblend : blend segs segs == 100).
  { unfold blend.
    rewrite (jaccard_self segs Hne), (last_match_self segs Hne), suffix_self, ratio_self.
    reflexivity. }
  rewrite Hblend. reflexivity.
Qed.

Lemma same_normalized_path_scores_100_witness :
  exists s, path_similarity "https://h/user/123/edit.do" "https://h/user/999/edit" = Ok s
            /\ s == 100.
Proof.
  apply (same_normalized_path_scores_100 "https://h/user/123/edit.do"
           "https://h/user/999/edit" ["user"; "{id}"; "edit"]).
  - discriminate.
  - discriminate.
  - vm_compute. reflexivity.
  - vm_compute. reflexivity.
  - discriminate.
Defined.

Local Open Scope nat_scope.
(** * [scripts/http_utils.py] *)

(** ** [sanitize_excel_str] *)

(** the first match of a one-character class: the characters before it are
    outside the class *)
Lemma search_from_Chr (inp : string) (p : ascii -> bool) :
  forall (rs : string) (po : nat) (pr : option ascii),
    (forall_chars (fun c => negb (p c)) rs = true
     /\ Re.search_from inp (Re.Chr p) rs po pr = None)
    \/ (exists pre c t,
           rs = pre +:+ String c t
           /\ forall_chars (fun c => negb (p c)) pre = true
           /\ p c = true
           /\ Re.search_from inp (Re.Chr p) rs po pr
              = Some (Re.mkMatch inp (po + String.length pre)
                        (Re.mkSt (S (po + String.length pre)) (Some c) t []))).
Proof.
  induction rs as [|c t IH]; intros po pr.
  - left. split; reflexivity.
  - cbn [Re.search_from]. unfold Re.match_at. cbn [Re.run Re.rest Re.pos Re.caps].
    destruct (p c) eqn:Epc.
    + right. exists EmptyString, c, t. cbn [String.length]. rewrite Nat.add_0_r.
      repeat split; auto.
    + destruct (IH (S po) (Some c)) as [[Hall Hs]|(pre & d & t' & -> & Hpre & Hd & Hs)].
      * left. cbn [forall_chars]. rewrite Epc, Hall, Hs. split; reflexivity.
      * right. exists (String c pre), d, t'. cbn [forall_chars String.length].
        rewrite Epc, Hpre, Hs. cbn [Nat.add]. rewrite Nat.add_succ_r.
        repeat split; auto.
Qed.

Lemma sub_pieces_Chr (inp : string) (p : ascii -> bool) :
  forall (fuel : nat) (rs : string) (po : nat) (pr : option ascii),
    rs = drop po inp -> String.length rs < fuel ->
    Re.sub_pieces inp EmptyString po (Re.finditer_from fuel inp (Re.Chr p) rs po pr)
    = remove_chars p rs.
Proof.
  induction fuel as [|f IH]; intros rs po pr Hrs Hlen; [lia|].
  cbn [Re.finditer_from].
  destruct (search_from_Chr inp p rs po pr)
    as [[Hall Hs]|(pre & c & t & Hsplit & Hpre & Hc & Hs)]; rewrite Hs.
  - cbn [Re.sub_pieces]. rewrite <- Hrs. symmetry. apply remove_chars_id. exact Hall.
  - cbn [Re.m_final Re.pos Re.m_start Re.rest Re.prev].
    replace (S (po + String.length pre) =? po + String.length pre) with false
      by (symmetry; apply Nat.eqb_neq; lia).
    cbn [Re.sub_pieces]. unfold Re.m_end. cbn [Re.m_final Re.pos Re.m_start].
    assert (Ht : t = drop (S (po + String.length pre)) inp).
    { clear - Hrs Hsplit. revert inp rs Hrs Hsplit. induction po as [|po IHpo]; intros inp rs Hrs Hsplit.
      - cbn [drop] in Hrs. subst rs. cbn [Nat.add]. rewrite Hsplit.
        change (String c t) with (String c EmptyString +:+ t).
        rewrite <- append_assoc.
        replace (S (String.length pre)) with (String.length (pre +:+ String c EmptyString))
          by (rewrite length_append; simpl; lia).
        rewrite drop_append. reflexivity.
      - destruct inp as [|x inp']; cbn [drop] in Hrs.
        + subst rs. destruct pre; discriminate.
        + cbn [Nat.add drop]. apply (IHpo inp' rs Hrs Hsplit). }
    rewrite (IH t (S (po + String.length pre)) (Some c) Ht).
    + unfold slice. rewrite <- Hrs, Hsplit.
      replace (po + String.length pre - po) with (String.length pre) by lia.
      rewrite take_append, remove_chars_append. cbn [remove_chars]. rewrite Hc.
      rewrite (remove_chars_id p pre Hpre). reflexivity.
    + rewrite Hsplit, length_append in Hlen. cbn [String.length] in Hlen. lia.
Qed.

(** substituting the empty string for a one-character class removes the
    characters of the class *)
Lemma sub_Chr (p : ascii -> bool) (s : string) :
  Re.sub (Re.Chr p) EmptyString s = remove_chars p s.
Proof.
  unfold Re.sub, Re.finditer. apply sub_pieces_Chr; [reflexivity | lia].
Qed.


(** X10: [sanitize_excel_str] removes exactly the control characters that a
    spreadsheet cell cannot hold.  [None] stays [None]; a string becomes the
    string of its other characters, in order; an object is sanitised
    through [str], and to the empty string when [str] raises.  The result
    never holds such a character, and sanitising it again changes nothing. *)
Theorem sanitize_excel_str_spec (x : HttpUtils.cell) :
  (HttpUtils.sanitize_excel_str x = None <-> x = HttpUtils.CNone)
  /\ (forall s0, x = HttpUtils.CStr s0 \/ x = HttpUtils.CObj (Ok s0) ->
        HttpUtils.sanitize_excel_str x
        = Some (remove_chars HttpUtils.illegal_xls s0))
  /\ (forall e, x = HttpUtils.CObj (Raise e) ->
        HttpUtils.sanitize_excel_str x = Some EmptyString)
  /\ (forall s, HttpUtils.sanitize_excel_str x = Some s ->
        forall_chars (fun c => negb (HttpUtils.illegal_xls c)) s = true
        /\ HttpUtils.sanitize_excel_str (HttpUtils.CStr s) = Some s).
Proof.
  assert (Hsub : forall s, Re.sub HttpUtils.ILLEGAL_XLS_RE EmptyString s
                           = remove_chars HttpUtils.illegal_xls s)
    by (intros s; apply sub_Chr).
  assert (Hclean : forall s0 s, remove_chars HttpUtils.illegal_xls s0 = s ->
            forall_chars (fun c => negb (HttpUtils.illegal_xls c)) s = true
            /\ HttpUtils.sanitize_excel_str (HttpUtils.CStr s) = Some s).
  { intros s0 s <-. split; [apply remove_chars_clean|].
    cbn [HttpUtils.sanitize_excel_str]. rewrite Hsub. f_equal.
    apply remove_chars_id, remove_chars_clean. }
  repeat split.
  - destruct x as [|s|[s|e]]; cbn [HttpUtils.sanitize_excel_str]; congruence.
  - intros ->. reflexivity.
  - intros s0 [->| ->]; cbn [HttpUtils.sanitize_excel_str]; rewrite Hsub; reflexivity.
  - intros e ->. reflexivity.
  - destruct x as [|s0|[s0|e]]; cbn [HttpUtils.sanitize_excel_str] in H;
      try discriminate; injection H as <-.
    + rewrite Hsub. apply remove_chars_clean.
    + rewrite Hsub. apply remove_chars_clean.
    + reflexivity.
  - destruct x as [|s0|[s0|e]]; cbn [HttpUtils.sanitize_excel_str] in H;
      try discriminate; injection H as <-.
    + rewrite Hsub. apply (Hclean s0). reflexivity.
    + rewrite Hsub. apply (Hclean s0). reflexivity.
    + reflexivity.
Qed.
(** ** [parse_request] on a well-formed request *)

Lemma find_skip (c0 : ascii) (p' a b : string) :
  forall_chars (fun d => negb (Ascii.eqb c0 d)) a = true ->
  find (a +:+ b) (String c0 p')
  = option_map (Nat.add (String.length a)) (find b (String c0 p')).
Proof.
  induction a as [|d t IH]; str_simpl.
  - intros _. destruct (find b _); reflexivity.
  - cbn [forall_chars]. rewrite andb_true_iff, negb_true_iff. intros [Hd Ht].
    cbn [find startswith String.length]. rewrite Hd. cbn [andb]. rewrite (IH Ht).
    destruct (find b _); reflexivity.
Qed.

Lemma find_here (s p : string) : startswith s p = true -> find s p = Some 0.
Proof. intros H. destruct s; cbn [find]; rewrite H; reflexivity. Qed.

Lemma find_not_here (c : ascii) (t p : string) :
  startswith (String c t) p = false -> find (String c t) p = option_map S (find t p).
Proof. intros H. cbn [find]. rewrite H. reflexivity. Qed.

Lemma join_cons2 (sep x y : string) (t : list string) :
  join sep (x :: y :: t) = x +:+ sep +:+ join sep (y :: t).
Proof. reflexivity. Qed.

Lemma join_head (sep : string) (c : ascii) (y' : string) (t : list string) :
  exists Z, join sep (String c y' :: t) = String c Z.
Proof. destruct t; cbn [join]; str_simpl; eauto. Qed.

(** a line of the head: not empty, and without a carriage return *)


Lemma find_head (body : string) :
  forall lines : list string,
    lines <> [] -> Forall head_line lines ->
    find (join HttpUtils.CRLF lines +:+ CRLFCRLF +:+ body) CRLFCRLF
    = Some (String.length (join HttpUtils.CRLF lines)).
Proof.
  induction lines as [|x t IH]; intros Hne Hall; [congruence|].
  apply List.Forall_cons_iff in Hall as [[Hx Hcr] Ht].
  destruct t as [|y t'].
  - cbn [join]. unfold CRLFCRLF at 2. rewrite find_skip by exact Hcr.
    rewrite find_here by (apply startswith_iff; eexists; reflexivity).
    cbn [option_map]. f_equal. lia.
  - rewrite join_cons2, !append_assoc. unfold CRLFCRLF at 2.
    rewrite find_skip by exact Hcr. fold CRLFCRLF.
    specialize (IH ltac:(discriminate) Ht).
    pose proof Ht as Hy. apply List.Forall_cons_iff in Hy as [[Hy Hycr] _].
    destruct y as [|c y']; [congruence|].
    destruct (join_head HttpUtils.CRLF c y' t') as [Z HZ].
    rewrite HZ in IH |- *. str_simpl.
    cbn [forall_chars no_cr] in Hycr. unfold no_cr in Hycr. cbn [forall_chars] in Hycr.
    apply andb_true_iff in Hycr as [Hc _]. apply negb_true_iff in Hc.
    unfold HttpUtils.CRLF. str_simpl.
    rewrite find_not_here
      by (unfold CRLFCRLF; cbn [startswith]; rewrite !Ascii.eqb_refl, Hc; reflexivity).
    rewrite find_not_here by reflexivity.
    rewrite IH. cbn [option_map String.length].
    rewrite !length_append. cbn [String.length]. f_equal; lia.
Qed.

Lemma split_crlf_aux_line (x rest cur : string) :
  no_cr x = true ->
  HttpUtils.split_crlf_aux (x +:+ rest) cur
  = HttpUtils.split_crlf_aux rest (rev x +:+ cur).
Proof.
  revert cur. induction x as [|c x' IH]; intros cur Hx; [reflexivity|].
  unfold no_cr in Hx. cbn [forall_chars] in Hx.
  apply andb_true_iff in Hx as [Hc Hx']. apply negb_true_iff in Hc.
  str_simpl. cbn [HttpUtils.split_crlf_aux].
  replace (Ascii.eqb c "013") with false
    by (rewrite <- Hc; apply eq_true_iff_eq; rewrite !Ascii.eqb_eq; split; congruence).
  cbn [andb].
  assert (Hstep : match x' +:+ rest with
                  | EmptyString => HttpUtils.split_crlf_aux (x' +:+ rest) (String c cur)
                  | String _ _ => HttpUtils.split_crlf_aux (x' +:+ rest) (String c cur)
                  end = HttpUtils.split_crlf_aux (x' +:+ rest) (String c cur))
    by (destruct (x' +:+ rest); reflexivity).
  rewrite Hstep, (IH (String c cur) Hx'), rev_cons, append_assoc. reflexivity.
Qed.

Lemma split_crlf_aux_sep (rest cur : string) :
  HttpUtils.split_crlf_aux (HttpUtils.CRLF +:+ rest) cur
  = rev cur :: HttpUtils.split_crlf_aux rest EmptyString.
Proof. reflexivity. Qed.

Lemma split_crlf_join :
  forall (lines : list string) (cur : string),
    lines <> [] -> Forall head_line lines ->
    HttpUtils.split_crlf_aux (join HttpUtils.CRLF lines) cur
    = (rev cur +:+ List.hd EmptyString lines) :: List.tl lines.
Proof.
  induction lines as [|x t IH]; intros cur Hne Hall; [congruence|].
  apply List.Forall_cons_iff in Hall as [[Hx Hcr] Ht].
  destruct t as [|y t'].
  - cbn [join List.hd List.tl]. rewrite <- (append_nil_r x) at 1.
    rewrite split_crlf_aux_line by exact Hcr.
    cbn [HttpUtils.split_crlf_aux]. rewrite rev_append, rev_involutive. reflexivity.
  - rewrite join_cons2, split_crlf_aux_line by exact Hcr.
    rewrite split_crlf_aux_sep, (IH EmptyString ltac:(discriminate) Ht).
    cbn [List.hd List.tl]. rewrite rev_append, rev_involutive. reflexivity.
Qed.

Lemma split_ws_aux_token (m rest cur : string) :
  forall_chars (fun c => negb (Latin1.is_space c)) m = true ->
  Latin1.split_ws_aux (m +:+ rest) cur = Latin1.split_ws_aux rest (rev m +:+ cur).
Proof.
  revert cur. induction m as [|c m' IH]; intros cur Hm; [reflexivity|].
  cbn [forall_chars] in Hm. apply andb_true_iff in Hm as [Hc Hm'].
  apply negb_true_iff in Hc.
  str_simpl. cbn [Latin1.split_ws_aux].
  rewrite Hc, (IH (String c cur) Hm'), rev_cons, append_assoc.
  reflexivity.
Qed.

Lemma token_inv (s : string) :
  token s = true ->
  s <> EmptyString /\ forall_chars (fun c => negb (Latin1.is_space c)) s = true.
Proof.
  unfold token. rewrite andb_true_iff. intros [Hn Hs]. split; [|exact Hs].
  apply nonempty_true. exact Hn.
Qed.

Lemma rev_nonempty (s : string) : s <> EmptyString -> nonempty (rev s) = true.
Proof.
  destruct s as [|c t]; [congruence|]. intros _. rewrite rev_cons.
  destruct (rev t); reflexivity.
Qed.

(** the request line splits into the method, the target and what follows *)
Lemma split_ws_request_line (m t v : string) :
  token m = true -> token t = true ->
  exists more, Latin1.split_ws (m +:+ " " +:+ t +:+ " " +:+ v) = m :: t :: more.
Proof.
  intros Hm Ht. apply token_inv in Hm as [Hmn Hm], Ht as [Htn Ht].
  unfold Latin1.split_ws. rewrite split_ws_aux_token by exact Hm.
  str_simpl. cbn [Latin1.split_ws_aux]. change (Latin1.is_space " ") with true. cbv iota.
  rewrite append_nil_r, rev_nonempty by exact Hmn. rewrite rev_involutive.
  cbn [app]. rewrite split_ws_aux_token by exact Ht.
  cbn [Latin1.split_ws_aux]. change (Latin1.is_space " ") with true. cbv iota.
  rewrite append_nil_r, rev_nonempty by exact Htn. rewrite rev_involutive.
  cbn [app]. eauto.
Qed.
Lemma strip_after_space (v : string) :
  Latin1.strip (String " " v) = Latin1.strip v.
Proof. reflexivity. Qed.

Lemma header_ok_inv (kv : string * string) :
  header_ok kv = true ->
  one_line (fst kv) = true /\ has_char ":" (fst kv) = false
  /\ Latin1.strip (fst kv) = fst kv /\ one_line (snd kv) = true
  /\ Latin1.strip (snd kv) = snd kv.
Proof.
  unfold header_ok. rewrite !andb_true_iff, negb_true_iff, !String.eqb_eq. tauto.
Qed.

Lemma add_header_line (h : Headers) (kv : string * string) :
  header_ok kv = true ->
  HttpUtils.add_header h (header_line kv) = <[fst kv := snd kv]> h.
Proof.
  intros Hok. destruct (header_ok_inv kv Hok) as (_ & Hcolon & Hk & _ & Hv).
  destruct kv as [k v]. cbn [fst snd] in *.
  apply has_char_false in Hcolon.
  unfold HttpUtils.add_header, header_line, has_char, Url.split_once. cbn [fst snd].
  str_simpl. rewrite index_char_skip by exact Hcolon.
  cbn [index_char]. rewrite Ascii.eqb_refl. cbn [option_map]. rewrite Nat.add_0_r.
  replace (nonempty (k +:+ String ":" (String " " v))) with true
    by (destruct k; reflexivity).
  cbn [negb orb]. rewrite take_append.
  replace (S (String.length k)) with (String.length (k +:+ ":"))
    by (rewrite length_append; simpl; lia).
  change (String ":" (String " " v)) with (":" +:+ String " " v).
  rewrite <- append_assoc, drop_append, strip_after_space, Hk, Hv. reflexivity.
Qed.

Lemma fold_add_header (hdrs : list (string * string)) :
  forallb header_ok hdrs = true ->
  forall h : Headers,
    List.fold_left HttpUtils.add_header (map header_line hdrs) h
    = List.fold_left (fun h kv => <[fst kv := snd kv]> h) hdrs h.
Proof.
  induction hdrs as [|kv t IH]; intros Hall h; [reflexivity|].
  cbn [forallb] in Hall. apply andb_true_iff in Hall as [Hkv Ht].
  cbn [map List.fold_left]. rewrite add_header_line by exact Hkv. apply IH, Ht.
Qed.

Lemma one_line_no_cr (s : string) : one_line s = true -> no_cr s = true.
Proof.
  apply forall_chars_impl. intros c. unfold is_cr_or_lf.
  rewrite !negb_true_iff, orb_false_iff. intros [Hc _].
  rewrite <- Hc. apply eq_true_iff_eq. rewrite !Ascii.eqb_eq. split; congruence.
Qed.

Lemma token_no_cr (s : string) :
  forall_chars (fun c => negb (Latin1.is_space c)) s = true -> no_cr s = true.
Proof.
  apply forall_chars_impl. intros c. rewrite !negb_true_iff.
  destruct (Ascii.eqb_spec "013" c) as [<-|_]; [discriminate | reflexivity].
Qed.

Lemma no_cr_append (a b : string) : no_cr (a +:+ b) = no_cr a && no_cr b.
Proof. apply forall_chars_append. Qed.

Lemma header_line_head (kv : string * string) :
  header_ok kv = true -> head_line (header_line kv).
Proof.
  intros Hok. destruct (header_ok_inv kv Hok) as (Hk & _ & _ & Hv & _).
  unfold head_line, header_line. split.
  - destruct (fst kv); discriminate.
  - rewrite !no_cr_append, (one_line_no_cr _ Hk), (one_line_no_cr _ Hv). reflexivity.
Qed.

(** X11: [parse_request] reads back a well-formed request.  For a request
    rendered as a request line (method, target, version), header lines
    [name: value], an empty line and a body, all separated by CR LF, with a
    method and a target free of white space and headers that stay on their
    line and have none at their ends (white space as the decoded text has
    it: that of ASCII, and the bytes 85 and A0), the result is the method,
    the target, the dictionary of the headers (a later header replacing an
    earlier one of the same name) and the body, byte for byte, whatever the
    body holds. *)
Theorem parse_request_render (method target version : string)
    (hdrs : list (string * string)) (body : string) :
  token method = true -> token target = true -> one_line version = true ->
  forallb header_ok hdrs = true ->
  HttpUtils.parse_request (render_request method target version hdrs body)
  = (method, target, headers_of hdrs, body).
Proof.
  intros Hm Ht Hv Hh.
  set (reqline := method +:+ " " +:+ target +:+ " " +:+ version).
  set (lines := reqline :: map header_line hdrs).
  assert (Hlines : Forall head_line lines).
  { constructor.
    - destruct (token_inv _ Hm) as [Hmn Hmc], (token_inv _ Ht) as [_ Htc].
      split.
      + unfold reqline. destruct method; [congruence | discriminate].
      + unfold reqline. rewrite !no_cr_append, (token_no_cr _ Hmc), (token_no_cr _ Htc),
          (one_line_no_cr _ Hv). reflexivity.
    - apply List.Forall_forall. intros s Hs. apply in_map_iff in Hs as (kv & <- & Hin).
      apply header_line_head. revert kv Hin. apply forallb_forall. exact Hh. }
  assert (Hne : lines <> []) by discriminate.
  unfold HttpUtils.parse_request, render_request. fold reqline. fold lines.
  unfold partition. rewrite (find_head body lines Hne Hlines).
  rewrite take_append.
  replace (String.length (join HttpUtils.CRLF lines) + String.length CRLFCRLF)
    with (String.length (join HttpUtils.CRLF lines +:+ CRLFCRLF))
    by (rewrite length_append; reflexivity).
  rewrite <- append_assoc, drop_append.
  unfold HttpUtils.split_crlf. rewrite (split_crlf_join lines EmptyString Hne Hlines).
  cbn [List.hd List.tl lines rev]. change (rev EmptyString +:+ reqline) with reqline.
  destruct (split_ws_request_line method target version Hm Ht) as [more Hsplit].
  fold reqline in Hsplit. rewrite Hsplit.
  rewrite (fold_add_header hdrs Hh). reflexivity.
Qed.

Lemma parse_request_render_witness :
  HttpUtils.parse_request
    (render_request "POST" "/login?next=%2F" "HTTP/1.1"
       [("Host", "ex.com"); ("Content-Type", "application/json"); ("Host", "b.ex.com")]
       "{}")
  = ("POST", "/login?next=%2F",
     headers_of [("Host", "ex.com"); ("Content-Type", "application/json");
                 ("Host", "b.ex.com")],
     "{}").
Proof.
  apply (parse_request_render "POST" "/login?next=%2F" "HTTP/1.1"
           [("Host", "ex.com"); ("Content-Type", "application/json");
            ("Host", "b.ex.com")] "{}"); reflexivity.
Defined.
(** ** [flatten_json] *)

Section Flatten.
Import HttpUtils.
Variable sep : string.

Lemma od_set_In {V} (k k' : string) (v v' : V) (d : odict V) :
  In (k', v') (od_set k v d) -> (k', v') = (k, v) \/ In (k', v') d.
Proof.
  induction d as [|[k0 v0] t IH]; cbn [od_set].
  - intros [H|[]]; auto.
  - destruct (String.eqb k0 k).
    + intros [H|H]; [auto | right; right; exact H].
    + intros [H|H]; [right; left; exact H|].
      destruct (IH H) as [H'|H']; [auto | right; right; exact H'].
Qed.

Lemma od_update_In {V} (e d : odict V) (k : string) (v : V) :
  In (k, v) (od_update d e) -> In (k, v) d \/ In (k, v) e.
Proof.
  unfold od_update. revert d. induction e as [|[k0 v0] t IH]; intros d; cbn [List.fold_left].
  - auto.
  - intros H. destruct (IH _ H) as [H'|H']; [|right; right; exact H'].
    cbn [fst snd] in H'. destruct (od_set_In _ _ _ _ _ H') as [Heq|Hd]; [|auto].
    right. left. congruence.
Qed.

Lemma od_get_In {V} (d : odict V) (k : string) (v : V) :
  od_get d k = Some v -> In (k, v) d.
Proof.
  induction d as [|[k0 v0] t IH]; cbn [od_get]; [discriminate|].
  destruct (String.eqb_spec k0 k) as [->|_].
  - intros [= ->]. left; reflexivity.
  - intros H. right. auto.
Qed.

Lemma od_get_set {V} (k k' : string) (v : V) (d : odict V) :
  od_get (od_set k v d) k' = if String.eqb k k' then Some v else od_get d k'.
Proof.
  induction d as [|[k0 v0] t IH]; cbn [od_set od_get]; [reflexivity|].
  destruct (String.eqb_spec k0 k) as [->|Hne]; cbn [od_get].
  - destruct (String.eqb k k'); reflexivity.
  - rewrite IH. destruct (String.eqb_spec k0 k') as [->|_]; [|reflexivity].
    destruct (String.eqb_spec k k'); [congruence | reflexivity].
Qed.

Lemma od_update_keeps {V} (e d : odict V) (k : string) :
  is_Some (od_get d k) -> is_Some (od_get (od_update d e) k).
Proof.
  unfold od_update. revert d. induction e as [|[k0 v0] t IH]; intros d Hd; [exact Hd|].
  cbn [List.fold_left fst snd]. apply IH. rewrite od_get_set.
  destruct (String.eqb k0 k); [eauto | exact Hd].
Qed.

Lemma od_update_adds {V} (e d : odict V) (k : string) :
  is_Some (od_get e k) -> is_Some (od_get (od_update d e) k).
Proof.
  unfold od_update. revert d. induction e as [|[k0 v0] t IH]; intros d; cbn [od_get].
  - intros [v Hv]. discriminate.
  - cbn [List.fold_left fst snd]. destruct (String.eqb_spec k0 k) as [->|Hne].
    + intros _. apply (od_update_keeps t). rewrite od_get_set, String.eqb_refl. eauto.
    + apply IH.
Qed.

(** every entry of the flattened form is a scalar of the value, under the
    key of its path *)
Lemma flatten_sound_In (obj : pyval) :
  forall (parent_key k : string) (v : scalar),
    In (k, v) (flatten_json obj parent_key sep) ->
    exists p, has_leaf obj p v /\ path_key sep parent_key p = k.
Proof.
  induction obj as [v0|elements IH|entries IH] using pyval_induction;
    intros parent_key k v Hin.
  - destruct Hin as [[= <- <-]|[]]. exists []. split; [constructor | reflexivity].
  - cbn [flatten_json] in Hin.
    assert (Hgen : forall (rest : list pyval) (i : nat) (acc : odict scalar),
              Forall (fun obj => forall parent_key k v,
                        In (k, v) (flatten_json obj parent_key sep) ->
                        exists p, has_leaf obj p v /\ path_key sep parent_key p = k) rest ->
              (forall j child, List.nth_error rest j = Some child ->
                               List.nth_error elements (i + j) = Some child) ->
              (forall k v, In (k, v) acc ->
                 exists p, has_leaf (PList elements) p v /\ path_key sep parent_key p = k) ->
              forall k v,
                In (k, v)
                  (snd (List.fold_left
                          (fun st v =>
                             (S (fst st),
                              od_update (snd st)
                                (flatten_json v (list_key parent_key (fst st)) sep)))
                          rest (i, acc))) ->
                exists p, has_leaf (PList elements) p v /\ path_key sep parent_key p = k).
    { induction rest as [|x t IHt]; intros i acc Hall Hnth Hacc k' v' H.
      - apply Hacc. exact H.
      - apply List.Forall_cons_iff in Hall as [Hx Ht].
        cbn [List.fold_left fst snd] in H.
        apply (IHt (S i) _ Ht) in H; [exact H| |].
        + intros j child Hj. replace (S i + j) with (i + S j) by lia. apply Hnth. exact Hj.
        + intros k2 v2 H2. apply od_update_In in H2 as [H2|H2]; [apply Hacc; exact H2|].
          destruct (Hx _ _ _ H2) as (p & Hp & Hk).
          exists (Idx i :: p). split; [|exact Hk].
          apply (leaf_in_list elements i x); [|exact Hp].
          specialize (Hnth 0 x eq_refl). rewrite Nat.add_0_r in Hnth. exact Hnth. }
    apply (Hgen elements 0 [] IH); auto.
    intros k2 v2 [].
  - cbn [flatten_json] in Hin.
    assert (Hgen : forall (rest : list (string * pyval)) (acc : odict scalar),
              Forall (fun kv => forall parent_key k v,
                        In (k, v) (flatten_json (snd kv) parent_key sep) ->
                        exists p, has_leaf (snd kv) p v
                                  /\ path_key sep parent_key p = k) rest ->
              (forall kv, In kv rest -> In kv entries) ->
              (forall k v, In (k, v) acc ->
                 exists p, has_leaf (PDict entries) p v /\ path_key sep parent_key p = k) ->
              forall k v,
                In (k, v)
                  (List.fold_left
                     (fun items kv =>
                        od_update items
                          (flatten_json (snd kv) (dict_key parent_key sep (fst kv)) sep))
                     rest acc) ->
                exists p, has_leaf (PDict entries) p v /\ path_key sep parent_key p = k).
    { induction rest as [|[k0 child] t IHt]; intros acc Hall Hsub Hacc k' v' H.
      - apply Hacc. exact H.
      - apply List.Forall_cons_iff in Hall as [Hx Ht].
        cbn [List.fold_left fst snd] in H.
        apply (IHt _ Ht) in H; [exact H| |].
        + intros kv Hkv. apply Hsub. right; exact Hkv.
        + intros k2 v2 H2. apply od_update_In in H2 as [H2|H2]; [apply Hacc; exact H2|].
          cbn [snd] in Hx. destruct (Hx _ _ _ H2) as (p & Hp & Hk).
          exists (Key k0 :: p). split; [|exact Hk].
          apply (leaf_in_dict entries k0 child); [|exact Hp].
          apply Hsub. left; reflexivity. }
    apply (Hgen entries [] IH); auto.
    intros k2 v2 [].
Qed.

Lemma fold_dict_keeps (parent_key : string) (rest : list (string * pyval))
    (acc : odict scalar) (k : string) :
  is_Some (od_get acc k) ->
  is_Some (od_get
             (List.fold_left
                (fun items kv =>
                   od_update items
                     (flatten_json (snd kv) (dict_key parent_key sep (fst kv)) sep))
                rest acc) k).
Proof.
  revert acc. induction rest as [|kv t IH]; intros acc Hacc; [exact Hacc|].
  cbn [List.fold_left]. apply IH. apply od_update_keeps. exact Hacc.
Qed.

Lemma fold_list_keeps (parent_key : string) (rest : list pyval) (i : nat)
    (acc : odict scalar) (k : string) :
  is_Some (od_get acc k) ->
  is_Some (od_get
             (snd (List.fold_left
                     (fun st v =>
                        (S (fst st),
                         od_update (snd st)
                           (flatten_json v (list_key parent_key (fst st)) sep)))
                     rest (i, acc))) k).
Proof.
  revert i acc. induction rest as [|x t IH]; intros i acc Hacc; [exact Hacc|].
  cbn [List.fold_left fst snd]. apply IH. apply od_update_keeps. exact Hacc.
Qed.

(** every scalar of the value has its key in the flattened form *)
Lemma flatten_complete (obj : pyval) (p : list step) (v : scalar) :
  has_leaf obj p v ->
  forall parent_key,
    is_Some (od_get (flatten_json obj parent_key sep) (path_key sep parent_key p)).
Proof.
  induction 1 as [v|entries k child p v Hin Hleaf IH|elements i child p v Hnth Hleaf IH];
    intros parent_key.
  - cbn [flatten_json path_key List.fold_left od_get]. rewrite String.eqb_refl. eauto.
  - cbn [flatten_json]. change (path_key sep parent_key (Key k :: p))
      with (path_key sep (dict_key parent_key sep k) p).
    generalize (@nil (string * scalar)) as acc.
    induction entries as [|[k0 c0] t IHt]; intros acc; [contradiction|].
    cbn [List.fold_left fst snd]. destruct Hin as [[= -> ->]|Hin].
    + apply fold_dict_keeps, od_update_adds, IH.
    + apply IHt. exact Hin.
  - cbn [flatten_json]. change (path_key sep parent_key (Idx i :: p))
      with (path_key sep (list_key parent_key i) p).
    assert (Hgen : forall (rest : list pyval) (j : nat) (acc : odict scalar),
              List.nth_error rest (i - j) = Some child -> j <= i ->
              is_Some (od_get
                (snd (List.fold_left
                        (fun st v =>
                           (S (fst st),
                            od_update (snd st)
                              (flatten_json v (list_key parent_key (fst st)) sep)))
                        rest (j, acc)))
                (path_key sep (list_key parent_key i) p))).
    { induction rest as [|x t IHt]; intros j acc Hn Hj.
      - destruct (i - j); discriminate.
      - cbn [List.fold_left fst snd]. destruct (Nat.eq_dec j i) as [->|Hne].
        + rewrite Nat.sub_diag in Hn. injection Hn as ->.
          apply fold_list_keeps, od_update_adds, IH.
        + apply IHt; [|lia]. replace (i - j) with (S (i - S j)) in Hn by lia. exact Hn. }
    apply Hgen; [rewrite Nat.sub_0_r; exact Hnth | lia].
Qed.

End Flatten.
(** X12: the flattened form of a value holds exactly the keys of the paths
    that lead to a scalar in it.  Every entry [(k, v)] of the result of
    [flatten_json] is a scalar [v] of the value, found at the end of a path
    whose key is [k] (the keys of the dictionaries joined by the separator,
    the indices of the lists between brackets); conversely the key of every
    path that leads to a scalar is a key of the result.  Dictionaries and
    lists that hold no scalar leave no trace. *)
Theorem flatten_json_paths (obj : HttpUtils.pyval) (parent_key sep : string) :
  (forall k v,
      HttpUtils.od_get (HttpUtils.flatten_json obj parent_key sep) k = Some v ->
      exists p, has_leaf obj p v /\ path_key sep parent_key p = k)
  /\ (forall p v,
        has_leaf obj p v ->
        exists v',
          HttpUtils.od_get (HttpUtils.flatten_json obj parent_key sep)
            (path_key sep parent_key p) = Some v').
Proof.
  split.
  - intros k v Hget. apply (flatten_sound_In sep obj). apply od_get_In. exact Hget.
  - intros p v Hleaf. apply (flatten_complete sep obj p v Hleaf).
Qed.

Section FlattenTwice.
Import HttpUtils.
Variable sep : string.

Lemma od_set_fresh {V} (k : string) (v : V) (d : odict V) :
  ~ In k (od_keys d) -> od_set k v d = d ++ [(k, v)].
Proof.
  induction d as [|[k0 v0] t IH]; cbn [od_set od_keys map fst]; [reflexivity|].
  intros Hn. destruct (String.eqb_spec k0 k) as [->|Hne].
  - exfalso. apply Hn. left; reflexivity.
  - cbn [app]. f_equal. apply IH. intros Hin. apply Hn. right; exact Hin.
Qed.

Lemma od_set_keys {V} (k : string) (v : V) (d : odict V) :
  od_keys (od_set k v d) = if mem k (od_keys d) then od_keys d else od_keys d ++ [k].
Proof.
  unfold od_keys, mem.
  induction d as [|[k0 v0] t IH]; cbn [od_set map fst existsb]; [reflexivity|].
  destruct (String.eqb_spec k0 k) as [->|Hne].
  - rewrite String.eqb_refl. reflexivity.
  - replace (String.eqb k k0) with false
      by (symmetry; apply String.eqb_neq; congruence).
    cbn [orb map fst]. rewrite IH.
    destruct (existsb (String.eqb k) (map fst t)); reflexivity.
Qed.

Lemma NoDup_snoc {A} (l : list A) (x : A) :
  List.NoDup l -> ~ In x l -> List.NoDup (l ++ [x]).
Proof.
  induction 1 as [|y t Hy Ht IH]; intros Hx; cbn [app].
  - constructor; [intros [] | constructor].
  - constructor.
    + intros Hin. apply in_app_or in Hin as [Hin|[<-|[]]]; [auto|].
      apply Hx. left; reflexivity.
    + apply IH. intros Hin. apply Hx. right; exact Hin.
Qed.

Lemma od_set_NoDup {V} (k : string) (v : V) (d : odict V) :
  List.NoDup (od_keys d) -> List.NoDup (od_keys (od_set k v d)).
Proof.
  intros Hd. rewrite od_set_keys. destruct (mem k (od_keys d)) eqn:Em; [exact Hd|].
  apply NoDup_snoc; [exact Hd|]. intros Hin. apply mem_In in Hin. congruence.
Qed.

Lemma od_update_NoDup {V} (e d : odict V) :
  List.NoDup (od_keys d) -> List.NoDup (od_keys (od_update d e)).
Proof.
  unfold od_update. revert d. induction e as [|kv t IH]; intros d Hd; [exact Hd|].
  cbn [List.fold_left]. apply IH, od_set_NoDup, Hd.
Qed.

(** the keys of the flattened form are distinct *)
Lemma flatten_keys_NoDup (obj : pyval) (parent_key : string) :
  List.NoDup (od_keys (flatten_json obj parent_key sep)).
Proof.
  destruct obj as [v|elements|entries]; cbn [flatten_json].
  - constructor; [intros [] | constructor].
  - generalize 0 as i. assert (Hnil : List.NoDup (od_keys (@nil (string * scalar))))
      by constructor.
    revert Hnil. generalize (@nil (string * scalar)) as acc.
    induction elements as [|x t IH]; intros acc Hacc i; [exact Hacc|].
    cbn [List.fold_left fst snd]. apply IH, od_update_NoDup, Hacc.
  - assert (Hnil : List.NoDup (od_keys (@nil (string * scalar)))) by constructor.
    revert Hnil. generalize (@nil (string * scalar)) as acc.
    induction entries as [|x t IH]; intros acc Hacc; [exact Hacc|].
    cbn [List.fold_left]. apply IH, od_update_NoDup, Hacc.
Qed.

Lemma flatten_as_dict_from (d acc : odict scalar) :
  List.NoDup (od_keys (acc ++ d)) ->
  List.fold_left
    (fun items kv =>
       od_update items (flatten_json (snd kv) (dict_key EmptyString sep (fst kv)) sep))
    (map (fun kv => (fst kv, PLeaf (snd kv))) d) acc
  = acc ++ d.
Proof.
  revert acc. induction d as [|[k v] t IH]; intros acc Hnd.
  - cbn [map List.fold_left]. rewrite app_nil_r. reflexivity.
  - cbn [map List.fold_left fst snd flatten_json]. unfold dict_key. cbn [nonempty].
    unfold od_update. cbn [List.fold_left fst snd].
    rewrite od_set_fresh.
    + rewrite IH; rewrite <- app_assoc; [reflexivity | exact Hnd].
    + unfold od_keys in *. rewrite map_app in Hnd. cbn [map fst] in Hnd.
      apply List.NoDup_remove_2 in Hnd. intros Hin. apply Hnd.
      apply in_or_app. left. exact Hin.
Qed.

End FlattenTwice.

(** X13: flattening is idempotent.  The result of [flatten_json] (called
    with its default empty parent key), read as a dictionary again, is flat
    already: flattening it gives back the same keys with the same values in
    the same order. *)
Theorem flatten_json_idempotent (obj : HttpUtils.pyval) (sep : string) :
  HttpUtils.flatten_json (as_dict (HttpUtils.flatten_json obj EmptyString sep))
    EmptyString sep
  = HttpUtils.flatten_json obj EmptyString sep.
Proof.
  unfold as_dict. cbn [HttpUtils.flatten_json].
  apply (flatten_as_dict_from sep _ []). cbn [app].
  apply flatten_keys_NoDup.
Qed.

(* ------------------------------------------------------------------ *)
(** * The parameters of a request *)

Section ParamsExtras.
Context `{PyEnv} `{PyLib}.
Import HttpUtils Params.

Lemma add_param_distinct (ps : odict (list string)) (k v : string) :
  distinct_values ps -> distinct_values (add_param ps k v).
Proof.
  intros [Hk Hv]. unfold add_param.
  destruct (od_get ps k) as [vs0|] eqn:E; cbn [default from_option id].
  - destruct (mem v vs0) eqn:Em; [split; assumption|].
    split; [apply od_set_NoDup; exact Hk|].
    intros k' vs. rewrite od_get_set.
    destruct (String.eqb_spec k k') as [<-|_]; [|apply Hv].
    intros [= <-]. split.
    + destruct vs0; discriminate.
    + apply NoDup_snoc; [exact (proj2 (Hv _ _ E))|].
      intros Hin. apply mem_In in Hin. congruence.
  - change (mem v []) with false. cbv iota.
    split; [do 2 apply od_set_NoDup; exact Hk|].
    intros k' vs. rewrite !od_get_set.
    destruct (String.eqb_spec k k') as [<-|_]; [|apply Hv].
    intros [= <-]. split; [discriminate|].
    constructor; [intros []|constructor].
Qed.

Lemma add_pairs_distinct (pairs : list (string * string)) (ps : odict (list string)) :
  distinct_values ps -> distinct_values (add_pairs ps pairs).
Proof.
  unfold add_pairs. revert ps.
  induction pairs as [|[k v] t IH]; intros ps Hps; [exact Hps|].
  cbn [List.fold_left fst snd]. apply IH, add_param_distinct, Hps.
Qed.

Lemma distinct_values_nil : distinct_values [].
Proof. split; [constructor | intros k vs; discriminate]. Qed.

Lemma add_param_has (ps : odict (list string)) (k v : string) :
  has_value (add_param ps k v) k v.
Proof.
  unfold add_param, has_value.
  destruct (od_get ps k) as [vs0|] eqn:E; cbn [default from_option id].
  - destruct (mem v vs0) eqn:Em.
    + exists vs0. split; [exact E | apply mem_In; exact Em].
    + exists (vs0 ++ [v]). rewrite od_get_set, String.eqb_refl.
      split; [reflexivity | apply in_or_app; right; left; reflexivity].
  - change (mem v []) with false. cbv iota.
    exists [v]. rewrite od_get_set, String.eqb_refl.
    split; [reflexivity | left; reflexivity].
Qed.

Lemma add_param_keeps (ps : odict (list string)) (k v k' v' : string) :
  has_value ps k' v' -> has_value (add_param ps k v) k' v'.
Proof.
  intros (vs & Hg & Hin). unfold add_param, has_value.
  destruct (od_get ps k) as [vs0|] eqn:E; cbn [default from_option id].
  - destruct (mem v vs0) eqn:Em; [exists vs; auto|].
    rewrite od_get_set. destruct (String.eqb_spec k k') as [->|_].
    + exists (vs0 ++ [v]). split; [reflexivity|].
      apply in_or_app. left. congruence.
    + exists vs; auto.
  - change (mem v []) with false. cbv iota.
    rewrite !od_get_set. destruct (String.eqb_spec k k') as [->|_]; [congruence|].
    exists vs; auto.
Qed.

Lemma add_pairs_keeps (pairs : list (string * string)) (ps : odict (list string))
    (k v : string) :
  has_value ps k v -> has_value (add_pairs ps pairs) k v.
Proof.
  unfold add_pairs. revert ps.
  induction pairs as [|[k0 v0] t IH]; intros ps Hps; [exact Hps|].
  cbn [List.fold_left fst snd]. apply IH, add_param_keeps, Hps.
Qed.

Lemma add_pairs_has (pairs : list (string * string)) (ps : odict (list string))
    (k v : string) :
  In (k, v) pairs -> has_value (add_pairs ps pairs) k v.
Proof.
  unfold add_pairs. revert ps.
  induction pairs as [|[k0 v0] t IH]; intros ps; [intros []|].
  cbn [List.fold_left fst snd]. intros [[= -> ->]|Hin].
  - apply (add_pairs_keeps t). apply add_param_has.
  - apply IH, Hin.
Qed.

(** the two bodies can only add to what the query gave *)
Lemma body_params_cases (headers : Headers) (params : odict (list string))
    (body : string) (ps : odict (list string)) :
  (let ctype := Latin1.lower (header2 headers "content-type" "Content-Type") in
   if startswith ctype "application/x-www-form-urlencoded" then
     Ok (match form_params params body with Ok p => p | Raise _ => params end)
   else if contains ctype "json" then
     Ok (match json_params params body with Ok p => p | Raise _ => params end)
   else Ok params) = Ok ps ->
  ps = params \/ exists pairs, ps = add_pairs params pairs.
Proof.
  cbv zeta.
  destruct (startswith _ _).
  - intros [= <-]. unfold form_params.
    destruct (bytes_decode _ _) as [s|]; cbn [rbind]; [|auto].
    destruct (parse_qsl s) as [pairs|]; cbn [rbind]; eauto.
  - destruct (contains _ _); [|intros [= <-]; auto].
    intros [= <-]. unfold json_params.
    destruct (bytes_decode _ _) as [s|]; cbn [rbind]; [|auto].
    destruct (json_loads s) as [obj|]; cbn [rbind]; eauto.
Qed.

(** X14: whatever the request, the dictionary [extract_params] returns has
    no key twice, and under every key a list of values that is not empty and
    holds no value twice. *)
Theorem extract_params_distinct_values (headers : Headers) (target body : string)
    (ps : odict (list string)) :
  extract_params headers target body = Ok ps -> distinct_values ps.
Proof.
  unfold extract_params.
  destruct (has_char "?" target).
  - destruct (Url.split_once "?" target) as [[pre qs]|];
      (destruct (parse_qsl _) as [pairs|]; cbn [rbind]; [|discriminate]);
      intros Hps; apply body_params_cases in Hps as [->|(pairs' & ->)];
      repeat apply add_pairs_distinct; apply distinct_values_nil.
  - cbn [rbind]. intros Hps. apply body_params_cases in Hps as [->|(pairs' & ->)];
      repeat apply add_pairs_distinct; apply distinct_values_nil.
Qed.

(** X15: when the target splits at its first question mark and [parse_qsl]
    reads the query, [extract_params] returns, and every pair of the query is
    in the result, whatever the headers and the body are. *)
Theorem extract_params_keeps_query (headers : Headers) (target body pre qs : string)
    (pairs : list (string * string)) :
  Url.split_once "?" target = Some (pre, qs) ->
  parse_qsl qs = Ok pairs ->
  exists ps,
    extract_params headers target body = Ok ps
    /\ forall k v, In (k, v) pairs -> has_value ps k v.
Proof.
  intros Hsplit Hq. unfold extract_params.
  assert (Hhas : has_char "?" target = true).
  { unfold has_char. unfold Url.split_once in Hsplit.
    destruct (index_char "?" target); [reflexivity | discriminate]. }
  rewrite Hhas, Hsplit, Hq. cbn [rbind].
  match goal with |- exists ps, ?e = Ok ps /\ _ =>
    destruct e as [ps|x] eqn:E end.
  - exists ps. split; [reflexivity|]. intros k v Hin.
    apply body_params_cases in E as [->|(pairs' & ->)].
    + apply add_pairs_has, Hin.
    + apply add_pairs_keeps, add_pairs_has, Hin.
  - exfalso. revert E. cbv zeta.
    destruct (startswith _ _); [discriminate|].
    destruct (contains _ _); discriminate.
Qed.

End ParamsExtras.

Lemma extract_params_distinct_values_witness :
  distinct_values [("next", ["home"; "main"]); ("user", ["kim"])].
Proof.
  apply (extract_params_distinct_values
           (H0 := Sample.py_lib)
           {[ "Content-Type" := "application/x-www-form-urlencoded" ]}
           "/login?next=home" "user=kim&next=main&next=home").
  vm_compute. reflexivity.
Defined.

Lemma extract_params_keeps_query_witness :
  exists ps,
    Params.extract_params (H0 := Sample.py_lib)
      {[ "Content-Type" := "application/json" ]} "/list?page=1&page=2" "x"
    = Ok ps
    /\ forall k v, In (k, v) [("page", "1"); ("page", "2")] -> has_value ps k v.
Proof.
  apply (extract_params_keeps_query (H0 := Sample.py_lib) _ _ _ "/list" "page=1&page=2").
  - vm_compute. reflexivity.
  - vm_compute. reflexivity.
Defined.

(* ------------------------------------------------------------------ *)
(** * The ban list *)

Section FilterExtras.
Import Filters.

Lemma filter_sessions_spec (prefixes : list string) (regexes : list (string -> bool))
    (rows out : list Row) :
  filter_sessions rows prefixes regexes = Ok out ->
  sublist out rows
  /\ (forall r, In r out ->
        In r rows /\ should_ignore (row_url r) prefixes regexes = Ok false)
  /\ (forall r, In r rows ->
        should_ignore (row_url r) prefixes regexes = Ok false -> In r out).
Proof.
  revert out. induction rows as [|item rest IH]; intros out; cbn [filter_sessions].
  - intros [= <-]. split; [constructor|]. split; [intros r []|intros r []].
  - destruct (should_ignore (row_url item) prefixes regexes) as [ig|] eqn:Ei;
      cbn [rbind]; [|discriminate].
    destruct (filter_sessions rest prefixes regexes) as [out0|];
      cbn [rbind]; [|discriminate].
    destruct (IH out0 eq_refl) as (Hsub & Hin & Hkeep).
    intros [= <-]. destruct ig.
    + split; [apply sublist_cons; exact Hsub|]. split.
      * intros r Hr. destruct (Hin r Hr). split; [right|]; assumption.
      * intros r [<-|Hr] Hno; [congruence | auto].
    + split; [apply sublist_skip; exact Hsub|]. split.
      * intros r [<-|Hr]; [split; [left; reflexivity | exact Ei]|].
        destruct (Hin r Hr). split; [right|]; assumption.
      * intros r [<-|Hr] Hno; [left; reflexivity | right; auto].
Qed.

Lemma filter_sessions_fixed (prefixes : list string) (regexes : list (string -> bool))
    (rows : list Row) :
  (forall r, In r rows -> should_ignore (row_url r) prefixes regexes = Ok false) ->
  filter_sessions rows prefixes regexes = Ok rows.
Proof.
  induction rows as [|item rest IH]; intros Hall; cbn [filter_sessions]; [reflexivity|].
  rewrite (Hall item (or_introl eq_refl)). cbn [rbind].
  rewrite IH by (intros r Hr; apply Hall; right; exact Hr). reflexivity.
Qed.

(** X16: what [filter_sessions] returns is the input without the rows to
    ignore, in the same order, and filtering it again changes nothing. *)
Theorem filter_sessions_idempotent (prefixes : list string)
    (regexes : list (string -> bool)) (rows out : list Row) :
  filter_sessions rows prefixes regexes = Ok out ->
  sublist out rows
  /\ (forall r, In r rows ->
        (In r out <-> should_ignore (row_url r) prefixes regexes = Ok false))
  /\ filter_sessions out prefixes regexes = Ok out.
Proof.
  intros Hf. destruct (filter_sessions_spec _ _ _ _ Hf) as (Hsub & Hin & Hkeep).
  split; [exact Hsub|]. split.
  - intros r Hr. split; [intros Ho; apply (Hin r Ho) | apply Hkeep, Hr].
  - apply filter_sessions_fixed. intros r Hr. apply (Hin r Hr).
Qed.

Lemma norm_prefixes_In (prefixes : list string) (p : string) :
  In p (norm_prefixes prefixes)
  <-> exists x, In x prefixes /\ p = strip x /\ startswith p "/" = true.
Proof.
  unfold norm_prefixes. rewrite List.filter_In, List.in_map_iff. split.
  - intros ((x & <- & Hx) & Hp). exists x. split; [exact Hx|]. split; [reflexivity|].
    destruct (startswith (strip x) "/"); [reflexivity|].
    rewrite !orb_true_r in Hp. discriminate.
  - intros (x & Hx & -> & Hs). split; [eauto|].
    destruct (strip x) as [|c t]; [discriminate|].
    pose proof Hs as Hs'. cbn [startswith] in Hs'. apply andb_prop in Hs' as [Hc _].
    apply Ascii.eqb_eq in Hc. subst c. rewrite Hs. reflexivity.
Qed.

Section Compiled.
Context `{PyLib}.

(** X17: a URL is ignored under a compiled ban list exactly when it parses
    and either some prefix of the list, stripped, begins with a slash and is a
    prefix of the path of the URL (of [/] for an empty path), or some pattern
    of the list compiles and is found in the URL.  A prefix that does not
    begin with a slash, such as a full URL, bans nothing. *)
Theorem compiled_ban_list (url : string) (prefixes regexes : list string) :
  should_ignore url (fst (compile_ignores prefixes regexes))
                    (snd (compile_ignores prefixes regexes)) = Ok true
  <-> exists p,
        Url.urlparse url = Ok p
        /\ ((exists x, In x prefixes
                       /\ startswith (strip x) "/" = true
                       /\ startswith (ignore_path p) (strip x) = true)
            \/ (exists rx rg, In rx regexes
                              /\ re_compile rx = Ok rg /\ rg url = true)).
Proof.
  unfold should_ignore, compile_ignores. cbn [fst snd].
  destruct (Url.urlparse url) as [p|e]; cbn [rbind].
  2:{ split; [discriminate | intros (p & Hp & _); discriminate]. }
  fold (ignore_path p).
  destruct (existsb (startswith (ignore_path p)) (norm_prefixes prefixes)) eqn:Ep.
  - split; [intros _|reflexivity]. exists p. split; [reflexivity|]. left.
    apply existsb_exists in Ep as (pf & Hin & Hs).
    apply norm_prefixes_In in Hin as (x & Hx & -> & Hslash). eauto.
  - split.
    + intros [= Hex]. exists p. split; [reflexivity|]. right.
      apply existsb_exists in Hex as (rg & Hin & Hrg).
      apply List.in_flat_map in Hin as (rx & Hrx & Hin).
      destruct (re_compile rx) as [rg'|] eqn:Ec; [|destruct Hin].
      destruct Hin as [<-|[]]. eauto.
    + intros (p' & [= <-] & [(x & Hx & Hslash & Hs)|(rx & rg & Hrx & Hc & Hrg)]).
      * exfalso. assert (Hex : existsb (startswith (ignore_path p)) (norm_prefixes prefixes) = true).
        { apply existsb_exists. exists (strip x). split; [|exact Hs].
          apply norm_prefixes_In. eauto. }
        congruence.
      * f_equal. apply existsb_exists. exists rg. split; [|exact Hrg].
        apply List.in_flat_map. exists rx. split; [exact Hrx|].
        rewrite Hc. left; reflexivity.
Qed.

End Compiled.

End FilterExtras.

Lemma filter_sessions_idempotent_witness :
  sublist [Sample.row_of "https://ex.com/home"]
          [Sample.row_of "https://ex.com/admin/users";
           Sample.row_of "https://ex.com/home"]
  /\ (forall r,
        In r [Sample.row_of "https://ex.com/admin/users";
              Sample.row_of "https://ex.com/home"] ->
        (In r [Sample.row_of "https://ex.com/home"]
         <-> Filters.should_ignore (row_url r) ["/admin"] [] = Ok false))
  /\ Filters.filter_sessions
       [Sample.row_of "https://ex.com/home"] ["/admin"] []
     = Ok [Sample.row_of "https://ex.com/home"].
Proof.
  apply (filter_sessions_idempotent ["/admin"] []
           [Sample.row_of "https://ex.com/admin/users";
            Sample.row_of "https://ex.com/home"]).
  vm_compute. reflexivity.
Defined.

(* ------------------------------------------------------------------ *)
(** * The rows of [parse_saz_data] *)

Section SazExtras.
Context `{PyEnv} `{PyLib} `{Collaborators}.
Import SazParser.

Lemma asset_check_parses (url : string) (zf : option ZipFile) (mnum : option string)
    (b : bool) :
  Filters.is_probable_asset url zf mnum = Ok b -> exists p, Url.urlparse url = Ok p.
Proof.
  unfold Filters.is_probable_asset.
  destruct (Url.urlparse url) as [p|]; cbn [rbind]; [eauto | discriminate].
Qed.

Lemma make_breadcrumb_ok (url : string) (p : Url.ParseResult) :
  Url.urlparse url = Ok p ->
  exists s, HttpUtils.make_breadcrumb url = Ok s /\ s <> EmptyString.
Proof.
  intros Hp. unfold HttpUtils.make_breadcrumb. rewrite Hp. cbn [rbind].
  destruct (List.filter nonempty _) as [|x t]; cbn [is_nil].
  - eexists. split; [reflexivity|]. discriminate.
  - eexists. split; [reflexivity|].
    cbn [List.firstn map]. unfold bracketed at 1. str_simpl.
    destruct (join_head " > " "[" (x +:+ "]") (map bracketed (List.firstn 4 t)))
      as (Z & ->). discriminate.
Qed.

Lemma menu_label_of_disabled (threshold : Q) (available : bool)
    (menu_pool : option Pool) (url referer : string) :
  menu_label_of false threshold available menu_pool url referer
  = (EmptyString, EmptyString).
Proof. unfold menu_label_of. destruct menu_pool; reflexivity. Qed.

Lemma startswith_https (host target : string) :
  startswith ("https://" +:+ host +:+ target) "http" = true.
Proof. apply startswith_iff. exists ("s://" +:+ host +:+ target). reflexivity. Qed.

Section OneRun.
Variable max_values : Z.
Variable enable_menu_label : bool.
Variable menu_threshold : Q.
Variable save_menu_candidates : bool.
Variable outdir : option string.
Variable show_progress : bool.
Variable progress_every : Z.
Variable debug : bool.
Variable available : bool.

Let session := process_session max_values enable_menu_label menu_threshold debug available.
Let loop := request_loop max_values enable_menu_label menu_threshold show_progress
              progress_every debug available.
Let parse := parse_saz_data max_values enable_menu_label menu_threshold
               save_menu_candidates outdir show_progress progress_every debug available.

Lemma process_session_row_ok (zf : ZipFile) (menu_pool : option Pool)
    (reqm mnum : string) (r : Row) :
  session zf menu_pool reqm mnum = Ok (Listed r) -> row_ok enable_menu_label debug r.
Proof.
  unfold session, process_session.
  destruct (read zf reqm) as [data|]; cbn [rbind]; [|discriminate].
  destruct (HttpUtils.parse_request data) as [[[method target] headers] body].
  destruct (String.eqb (upper method) "CONNECT") eqn:Em; cbn [orb]; [discriminate|].
  destruct (nonempty target) eqn:Et; cbn [negb]; [|discriminate].
  set (url := if startswith target "http" then target else _).
  destruct (Filters.is_probable_asset url (Some zf) (Some mnum)) as [[|]|] eqn:Ea;
    cbn [rbind]; try discriminate.
  destruct (Params.extract_params headers target body) as [params|];
    cbn [rbind]; [|discriminate].
  destruct (is_marked_vulnerable_by_comment zf mnum) as [vul|];
    cbn [rbind]; [|discriminate].
  destruct (menu_label_of _ _ _ _ _ _) as [menu_label match_score] eqn:El.
  destruct (extract_request_time_kst zf mnum) as [ts|]; cbn [rbind]; [|discriminate].
  destruct (asset_check_parses _ _ _ _ Ea) as (p & Hp).
  destruct (make_breadcrumb_ok url p Hp) as (crumb & Hcrumb & Hne).
  assert (Hurl : startswith url "http" = true).
  { unfold url. destruct (startswith target "http") eqn:Es; [exact Es|].
    apply startswith_https. }
  assert (Hoff : enable_menu_label = false ->
                 menu_label = EmptyString /\ match_score = EmptyString).
  { intros Hd. rewrite Hd, menu_label_of_disabled in El.
    split; congruence. }
  assert (Hmemo : (if nonempty match_score && true then match_score else EmptyString)
                  = match_score).
  { rewrite andb_true_r. destruct match_score; reflexivity. }
  assert (Hres : (if vul then VULNERABLE else SOUND) = VULNERABLE
                 \/ (if vul then VULNERABLE else SOUND) = SOUND)
    by (destruct vul; auto).
  apply String.eqb_neq in Em.
  destruct (nonempty menu_label) eqn:En.
  - cbn [rbind]. intros [= <-]. unfold row_ok.
    cbn [row_path row_method row_url row_menu row_score row_result row_memo].
    split; [exact Em|]. split; [exact Hurl|]. split; [eauto|]. split; [exact Hres|].
    split; [reflexivity|]. split.
    + intros ->. split; [apply nonempty_true; exact En | exact Hmemo].
    + split; [intros ->; split; reflexivity | exact Hoff].
  - assert (menu_label = EmptyString) as ->
      by (destruct menu_label; [reflexivity | discriminate]).
    destruct debug.
    + rewrite Hcrumb. cbn [rbind]. intros [= <-]. unfold row_ok.
      cbn [row_path row_method row_url row_menu row_score row_result row_memo].
      split; [exact Em|]. split; [exact Hurl|]. split; [eauto|]. split; [exact Hres|].
      split; [intros []; reflexivity|]. split.
      * intros _. split; [exact Hne | exact Hmemo].
      * split; [discriminate | exact Hoff].
    + cbn [rbind]. intros [= <-]. unfold row_ok.
      cbn [row_path row_method row_url row_menu row_score row_result row_memo].
      split; [exact Em|]. split; [exact Hurl|]. split; [eauto|]. split; [exact Hres|].
      split; [intros []; reflexivity|]. split.
      * discriminate.
      * split; [intros _; split; reflexivity | exact Hoff].
Qed.

Lemma request_loop_Forall (P : Row -> Prop) (zf : ZipFile) (menu_pool : option Pool)
    (total : nat) :
  (forall reqm mnum r, session zf menu_pool reqm mnum = Ok (Listed r) -> P r) ->
  forall members idx rows rows',
    Forall P rows ->
    loop zf menu_pool total idx members rows = Ok rows' ->
    Forall P rows'.
Proof.
  intros HP. unfold loop.
  induction members as [|reqm rest IH]; intros idx rows rows' Hrows; cbn [request_loop].
  - intros [= <-]. exact Hrows.
  - destruct (Re.search _RAW_C reqm) as [m|]; [|apply IH; exact Hrows].
    destruct (process_session _ _ _ _ _ zf menu_pool reqm _) as [[| |r]|] eqn:Es;
      try (apply IH; exact Hrows).
    + destruct (if show_progress then _ else _); cbn [rbind]; [|discriminate].
      apply IH; exact Hrows.
    + destruct (if show_progress then _ else _); cbn [rbind]; [|discriminate].
      apply IH. apply Forall_app. split; [exact Hrows|].
      constructor; [|constructor]. eapply HP. exact Es.
Qed.

Lemma parse_Forall (P : Row -> Prop) (saz : result ZipFile) :
  (forall zf menu_pool reqm mnum r,
      session zf menu_pool reqm mnum = Ok (Listed r) -> P r) ->
  Forall P (parse saz).
Proof.
  intros HP. unfold parse, parse_saz_data.
  destruct saz as [zf|]; [|constructor].
  destruct (sorted_members zf) as [members|]; [|constructor].
  destruct (request_loop _ _ _ _ _ _ _ _ _ _ _ _ _) as [rows|] eqn:El; [|constructor].
  eapply (request_loop_Forall P); [apply HP | constructor | exact El].
Qed.

(** X18: every row [parse_saz_data] returns has a method other than
    CONNECT, a URL that begins with http and that [urlparse] accepts, and one
    of the two results; its path column is the menu label when there is one;
    with [debug] the path column is not empty and the remark is the score
    text, without it the path column is the menu label and the remark is
    empty; without menu labelling, label and score text are empty. *)
Theorem parsed_rows_shape (saz : result ZipFile) :
  Forall (row_ok enable_menu_label debug) (parse saz).
Proof.
  apply parse_Forall. intros zf menu_pool reqm mnum r.
  apply process_session_row_ok.
Qed.

Lemma should_ignore_total (url : string) (p : Url.ParseResult)
    (prefixes : list string) (regexes : list (string -> bool)) :
  Url.urlparse url = Ok p ->
  exists b, Filters.should_ignore url prefixes regexes = Ok b.
Proof.
  intros Hp. unfold Filters.should_ignore. rewrite Hp. cbn [rbind].
  destruct (existsb _ prefixes); eauto.
Qed.

Lemma filter_sessions_total (prefixes : list string) (regexes : list (string -> bool))
    (rows : list Row) :
  Forall (fun r => exists p, Url.urlparse (row_url r) = Ok p) rows ->
  exists out, Filters.filter_sessions rows prefixes regexes = Ok out.
Proof.
  induction 1 as [|r rest (p & Hp) _ (out & IH)]; cbn [Filters.filter_sessions]; [eauto|].
  destruct (should_ignore_total _ p prefixes regexes Hp) as (b & ->).
  rewrite IH. cbn [rbind]. eauto.
Qed.

(** X19: [filter_sessions] does not raise on the rows of [parse_saz_data],
    whatever the ban list, and with an empty ban list it returns them all. *)
Theorem parsed_rows_can_be_filtered (saz : result ZipFile)
    (prefixes : list string) (regexes : list (string -> bool)) :
  (exists out, Filters.filter_sessions (parse saz) prefixes regexes = Ok out)
  /\ Filters.filter_sessions (parse saz) [] [] = Ok (parse saz).
Proof.
  assert (Hall : Forall (fun r => exists p, Url.urlparse (row_url r) = Ok p) (parse saz)).
  { apply parse_Forall. intros zf menu_pool reqm mnum r Hs.
    apply process_session_row_ok in Hs. apply Hs. }
  split; [apply filter_sessions_total; exact Hall|].
  apply filter_sessions_fixed. intros r Hr.
  rewrite List.Forall_forall in Hall. destruct (Hall r Hr) as (p & Hp).
  unfold Filters.should_ignore. rewrite Hp. reflexivity.
Qed.

End OneRun.

Section TwoRuns.
Variable max_values : Z.
Variable show_progress : bool.
Variable progress_every : Z.
Variables enable1 enable2 : bool.
Variables threshold1 threshold2 : Q.
Variables save1 save2 : bool.
Variables outdir1 outdir2 : option string.
Variables debug1 debug2 : bool.
Variables available1 available2 : bool.

Lemma session_core_same (zf : ZipFile) (pool1 pool2 : option Pool) (reqm mnum : string) :
  session_core (process_session max_values enable1 threshold1 debug1 available1
                  zf pool1 reqm mnum)
  = session_core (process_session max_values enable2 threshold2 debug2 available2
                    zf pool2 reqm mnum).
Proof.
  unfold process_session.
  destruct (read zf reqm) as [data|]; cbn [rbind]; [|reflexivity].
  destruct (HttpUtils.parse_request data) as [[[method target] headers] body].
  destruct (String.eqb (upper method) "CONNECT" || negb (nonempty target));
    [reflexivity|].
  set (url := if startswith target "http" then target else _).
  destruct (Filters.is_probable_asset url (Some zf) (Some mnum)) as [[|]|] eqn:Ea;
    cbn [rbind]; try reflexivity.
  destruct (Params.extract_params headers target body) as [params|];
    cbn [rbind]; [|reflexivity].
  destruct (is_marked_vulnerable_by_comment zf mnum) as [vul|];
    cbn [rbind]; [|reflexivity].
  destruct (menu_label_of enable1 _ _ _ _ _) as [label1 score1].
  destruct (menu_label_of enable2 _ _ _ _ _) as [label2 score2].
  destruct (extract_request_time_kst zf mnum) as [ts|]; cbn [rbind]; [|reflexivity].
  destruct (asset_check_parses _ _ _ _ Ea) as (p & Hp).
  destruct (make_breadcrumb_ok url p Hp) as (crumb & Hcrumb & _).
  rewrite Hcrumb.
  destruct (nonempty label1), (nonempty label2), debug1, debug2; reflexivity.
Qed.

Lemma request_loop_core_same (zf : ZipFile) (pool1 pool2 : option Pool) (total : nat) :
  forall members idx rows1 rows2,
    map row_core rows1 = map row_core rows2 ->
    (do rows <- request_loop max_values enable1 threshold1 show_progress
                  progress_every debug1 available1 zf pool1 total idx members rows1;
     Ok (map row_core rows))
    = (do rows <- request_loop max_values enable2 threshold2 show_progress
                    progress_every debug2 available2 zf pool2 total idx members rows2;
       Ok (map row_core rows)).
Proof.
  induction members as [|reqm rest IH]; intros idx rows1 rows2 Hrows;
    cbn [request_loop].
  - cbn [rbind]. rewrite Hrows. reflexivity.
  - destruct (Re.search _RAW_C reqm) as [m|]; [|apply IH; exact Hrows].
    pose proof (session_core_same zf pool1 pool2 reqm (Re.group_or_empty m 1)) as Hc.
    destruct (process_session _ enable1 _ _ _ zf pool1 reqm _) as [[| |r1]|];
      destruct (process_session _ enable2 _ _ _ zf pool2 reqm _) as [[| |r2]|];
      cbn [session_core] in Hc; try discriminate Hc;
      try (apply IH; exact Hrows).
    + destruct (if show_progress then _ else _) as [[]|e]; cbn [rbind]; [|reflexivity].
      apply IH; exact Hrows.
    + destruct (if show_progress then _ else _) as [[]|e]; cbn [rbind]; [|reflexivity].
      apply IH. rewrite !map_app, Hrows. cbn [map]. congruence.
Qed.

(** X20: the menu labelling and the debug switch decide nothing but the
    path, label, score and remark columns: two runs on the same archive that
    differ in them, in the threshold or in the saving of the candidates
    return as many rows, with the same method, URL, parameters, result and
    time in the same order. *)
Theorem labelling_keeps_the_rows (saz : result ZipFile) :
  map row_core
    (parse_saz_data max_values enable1 threshold1 save1 outdir1 show_progress
       progress_every debug1 available1 saz)
  = map row_core
      (parse_saz_data max_values enable2 threshold2 save2 outdir2 show_progress
         progress_every debug2 available2 saz).
Proof.
  unfold parse_saz_data. destruct saz as [zf|]; [|reflexivity].
  destruct (sorted_members zf) as [members|]; [|reflexivity].
  pose proof (request_loop_core_same zf
                (menu_pool_of enable1 save1 outdir1 show_progress progress_every
                   available1 zf)
                (menu_pool_of enable2 save2 outdir2 show_progress progress_every
                   available2 zf)
                (List.length members) members 1 [] [] eq_refl) as Hl.
  destruct (request_loop _ enable1 _ _ _ _ _ _ _ _ _ _ _) as [rows1|];
    destruct (request_loop _ enable2 _ _ _ _ _ _ _ _ _ _ _) as [rows2|];
    cbn [rbind] in Hl; try discriminate Hl; [|reflexivity].
  congruence.
Qed.

End TwoRuns.

Section ZeroEvery.
Variable max_values : Z.
Variable enable_menu_label : bool.
Variable menu_threshold : Q.
Variable save_menu_candidates : bool.
Variable outdir : option string.
Variable debug : bool.
Variable available : bool.

Lemma request_loop_zero_every (zf : ZipFile) (menu_pool : option Pool) (total : nat) :
  total <> 0 ->
  forall members idx rows rows',
    2 <= idx ->
    request_loop max_values enable_menu_label menu_threshold true 0 debug available
      zf menu_pool total idx members rows = Ok rows' ->
    rows' = rows.
Proof.
  intros Ht. induction members as [|reqm rest IH]; intros idx rows rows' Hi;
    cbn [request_loop].
  - congruence.
  - assert (Hup : Progress.progress_update idx total 0 = Raise ZeroDivisionError).
    { unfold Progress.progress_update.
      destruct (Nat.eqb_spec total 0); [contradiction|].
      destruct (Nat.eqb_spec idx 1); [lia | reflexivity]. }
    destruct (Re.search _RAW_C reqm) as [m|]; [|apply IH; lia].
    destruct (process_session _ _ _ _ _ zf menu_pool reqm _) as [[| |r]|];
      try (apply IH; lia); rewrite Hup; discriminate.
Qed.

(** X21: when the progress is shown and [progress_every] is 0,
    [parse_saz_data] returns at most one row, whatever the archive holds:
    the first request after the first one that is not skipped makes
    [progress_update] divide by zero, and the rows are dropped. *)
Theorem zero_progress_every_loses_rows (saz : result ZipFile) :
  List.length
    (parse_saz_data max_values enable_menu_label menu_threshold
       save_menu_candidates outdir true 0 debug available saz) <= 1.
Proof.
  unfold parse_saz_data. destruct saz as [zf|]; [|cbn; lia].
  destruct (sorted_members zf) as [[|reqm rest]|]; [cbn; lia| |cbn; lia].
  cbn [List.length request_loop].
  destruct (Re.search _RAW_C reqm) as [m|].
  2:{ destruct (request_loop _ _ _ _ _ _ _ _ _ _ _ _ _) as [rows|] eqn:El; [|cbn; lia].
      apply request_loop_zero_every in El; [subst; cbn; lia | lia | lia]. }
  destruct (process_session _ _ _ _ _ zf _ reqm _) as [[| |r]|];
    cbn [Progress.progress_update Nat.eqb rbind app];
    (destruct (request_loop _ _ _ _ _ _ _ _ _ _ _ _ _) as [rows|] eqn:El; [|cbn; lia]);
    (apply request_loop_zero_every in El; [subst; cbn; lia | lia | lia]).
Qed.

End ZeroEvery.

Lemma member_keys_none (l : list string) (m : string) :
  In m l -> member_key m = None -> member_keys l = None.
Proof.
  induction l as [|x t IH]; [intros []|].
  intros [->|Hin] Hk; cbn [member_keys].
  - rewrite Hk. reflexivity.
  - rewrite (IH Hin Hk). destruct (member_key x); reflexivity.
Qed.

(** X22: one entry of the archive whose name begins with raw/ and ends with
    _c.txt, but in which [raw/(\d+)_c\.txt$] finds nothing or a number of
    more digits than [int] takes, empties the result: the sort key raises
    and [parse_saz_data] returns no row at all. *)
Theorem unnumbered_request_empties_result
    (max_values : Z) (enable_menu_label : bool) (menu_threshold : Q)
    (save_menu_candidates : bool) (outdir : option string) (show_progress : bool)
    (progress_every : Z) (debug available : bool) (zf : ZipFile) (m : string) :
  In m (namelist zf) ->
  is_request_name m = true ->
  member_key m = None ->
  parse_saz_data max_values enable_menu_label menu_threshold save_menu_candidates
    outdir show_progress progress_every debug available (Ok zf) = [].
Proof.
  intros Hin Hname Hkey. unfold parse_saz_data, sorted_members.
  rewrite (member_keys_none _ m); [reflexivity | | exact Hkey].
  apply List.filter_In. split; assumption.
Qed.

End SazExtras.

Lemma unnumbered_request_empties_result_witness :
  SazParser.parse_saz_data (H0 := Sample.py_lib) (H1 := Sample.collaborators)
    20 false 58 false None false 200 false true
    (Ok (zip_of
           [("raw/1_c.txt",
             Ok (render_request "GET" "/home" "HTTP/1.1" [("Host", "ex.com")]
                   EmptyString));
            ("raw/x_c.txt", Raise KeyError)])) = [].
Proof.
  apply (unnumbered_request_empties_result
           (H0 := Sample.py_lib) (H1 := Sample.collaborators) 20 false 58 false None false 200 false true
           _ "raw/x_c.txt").
  - vm_compute. right. left. reflexivity.
  - vm_compute. reflexivity.
  - vm_compute. reflexivity.
Defined.
